(** * s3backup: staging, remote store and retention, verified against [backups.py]

    The development embeds [src/s3backup/backups.py] shallowly.  Paths are
    Python [str] values ([string]); the local filesystem is a finite map from
    resolved paths to nodes; the S3 bucket is the list of its objects in
    listing order; every method is a state transformer over a [World] that may
    raise a Python exception.

    Embedded: [StagingContext], [BackupHandler] ([backup], [prune], [restore],
    [extract], [_get_dirname]), [Collection], [BucketObject] and [BackupStore]
    ([download], [upload], [list_objects], [delete], [_prune_bucket]), with the
    parts of [os.path], [shutil], [tarfile], [tempfile] and the S3 client they
    call.  Left out: configuration loading, logging set-up and the
    [processlog] wrapper, which logs around a method and re-raises what it
    raised without touching the disk or the bucket. *)

From Stdlib Require Import ZArith Ascii String List Lia Bool Sorted.
From stdpp Require Import gmap strings list fin_maps pretty.

#[local] Set Warnings "-register-all".

Open Scope string_scope.
Open Scope Z_scope.

(** ** Python [str] operations used by the module *)

Module PyStr.

Definition sep : ascii := "/"%char.

Definition is_sep (c : ascii) : bool := Ascii.eqb c sep.

(** [s.startswith(p)] *)
Definition startswith (p s : string) : bool := String.prefix p s.

(** [p in s] on strings: [p] occurs in [s] as a substring. *)
Fixpoint contains (p s : string) : bool :=
  String.prefix p s ||
  match s with
  | EmptyString => false
  | String _ s' => contains p s'
  end.

(** [s.lstrip('/')] *)
Fixpoint lstrip_sep (s : string) : string :=
  match s with
  | String c s' => if is_sep c then lstrip_sep s' else s
  | EmptyString => EmptyString
  end.

(** [s.rstrip('/')] *)
Fixpoint rstrip_sep (s : string) : string :=
  match s with
  | EmptyString => EmptyString
  | String c s' =>
      match rstrip_sep s' with
      | EmptyString => if is_sep c then EmptyString else String c EmptyString
      | r => String c r
      end
  end.

(** [s.split('/')]: never empty, pieces may be empty. *)
Fixpoint split_sep (s : string) : list string :=
  match s with
  | EmptyString => [EmptyString]
  | String c s' =>
      if is_sep c then EmptyString :: split_sep s'
      else match split_sep s' with
           | [] => [String c EmptyString]
           | w :: ws => String c w :: ws
           end
  end.

(** ['/'.join(comps)] *)
Fixpoint join_sep (comps : list string) : string :=
  match comps with
  | [] => EmptyString
  | [c] => c
  | c :: cs => c +:+ String sep (join_sep cs)
  end.

(** [s.split(d)] for a non-empty delimiter [d], scanning left to right; [skip]
    counts the characters of a matched delimiter still to be dropped and [cur]
    holds the current piece reversed. *)
Fixpoint split_on_aux (d : string) (skip : nat) (cur : list ascii) (s : string)
  : list string :=
  match s with
  | EmptyString => [string_of_list_ascii (rev cur)]
  | String c s' =>
      match skip with
      | S k => split_on_aux d k cur s'
      | O =>
          if String.prefix d s
          then string_of_list_ascii (rev cur)
                 :: split_on_aux d (Nat.pred (String.length d)) [] s'
          else split_on_aux d O (c :: cur) s'
      end
  end.

(** [s.split(d)]; Python raises [ValueError] on an empty delimiter. *)
Definition split_on (d s : string) : option (list string) :=
  match d with
  | EmptyString => None
  | _ => Some (split_on_aux d O [] s)
  end.

(** [l[-1]] *)
Definition last_piece (l : list string) : string := List.last l EmptyString.

End PyStr.

(** ** [os.path] (posixpath) *)

Module OsPath.
Import PyStr.

(** [os.path.join(a, b)] *)
Definition join (a b : string) : string :=
  if startswith "/" b then b
  else match a with
       | EmptyString => b
       | _ => if String.eqb (rstrip_sep a) a then a +:+ "/" +:+ b else a +:+ b
       end.

(** [p[:p.rfind('/') + 1]] *)
Fixpoint head_to_last_sep (p : string) : string :=
  match p with
  | EmptyString => EmptyString
  | String c p' =>
      match head_to_last_sep p' with
      | EmptyString => if is_sep c then String c EmptyString else EmptyString
      | h => String c h
      end
  end.

(** [p[p.rfind('/') + 1:]] *)
Definition tail_from_last_sep (p : string) : string := last_piece (split_sep p).

(** [os.path.dirname(p)] *)
Definition dirname (p : string) : string :=
  let head := head_to_last_sep p in
  match lstrip_sep head with
  | EmptyString => head            (* empty, or nothing but slashes *)
  | _ => rstrip_sep head
  end.

(** [os.path.split(p)[1]] *)
Definition basename (p : string) : string := tail_from_last_sep p.

(** The component loop of [os.path.normpath]; [acc] is [new_comps] reversed. *)
Fixpoint norm_comps (absolute : bool) (acc : list string) (comps : list string)
  : list string :=
  match comps with
  | [] => rev acc
  | comp :: rest =>
      if String.eqb comp "" || String.eqb comp "." then norm_comps absolute acc rest
      else if negb (String.eqb comp "..") then norm_comps absolute (comp :: acc) rest
      else match acc with
           | [] => if absolute then norm_comps absolute acc rest
                   else norm_comps absolute (comp :: acc) rest
           | top :: below =>
               if String.eqb top ".." then norm_comps absolute (comp :: acc) rest
               else norm_comps absolute below rest
           end
  end.

(** [os.path.normpath(p)] *)
Definition normpath (p : string) : string :=
  match p with
  | EmptyString => "."
  | _ =>
      let initial :=
        if startswith "/" p
        then if startswith "//" p && negb (startswith "///" p) then "//" else "/"
        else "" in
      let body := join_sep (norm_comps (startswith "/" p) [] (split_sep p)) in
      match initial +:+ body with
      | EmptyString => "."
      | r => r
      end
  end.

(** [os.path.expanduser(p)]; [home_of ""] is the current user's home ([$HOME]),
    [home_of name] the password-database entry of [name]. *)
Definition expanduser (home_of : string -> option string) (p : string) : string :=
  match p with
  | String "~" rest =>
      let name := hd EmptyString (split_sep rest) in
      let suffix := String.substring (String.length name) (String.length rest) rest in
      match home_of name with
      | None => p
      | Some userhome =>
          match rstrip_sep userhome +:+ suffix with
          | EmptyString => "/"
          | r => r
          end
      end
  | _ => p
  end.

End OsPath.

(** ** The local filesystem *)

(** Contents of a regular file: opaque bytes, or a gzip-compressed tar archive
    given by its members (member name as path components, [None] for a
    directory member). *)
Inductive content : Type :=
  | Raw (bytes : list Byte.byte)
  | TarGz (members : list (list string * option content)).

Inductive node : Type :=
  | Dir
  | File (c : content).

(** Python exceptions the module raises or lets through. *)
Inductive exn : Type :=
  | Exception (msg : string)
  | ValueError (msg : string)
  | IndexError
  | AttributeError (name : string)
  | EnvironmentError (msg : string)
  | KeyError (key : string)
  | OSError (path : string)
  | ReadError (path : string)
  | ClientError (key : string)
  | S3UploadFailedError (key : string).

Module Fs.
Import PyStr OsPath.

(** A path resolves to its components, relative paths being taken from the
    root; the root itself is the empty list and always a directory. *)
Definition resolve (p : string) : list string := norm_comps true [] (split_sep p).

Definition node_at (m : gmap (list string) node) (k : list string) : option node :=
  match k with
  | [] => Some Dir
  | _ => m !! k
  end.

Definition parent (k : list string) : list string := removelast k.

(** All non-empty prefixes of [k], shortest first. *)
Fixpoint prefixes (k : list string) : list (list string) :=
  match k with
  | [] => []
  | c :: k' => [c] :: map (cons c) (prefixes k')
  end.

Definition is_file_node (o : option node) : bool :=
  match o with Some (File _) => true | _ => false end.

Definition is_dir_node (o : option node) : bool :=
  match o with Some Dir => true | _ => false end.

(** [os.path.isdir], [os.path.isfile] *)
Definition isdir (m : gmap (list string) node) (p : string) : bool :=
  is_dir_node (node_at m (resolve p)).

Definition isfile (m : gmap (list string) node) (p : string) : bool :=
  is_file_node (node_at m (resolve p)).

(** No regular file sits on the way down to [k]. *)
Definition no_file_above (m : gmap (list string) node) (k : list string) : bool :=
  forallb (fun a => negb (is_file_node (m !! a))) (prefixes (parent k)).

(** Create the missing directories down to [k]; existing nodes are kept. *)
Definition mkdir_step (m : gmap (list string) node) (a : list string)
  : gmap (list string) node :=
  match m !! a with
  | None => <[a := Dir]> m
  | Some _ => m
  end.

Definition mkdir_p (m : gmap (list string) node) (k : list string)
  : gmap (list string) node :=
  fold_left mkdir_step (prefixes k) m.

(** [os.makedirs(p)]: fails when [p] exists or a file is in the way. *)
Definition makedirs (m : gmap (list string) node) (p : string)
  : exn + gmap (list string) node :=
  let k := resolve p in
  match node_at m k with
  | Some _ => inl (OSError p)
  | None => if no_file_above m k then inr (mkdir_p m k) else inl (OSError p)
  end.

(** Opening [p] for writing and storing [c]: the parent must be a directory
    and [p] must not be one. *)
Definition write_file (m : gmap (list string) node) (p : string) (c : content)
  : exn + gmap (list string) node :=
  let k := resolve p in
  match node_at m k, node_at m (parent k) with
  | Some Dir, _ => inl (OSError p)
  | _, Some Dir => inr (<[k := File c]> m)
  | _, _ => inl (OSError p)
  end.

Definition read_file (m : gmap (list string) node) (p : string) : exn + content :=
  match node_at m (resolve p) with
  | Some (File c) => inr c
  | _ => inl (OSError p)
  end.

(** [os.unlink(p)] *)
Definition unlink (m : gmap (list string) node) (p : string)
  : exn + gmap (list string) node :=
  match node_at m (resolve p) with
  | Some (File _) => inr (delete (resolve p) m)
  | _ => inl (OSError p)
  end.

Definition outside (k : list string) (kv : list string * node) : Prop :=
  ¬ k `prefix_of` kv.1.

#[export] Instance outside_dec k kv : Decision (outside k kv).
Proof. unfold outside. apply _. Defined.

(** [shutil.rmtree(p)]: [p] must be a directory; it goes with all below it. *)
Definition rmtree (m : gmap (list string) node) (p : string)
  : exn + gmap (list string) node :=
  let k := resolve p in
  match k, m !! k with
  | _ :: _, Some Dir => inr (filter (outside k) m)
  | _, _ => inl (OSError p)
  end.

(** The nodes at and below [k], named relative to [k]. *)
Definition subtree (m : gmap (list string) node) (k : list string)
  : list (list string * node) :=
  omap (fun kv => if decide (k `prefix_of` kv.1)
                  then Some (drop (length k) kv.1, kv.2) else None)
       (map_to_list m).

(** Put one node at [k], creating the directories above it; a directory is
    never replaced by a file. *)
Definition put_node (p : string) (m : gmap (list string) node) (k : list string)
  (n : node) : exn + gmap (list string) node :=
  if negb (no_file_above m k) then inl (OSError p)
  else match n, node_at m k with
       | Dir, Some (File _) => inl (OSError p)
       | Dir, _ => inr (mkdir_p m k)
       | File _, Some Dir => inl (OSError p)
       | File c, _ => inr (<[k := File c]> (mkdir_p m (parent k)))
       end.

Fixpoint put_nodes (p : string) (m : gmap (list string) node) (base : list string)
  (l : list (list string * node)) : exn + gmap (list string) node :=
  match l with
  | [] => inr m
  | (rel, n) :: l' =>
      match put_node p m (base ++ rel)%list n with
      | inl e => inl e
      | inr m' => put_nodes p m' base l'
      end
  end.

(** [distutils.dir_util.copy_tree(src, dst)]: [src] must be a directory; the
    tree below it is reproduced below [dst], which is created as needed. *)
Definition copy_tree (m : gmap (list string) node) (src dst : string)
  : exn + gmap (list string) node :=
  if isdir m src then put_nodes dst m (resolve dst) (subtree m (resolve src))
  else inl (OSError src).

(** [shutil.copy2(src, dst)]: into [dst] when it is a directory, onto it
    otherwise. *)
Definition copy2 (m : gmap (list string) node) (src dst : string)
  : exn + gmap (list string) node :=
  match read_file m src with
  | inl e => inl e
  | inr c => write_file m (if isdir m dst then join dst (basename src) else dst) c
  end.

End Fs.

(** ** The world the module runs in *)

(** One object of the bucket, as the service lists it. *)
Record S3Object : Type := mkS3Object {
  Key : string;
  LastModified : Z;
  ETag : string;
  Size : Z;
  Body : content
}.

(** Calls that reach the local disk or the bucket, in the order they happened
    (latest last). *)
Inductive Event : Type :=
  | EvMakedirs (p : string)
  | EvRmtree (p : string)
  | EvWrite (p : string)
  | EvUnlink (p : string)
  | EvCopyTree (src dst : string)
  | EvCopy2 (src dst : string)
  | EvExtractAll (p : string)
  | EvListObjects (prefix : string)
  | EvUploadFile (path key : string)
  | EvDownloadFile (key path : string)
  | EvDeleteObjects (keys : list string).

Record World : Type := mkWorld {
  fs : gmap (list string) node;
  bucket : list S3Object;
  events : list Event
}.

(** What a run takes from its surroundings: library functions the module
    calls but does not define, the random and temporary names, the metadata
    the service assigns to an upload, and the faults that make a step fail. *)
Record Env : Type := mkEnv {
  home_of : string -> option string;
  glob : gmap (list string) node -> string -> list string;
  randint : Z;
  tempfile_name : string;
  upload_time : Z;
  upload_etag : string;
  upload_size : Z;
  disk_full : bool;
  upload_fails : bool;
  empty_listing_omits_contents : bool
}.

(** A computation: it transforms the world and returns or raises. *)
Definition M (A : Type) : Type := World -> World * (exn + A).

Definition ret {A} (a : A) : M A := fun w => (w, inr a).

Definition raise {A} (e : exn) : M A := fun w => (w, inl e).

Definition bind {A B} (m : M A) (k : A -> M B) : M B :=
  fun w => match m w with
           | (w1, inl e) => (w1, inl e)
           | (w1, inr a) => k a w1
           end.

Declare Scope py_scope.
Delimit Scope py_scope with py.
Notation "x <- m ;; k" := (bind m (fun x => k))
  (at level 100, m at next level, right associativity) : py_scope.
Notation "m ;;; k" := (bind m (fun _ => k))
  (at level 100, right associativity) : py_scope.
Open Scope py_scope.

(** [try: m except <handled>: h] *)
Definition try_except {A} (m : M A) (handled : exn -> bool) (h : exn -> M A) : M A :=
  fun w => match m w with
           | (w1, inl e) => if handled e then h e w1 else (w1, inl e)
           | r => r
           end.

(** [with enter as x: body]; [leave] runs on every way out of [body] and does
    not suppress its exception. *)
Definition with_ {A B} (enter : M A) (leave : A -> M unit) (body : A -> M B) : M B :=
  fun w => match enter w with
           | (w1, inl e) => (w1, inl e)
           | (w1, inr a) =>
               let (w2, r) := body a w1 in
               match leave a w2 with
               | (w3, inl e) => (w3, inl e)
               | (w3, inr _) => (w3, r)
               end
           end.

(** [for x in l: body x] *)
Fixpoint for_each {A} (l : list A) (body : A -> M unit) : M unit :=
  match l with
  | [] => ret tt
  | x :: l' => body x ;;; for_each l' body
  end.

Definition log_event (ev : Event) : M unit :=
  fun w => (mkWorld (fs w) (bucket w) (events w ++ [ev]), inr tt).

(** A filesystem operation taking effect, with the call it is recorded as. *)
Definition fs_op (ev : Event)
  (f : gmap (list string) node -> exn + gmap (list string) node) : M unit :=
  fun w => match f (fs w) with
           | inl e => (w, inl e)
           | inr m => (mkWorld m (bucket w) (events w ++ [ev]), inr tt)
           end.

Definition fs_get {A} (f : gmap (list string) node -> A) : M A :=
  fun w => (w, inr (f (fs w))).

Definition fs_read (p : string) : M content :=
  fun w => (w, Fs.read_file (fs w) p).

Definition present {A} (o : option A) : bool :=
  match o with Some _ => true | None => false end.

Definition unless_none {A} (o : option A) (e : exn) : M A :=
  match o with Some a => ret a | None => raise e end.

(** ** The S3 client ([boto3]) as the module uses it *)

Module S3.
Import PyStr.

(** The objects a listing with [Prefix=prefix] reports. *)
Definition listed (prefix : string) (l : list S3Object) : list S3Object :=
  List.filter (fun o => startswith prefix (Key o)) l.

(** [client.list_objects(Bucket=.., Prefix=prefix)]: the value under
    ["Contents"] of the response, [None] when the response has no such key. *)
Definition list_objects (env : Env) (prefix : string) : M (option (list S3Object)) :=
  log_event (EvListObjects prefix) ;;;
  fun w => match listed prefix (bucket w) with
           | [] => (w, inr (if empty_listing_omits_contents env then None else Some []))
           | objs => (w, inr (Some objs))
           end.

Definition has_key (k : string) (o : S3Object) : bool := String.eqb (Key o) k.

Fixpoint insert_by_key (o : S3Object) (l : list S3Object) : list S3Object :=
  match l with
  | [] => [o]
  | x :: l' => if String.leb (Key o) (Key x) then o :: l else x :: insert_by_key o l'
  end.

(** Storing [o] replaces the object of the same key; listings go by key. *)
Definition put_object (o : S3Object) (l : list S3Object) : list S3Object :=
  insert_by_key o (List.filter (fun x => negb (has_key (Key o) x)) l).

(** [client.upload_file(path, bucket, key)] *)
Definition upload_file (env : Env) (path key : string) : M unit :=
  c <- fs_read path ;;
  if upload_fails env then raise (S3UploadFailedError key)
  else fun w =>
    let o := mkS3Object key (upload_time env) (upload_etag env) (upload_size env) c in
    (mkWorld (fs w) (put_object o (bucket w)) (events w ++ [EvUploadFile path key]),
     inr tt).

(** [client.download_file(bucket, key, path)] *)
Definition download_file (key path : string) : M unit :=
  fun w => match List.find (has_key key) (bucket w) with
           | None => (w, inl (ClientError key))
           | Some o => fs_op (EvDownloadFile key path)
                         (fun m => Fs.write_file m path (Body o)) w
           end.

Definition named_in (keys : list string) (o : S3Object) : bool :=
  existsb (String.eqb (Key o)) keys.

(** [client.delete_objects(Delete={"Objects": [{"Key": k}, ..]}, Bucket=..)] *)
Definition delete_objects (keys : list string) : M unit :=
  fun w => (mkWorld (fs w) (List.filter (fun o => negb (named_in keys o)) (bucket w))
                    (events w ++ [EvDeleteObjects keys]), inr tt).

End S3.

(** ** Python built-ins on lists *)

Module PyList.

Section Sorted.
Context {A : Type}.

Fixpoint insert_before (before : A -> A -> bool) (x : A) (l : list A) : list A :=
  match l with
  | [] => [x]
  | y :: l' => if before x y then x :: l else y :: insert_before before x l'
  end.

(** Whether [x] may stand before [y] when sorting by [key]. *)
Definition key_before (key : A -> Z) (reverse : bool) (x y : A) : bool :=
  if reverse then key y <=? key x else key x <=? key y.

(** [sorted(l, key=key, reverse=reverse)]: a stable sort; equal keys keep
    their order in [l] whichever way it runs. *)
Definition sorted (key : A -> Z) (reverse : bool) (l : list A) : list A :=
  foldr (insert_before (key_before key reverse)) [] l.

(** [x] may stand before every element of [l]; [l] is in order. *)
Definition ahead (before : A -> A -> bool) (x : A) (l : list A) : Prop :=
  Forall (fun y => before x y = true) l.

Inductive ordered_by (before : A -> A -> bool) : list A -> Prop :=
  | ordered_nil : ordered_by before []
  | ordered_cons x l :
      ahead before x l -> ordered_by before l -> ordered_by before (x :: l).

(** [l[i:]] *)
Definition slice_from (i : Z) (l : list A) : list A :=
  let n := Z.of_nat (length l) in
  drop (Z.to_nat (if i <? 0 then Z.max (n + i) 0 else i)) l.

End Sorted.

End PyList.

(** ** [BucketObject] and [Collection] *)

Record BucketObject : Type := mkBucketObject {
  modified : Z;
  filename : string;
  etag : string;
  size : Z
}.

(** [BucketObject(contents)] *)
Definition BucketObject_init (contents : S3Object) : BucketObject :=
  {| modified := LastModified contents;
     filename := Key contents;
     etag := ETag contents;
     size := Size contents |}.

Module Collection.

Record t : Type := mk { objects : list BucketObject }.

Definition filenames (c : t) : list string := map filename (objects c).

(** [get(value)] with the default [key='filename'] *)
Definition get (c : t) (value : string) : option BucketObject :=
  List.find (fun o => String.eqb (filename o) value) (objects c).

Definition filterd (c : t) (filter_fn : BucketObject -> bool) : t :=
  mk (List.filter filter_fn (objects c)).

(** [ordered(order_by, desc)]; [order_by] names an integer attribute. *)
Definition ordered (c : t) (order_by : BucketObject -> Z) (desc : bool) : t :=
  mk (PyList.sorted order_by desc (objects c)).

Definition len (c : t) : nat := length (objects c).

End Collection.

(** ** [BackupStore] *)

Record BackupStore : Type := mkBackupStore {
  _bucket : string;
  _path : string;
  _profile : option string;
  _retain : option Z
}.

Module Store.
Import PyStr OsPath.

Definition LATEST : string := "backups.latest".

Definition default_patterns : list string := ["deb"; "tar.gz"].

(** [BackupStore(bucket, path, profile, retain)] *)
Definition init (bucket : string) (path profile : option string) (retain : option Z)
  : BackupStore :=
  {| _bucket := bucket;
     _path := match path with Some p => p | None => "" end;
     _profile := profile;
     _retain := retain |}.

Definition list_objects (env : Env) (self : BackupStore) : M Collection.t :=
  raw <- S3.list_objects env (_path self) ;;
  contents <- unless_none raw (KeyError "Contents") ;;
  ret (Collection.mk (map BucketObject_init contents)).

Definition is_IndexError (e : exn) : bool :=
  match e with IndexError => true | _ => false end.

Definition download (env : Env) (self : BackupStore) (target localpath : string)
  (as_filename : option string) : M string :=
  filename <-
    (if String.eqb target LATEST then
       try_except
         (c <- list_objects env self ;;
          unless_none (last (Collection.filenames c)) IndexError)
         is_IndexError
         (fun _ => raise (EnvironmentError "Error: Bucket appears to be empty"))
     else match as_filename with
          | Some (String c f) => ret (String c f)
          | _ => raise (ValueError
                   "Target is not latest and filepath not given; cannot continue")
          end) ;;
  let local := join localpath filename in
  S3.download_file filename local ;;;
  ret local.

(** What [delete] accepts: a [Collection], a plain list or tuple, or a single
    object. *)
Inductive deletable : Type :=
  | OfCollection (c : Collection.t)
  | OfSequence (l : list BucketObject)
  | OfObject (o : BucketObject).

Definition delete (self : BackupStore) (collection : deletable) : M unit :=
  let collection := match collection with
                    | OfCollection c => c
                    | OfSequence l => Collection.mk l
                    | OfObject o => Collection.mk [o]
                    end in
  let objects := Collection.filenames collection in
  S3.delete_objects objects.

Definition matches (pattern : string) (obj : BucketObject) : bool :=
  contains pattern (filename obj).

Definition _prune_bucket (env : Env) (self : BackupStore) (retain : Z)
  (patterns : list string) : M unit :=
  all <- list_objects env self ;;
  let objects := Collection.ordered all modified true in
  if (0 <? Collection.len objects)%nat then
    for_each patterns (fun pattern =>
      let objects_by_pattern := List.filter (matches pattern) (Collection.objects objects) in
      if Z.of_nat (length objects_by_pattern) >? retain then
        let to_prune := PyList.slice_from retain objects_by_pattern in
        delete self (OfSequence to_prune)
      else ret tt)
  else ret tt.

(** Truth value of [self._retain]. *)
Definition retain_truthy (r : option Z) : option Z :=
  match r with
  | Some n => if n =? 0 then None else Some n
  | None => None
  end.

Definition upload (env : Env) (self : BackupStore) (localpath : string)
  (target : option string) : M unit :=
  let path := normpath localpath in
  let target := match target with
                | Some (String c t) => String c t
                | _ => basename path
                end in
  S3.upload_file env path (join (_path self) target) ;;;
  match retain_truthy (_retain self) with
  | Some retain => _prune_bucket env self retain default_patterns
  | None => ret tt
  end.

End Store.

(** ** [StagingContext] *)

Module Staging.
Import PyStr OsPath.

(** The attributes [stage] sets are absent until it has run. *)
Record t : Type := mk {
  tmpdir : string;
  isdir : option bool;
  basepath : option string;
  targetpath : option string;
  target_name : option string
}.

Definition attr (name : string) (o : option string) : M string :=
  unless_none o (AttributeError name).

Definition is_OSError (e : exn) : bool :=
  match e with OSError _ => true | _ => false end.

Definition _initialize (env : Env) (tmpdir : string) : M string :=
  let dir := pretty (randint env) in
  let path := join tmpdir dir in
  fs_op (EvMakedirs path) (fun m => Fs.makedirs m path) ;;;
  ret path.

(** The default of the constructor's [tmpdir] argument. *)
Definition default_tmpdir : string := "/tmp/".

(** [StagingContext(tmpdir)] *)
Definition init (env : Env) (tmpdir : string) : M t :=
  path <- _initialize env tmpdir ;;
  ret (mk path None None None None).

Definition __exit__ (self : t) : M unit :=
  fs_op (EvRmtree (tmpdir self)) (fun m => Fs.rmtree m (tmpdir self)).

Definition stage (env : Env) (self : t) (target : string)
  (includes : option (list string)) : M t :=
  target_isdir <- fs_get (fun m => Fs.isdir m target) ;;
  if negb target_isdir && match includes with Some (_ :: _) => true | _ => false end
  then raise (Exception "Includes can only be used with with a directory.")
  else
    let name := last_piece (split_sep (normpath (target +:+ "/"))) in
    let base := join (tmpdir self) name in
    let self := mk (tmpdir self) (Some target_isdir) (Some base) (Some base) (Some name) in
    (if target_isdir then
       let includes := match includes with
                       | Some (i :: l) => i :: l
                       | _ => ["*"]
                       end in
       objects <- fs_get (fun m => flat_map (fun i => glob env m (join target i)) includes) ;;
       for_each objects (fun obj =>
         pieces <- unless_none (split_on target obj) (ValueError "empty separator") ;;
         let end_path := lstrip_sep (last_piece pieces) in
         let path := join base end_path in
         obj_isdir <- fs_get (fun m => Fs.isdir m obj) ;;
         if obj_isdir then
           fs_op (EvCopyTree obj path) (fun m => Fs.copy_tree m obj path)
         else
           try_except
             (fs_op (EvMakedirs (dirname path)) (fun m => Fs.makedirs m (dirname path)))
             is_OSError (fun _ => ret tt) ;;;
           fs_op (EvCopy2 obj path) (fun m => Fs.copy2 m obj path))
     else
       fs_op (EvCopy2 target base) (fun m => Fs.copy2 m target base)) ;;;
    ret self.

Definition as_member (n : node) : option content :=
  match n with Dir => None | File c => Some c end.

(** [tar.add(name, arcname=arcname)] into the archive being written at
    [tar_path]: [name] and all below it, except the archive itself. *)
Definition tar_add (m : gmap (list string) node) (name arcname tar_path : string)
  : exn + list (list string * option content) :=
  match Fs.node_at m (Fs.resolve name) with
  | None => inl (OSError name)
  | Some _ =>
      inr (omap (fun kv =>
                   if decide ((Fs.resolve name ++ kv.1)%list = Fs.resolve tar_path)
                   then None
                   else Some ((Fs.resolve arcname ++ kv.1)%list, as_member kv.2))
                (Fs.subtree m (Fs.resolve name)))
  end.

Definition compress (env : Env) (self : t) (rename_to : option string) : M t :=
  tar_name <- match rename_to with
              | Some (String c r) => ret (String c r)
              | _ => n <- attr "target_name" (target_name self) ;; ret (n +:+ ".tgz")
              end ;;
  let tar_path := join (tmpdir self) tar_name in
  fs_op (EvWrite tar_path) (fun m => Fs.write_file m tar_path (Raw [])) ;;;
  src <- attr "targetpath" (targetpath self) ;;
  arcname <- attr "target_name" (target_name self) ;;
  members <- (fun w => (w, tar_add (fs w) src arcname tar_path)) ;;
  (if disk_full env then raise (OSError tar_path) else ret tt) ;;;
  fs_op (EvWrite tar_path) (fun m => Fs.write_file m tar_path (TarGz members)) ;;;
  ret (mk (tmpdir self) (isdir self) (basepath self)
          (Some (join (tmpdir self) tar_name)) (target_name self)).

Definition path (self : t) : M string := attr "targetpath" (targetpath self).

Definition name (self : t) : M string :=
  p <- attr "targetpath" (targetpath self) ;;
  ret (last_piece (split_sep (normpath (p +:+ "/")))).

(** The workspace [StagingContext()] creates: the path [_initialize] builds
    from the default [tmpdir]. *)
Definition workspace (env : Env) : string :=
  join default_tmpdir (pretty (randint env)).

End Staging.

(** ** [BackupHandler] *)

Record BackupHandler : Type := mkBackupHandler {
  store : BackupStore;
  backupdir : option string;
  includes : option (list string)
}.

Module Handler.
Import PyStr OsPath.

(** [a or b] on optional strings, and ["{}".format(x)] of the result. *)
Definition py_or (a b : option string) : option string :=
  match a with
  | Some (String c s) => a
  | _ => b
  end.

Definition py_format (o : option string) : string :=
  match o with Some s => s | None => "None" end.

Definition _get_dirname (env : Env) (path : string) : string :=
  let expanded := expanduser (home_of env) (path +:+ "/") in
  dirname expanded.

(** The body of [backup]; its [processlog] wrapper only logs and re-raises. *)
Definition backup (env : Env) (self : BackupHandler)
  (backup_target rename_to : option string) : M unit :=
  let backup_target :=
    _get_dirname env (py_format (py_or backup_target (backupdir self))) in
  with_ (Staging.init env Staging.default_tmpdir) Staging.__exit__ (fun stage =>
    stage <- Staging.stage env stage backup_target (includes self) ;;
    stage <- Staging.compress env stage rename_to ;;
    final_path <- Staging.path stage ;;
    name <- Staging.name stage ;;
    Store.upload env (store self) final_path (Some name)).

Definition prune (env : Env) (self : BackupHandler) (retain : Z) : M unit :=
  with_ (Staging.init env Staging.default_tmpdir) Staging.__exit__ (fun stage =>
    Store._prune_bucket env (store self) retain Store.default_patterns).

(** Where [extract] unpacks an archive meant for [directory]. *)
Definition extract_directory (m : gmap (list string) node) (directory : string)
  : string :=
  if negb (Fs.isfile m directory) then dirname directory else directory.

(** [tarfile.open(tarpath)] for reading *)
Definition tarfile_open (tarpath : string) : M (list (list string * option content)) :=
  c <- fs_read tarpath ;;
  match c with
  | TarGz members => ret members
  | Raw _ => raise (ReadError tarpath)
  end.

Definition as_node (o : option content) : node :=
  match o with None => Dir | Some c => File c end.

Definition extract (tarpath directory : string) : M unit :=
  directory <- fs_get (fun m => extract_directory m directory) ;;
  members <- tarfile_open tarpath ;;
  fs_op (EvExtractAll directory)
    (fun m => Fs.put_nodes directory m (Fs.resolve directory)
                (map (fun kv => (kv.1, as_node kv.2)) members)).

(** [tempfile.NamedTemporaryFile()]: an empty file under a fresh name, removed
    when the [with] block is left. *)
Definition NamedTemporaryFile (env : Env) : M string :=
  fs_op (EvWrite (tempfile_name env))
    (fun m => Fs.write_file m (tempfile_name env) (Raw [])) ;;;
  ret (tempfile_name env).

Definition tempfile_close (f_name : string) : M unit :=
  fs_op (EvUnlink f_name) (fun m => Fs.unlink m f_name).

(** The body of [restore]; its [processlog] wrapper only logs and re-raises. *)
Definition restore (env : Env) (self : BackupHandler) (directory : option string)
  : M unit :=
  let directory := _get_dirname env (py_format (py_or directory (backupdir self))) in
  with_ (NamedTemporaryFile env) tempfile_close (fun f_name =>
    let dirname := dirname f_name in
    let filename := last_piece (split_sep f_name) in
    Store.download env (store self) Store.LATEST dirname (Some filename) ;;;
    extract f_name directory).

End Handler.

(** ** A [glob] for the examples

    Wildcards [*] and [?] within a path component; names starting with a dot
    are matched only by a component that starts with one. *)

Module Glob.
Import PyStr OsPath.

Fixpoint fnmatch (pat s : string) : bool :=
  match pat with
  | EmptyString => match s with EmptyString => true | _ => false end
  | String "*" pat' =>
      (fix star (s : string) : bool :=
         fnmatch pat' s ||
         match s with
         | EmptyString => false
         | String _ s' => star s'
         end) s
  | String "?" pat' =>
      match s with
      | EmptyString => false
      | String _ s' => fnmatch pat' s'
      end
  | String c pat' =>
      match s with
      | EmptyString => false
      | String d s' => Ascii.eqb c d && fnmatch pat' s'
      end
  end.

Definition has_magic (s : string) : bool := contains "*" s || contains "?" s.

(** [os.listdir] *)
Definition listdir (m : gmap (list string) node) (k : list string) : list string :=
  omap (fun kv => match last kv.1 with
                  | Some n => if decide (Fs.parent kv.1 = k) then Some n else None
                  | None => None
                  end) (map_to_list m).

Definition candidates (m : gmap (list string) node) (dir comp : string) : list string :=
  if has_magic comp then
    List.filter (fun n => fnmatch comp n && (startswith "." comp || negb (startswith "." n)))
                (listdir m (Fs.resolve dir))
  else if present (Fs.node_at m (Fs.resolve (join dir comp))) then [comp]
  else [].

Fixpoint walk (m : gmap (list string) node) (dir : string) (comps : list string)
  : list string :=
  match comps with
  | [] => [dir]
  | c :: rest => flat_map (fun n => walk m (join dir n) rest) (candidates m dir c)
  end.

Definition glob (m : gmap (list string) node) (pathname : string) : list string :=
  walk m (if startswith "/" pathname then "/" else "")
       (List.filter (fun c => negb (String.eqb c "")) (split_sep pathname)).

End Glob.

(** ** Observing a run *)

Module Run.

Definition after {A} (m : M A) (w : World) : World := (m w).1.

Definition outcome {A} (m : M A) (w : World) : exn + A := (m w).2.

(** The calls a run adds to the record. *)
Definition new_events {A} (m : M A) (w : World) : list Event :=
  drop (length (events w)) (events (after m w)).

(** The key lists of the [delete_objects] calls among [evs], in order. *)
Fixpoint delete_calls (evs : list Event) : list (list string) :=
  match evs with
  | [] => []
  | EvDeleteObjects keys :: evs' => keys :: delete_calls evs'
  | _ :: evs' => delete_calls evs'
  end.

(** Every key a run asks the bucket to delete. *)
Definition deletion_set {A} (m : M A) (w : World) : list string :=
  concat (delete_calls (new_events m w)).

(** The calls of a run that change the local disk. *)
Definition is_fs_event (ev : Event) : bool :=
  match ev with
  | EvMakedirs _ | EvRmtree _ | EvWrite _ | EvUnlink _ | EvCopyTree _ _
  | EvCopy2 _ _ | EvExtractAll _ | EvDownloadFile _ _ => true
  | EvListObjects _ | EvUploadFile _ _ | EvDeleteObjects _ => false
  end.

Definition fs_events {A} (m : M A) (w : World) : list Event :=
  List.filter is_fs_event (new_events m w).

(** A computation that never removes or replaces a directory. *)
Definition keeps_dirs {A} (m : M A) : Prop :=
  forall w k, fs w !! k = Some Dir -> fs (after m w) !! k = Some Dir.

(** A filesystem operation that never removes or replaces a directory. *)
Definition op_keeps_dirs
  (f : gmap (list string) node -> exn + gmap (list string) node) : Prop :=
  forall m m' k, f m = inr m' -> m !! k = Some Dir -> m' !! k = Some Dir.

End Run.

(** ** Retention

    [category], [kept], [overflow], [category_call] and [most_recent] follow
    the specification's wording; the other definitions are read off the
    code and serve to state what a run does. *)

Module Retention.

(** The listing a store sees: the objects under its prefix, as metadata. *)
Definition listing (self : BackupStore) (w : World) : list BucketObject :=
  map BucketObject_init (S3.listed (_path self) (bucket w)).

(** As the specification has it: select the objects whose filename contains
    [pattern], then sort that subset most recently modified first. *)
Definition category (pattern : string) (l : list BucketObject) : list BucketObject :=
  PyList.sorted modified true (List.filter (Store.matches pattern) l).

(** The [n] most recent of a category, and everything after them. *)
Definition kept (n : nat) (pattern : string) (l : list BucketObject)
  : list BucketObject := take n (category pattern l).

Definition overflow (n : nat) (pattern : string) (l : list BucketObject)
  : list BucketObject := drop n (category pattern l).

(** The delete call a category gives rise to, if its size exceeds the count
    [n]. *)
Definition category_call (n : nat) (l : list BucketObject) (pattern : string)
  : option (list string) :=
  if decide (n < length (category pattern l))%nat
  then Some (map filename (overflow n pattern l))
  else None.

(** One turn of the loop of [_prune_bucket] over the ordered listing
    [objects]: the keys handed to [delete], if any. *)
Definition loop_call (retain : Z) (objects : list BucketObject) (pattern : string)
  : option (list string) :=
  let objects_by_pattern := List.filter (Store.matches pattern) objects in
  if Z.of_nat (length objects_by_pattern) >? retain
  then Some (map filename (PyList.slice_from retain objects_by_pattern))
  else None.

(** Every delete call of one run of [_prune_bucket] over the listing [l]. *)
Definition prune_calls (retain : Z) (patterns : list string) (l : list BucketObject)
  : list (list string) :=
  match l with
  | [] => []
  | _ => omap (loop_call retain (PyList.sorted modified true l)) patterns
  end.

(** The bucket once the objects named in [keys] are gone. *)
Definition without (keys : list string) (b : list S3Object) : list S3Object :=
  List.filter (fun o => negb (S3.named_in keys o)) b.

(** The world after [delete_objects] was called with each of [calls]. *)
Definition after_calls (calls : list (list string)) (w : World) : World :=
  fold_left (fun w keys => Run.after (S3.delete_objects keys) w) calls w.

(** Whether a listed object survives the deletion of [keys]. *)
Definition survives (keys : list string) (o : BucketObject) : bool :=
  negb (existsb (String.eqb (filename o)) keys).

(** The name [upload] stores the file under. *)
Definition upload_target (localpath : string) (target : option string) : string :=
  match target with
  | Some (String c t) => String c t
  | _ => OsPath.basename (OsPath.normpath localpath)
  end.

(** The most recently modified object of a listing, the later one winning a
    tie, as the specification describes what ["latest"] resolves to. *)
Definition most_recent (l : list BucketObject) : option BucketObject :=
  fold_left (fun best o => match best with
                           | Some b => if modified b <=? modified o then Some o else best
                           | None => Some o
                           end) l None.

(** How a run of [_prune_bucket] ends: only the listing can raise. *)
Definition prune_outcome (env : Env) (l : list BucketObject) : exn + unit :=
  match l with
  | [] => if empty_listing_omits_contents env then inl (KeyError "Contents") else inr tt
  | _ => inr tt
  end.

(** The object [upload] stores for the file contents [c], and the world once
    the transfer has taken place. *)
Definition uploaded_object (env : Env) (self : BackupStore) (localpath : string)
  (target : option string) (c : content) : S3Object :=
  mkS3Object (OsPath.join (_path self) (upload_target localpath target))
             (upload_time env) (upload_etag env) (upload_size env) c.

Definition uploaded_world (env : Env) (self : BackupStore) (localpath : string)
  (target : option string) (c : content) (w : World) : World :=
  mkWorld (fs w)
          (S3.put_object (uploaded_object env self localpath target c) (bucket w))
          (events w ++ [EvUploadFile (OsPath.normpath localpath)
                          (OsPath.join (_path self) (upload_target localpath target))]).

(** The world once the listing call has been recorded. *)
Definition listed_world (self : BackupStore) (w : World) : World :=
  mkWorld (fs w) (bucket w) (events w ++ [EvListObjects (_path self)]).

End Retention.

(** ** Sample worlds *)

Module Sample.

Definition text (s : string) : content := Raw (String.list_byte_of_string s).

Definition env : Env :=
  mkEnv (fun _ => None) Glob.glob 123456789 "/tmp/tmpab12cd"
        200 "etag-new" 42 false false true.

Definition archive (key : string) (t : Z) : S3Object :=
  mkS3Object key t "etag" 10 (TarGz []).

(** Ten archives, one package and one file that is neither. *)
Definition ten_archives : list S3Object :=
  [ archive "host-00.tar.gz" 30; archive "host-01.tar.gz" 10;
    archive "host-02.tar.gz" 50; archive "host-03.tar.gz" 20;
    archive "host-04.tar.gz" 90; archive "host-05.tar.gz" 70;
    archive "host-06.tar.gz" 40; archive "host-07.tar.gz" 100;
    archive "host-08.tar.gz" 60; archive "host-09.tar.gz" 80;
    archive "notes.txt" 1; archive "tool.deb" 5 ].

Definition remote_only (b : list S3Object) : World := mkWorld ∅ b [].

(** A package and two archives, one of which has [deb] in its name too. *)
Definition overlapping : list S3Object :=
  [ archive "app.deb" 20; archive "debian.tar.gz" 10; archive "site.tar.gz" 5 ].


(** Two archives, the one listed last being the older. *)
Definition two_archives : list S3Object :=
  [ mkS3Object "a.tar.gz" 20 "etag-a" 3 (TarGz [(["data"], None)]);
    mkS3Object "b.tar.gz" 10 "etag-b" 3 (TarGz []) ].

Definition plain_store : BackupStore := Store.init "backups" None None None.

Definition zero_store : BackupStore := Store.init "backups" None None (Some 0).

(** A disk with a directory to back up and a temporary directory. *)
Definition disk : gmap (list string) node :=
  list_to_map
    [ (["tmp"], Dir); (["home"], Dir); (["home"; "u"], Dir);
      (["home"; "u"; "data"], Dir);
      (["home"; "u"; "data"; "a.txt"], File (text "hello"));
      (["home"; "u"; "data"; "sub"], Dir);
      (["home"; "u"; "data"; "sub"; "b.txt"], File (text "world")) ].

Definition handler : BackupHandler :=
  mkBackupHandler plain_store (Some "/home/u/data") None.

(** The sample environment with the disk filling up during compression, and
    with the transfer to the bucket failing. *)
Definition env_disk_full : Env :=
  mkEnv (fun _ => None) Glob.glob 123456789 "/tmp/tmpab12cd"
        200 "etag-new" 42 true false true.

Definition env_upload_fails : Env :=
  mkEnv (fun _ => None) Glob.glob 123456789 "/tmp/tmpab12cd"
        200 "etag-new" 42 false true true.

Definition local_only : World := mkWorld disk [] [].


End Sample.

(** ** Properties a computation keeps *)

Module Keeps.

(** [m] keeps [P]: from a world where [P] holds it ends in one where it
    holds, however it ends. *)
Definition invariant {A} (P : World -> Prop) (m : M A) : Prop :=
  forall w, P w -> P (Run.after m w).

(** The bucket is the given one. *)
Definition bucket_is (b : list S3Object) (w : World) : Prop := bucket w = b.

(** No two objects of the bucket have the same key. *)
Definition keys_distinct (w : World) : Prop := NoDup (map Key (bucket w)).

(** The path [k] holds a regular file. *)
Definition file_at (k : list string) (w : World) : Prop :=
  Fs.is_file_node (fs w !! k) = true.

(** [P] looks at the bucket only, or at the disk only. *)
Definition bucket_only (P : World -> Prop) : Prop :=
  forall w w', bucket w = bucket w' -> P w -> P w'.

Definition disk_only (P : World -> Prop) : Prop :=
  forall w w', fs w = fs w' -> P w -> P w'.

End Keeps.

(** ** A workspace with a directory staged in it *)

Module Staged.

Definition stage : Staging.t :=
  Staging.mk "/tmp/123456789" (Some true) (Some "/tmp/123456789/data")
             (Some "/tmp/123456789/data") (Some "data").

(** The same once [compress] has run without a name to rename to. *)
Definition compressed : Staging.t :=
  Staging.mk "/tmp/123456789" (Some true) (Some "/tmp/123456789/data")
             (Some "/tmp/123456789/data.tgz") (Some "data").

Definition disk : gmap (list string) node :=
  list_to_map
    [ (["tmp"], Dir); (["tmp"; "123456789"], Dir);
      (["tmp"; "123456789"; "data"], Dir);
      (["tmp"; "123456789"; "data"; "a.txt"], File (Sample.text "hello"));
      (["tmp"; "123456789"; "data"; "sub"], Dir);
      (["tmp"; "123456789"; "data"; "sub"; "b.txt"], File (Sample.text "world"));
      (["srv"], Dir) ].

Definition world : World := mkWorld disk [] [].

End Staged.

(** * Properties *)

Open Scope list_scope.

(** Settle a decidable closed proposition by evaluation. *)
Ltac by_evaluation :=
  match goal with
  | |- ?P => apply (bool_decide_unpack P); vm_compute; exact I
  end.

(** ** Path and string helpers on concrete inputs *)

Module PathExamples.
Import PyStr OsPath.

Example join_tmp : join "/tmp/" "123456789" = "/tmp/123456789".
Proof. reflexivity. Qed.

Example join_plain : join "/tmp/123" "data" = "/tmp/123/data".
Proof. reflexivity. Qed.

Example join_absolute : join "/tmp" "/etc/passwd" = "/etc/passwd".
Proof. reflexivity. Qed.

Example dirname_trailing : dirname "/home/u/data/" = "/home/u/data".
Proof. reflexivity. Qed.

Example dirname_plain : dirname "/home/u/data" = "/home/u".
Proof. reflexivity. Qed.

Example dirname_root : dirname "//" = "//".
Proof. reflexivity. Qed.

Example dirname_relative : dirname "data" = "".
Proof. reflexivity. Qed.

Example normpath_dots : normpath "/a//b/./c/../d/" = "/a/b/d".
Proof. reflexivity. Qed.

Example normpath_up : normpath "../x/.." = "..".
Proof. reflexivity. Qed.

Example split_on_nested : split_on "/a" "/a/b/a/c" = Some [""; "/b"; "/c"].
Proof. reflexivity. Qed.

Example split_on_overlap : split_on "aa" "aaa" = Some [""; "a"].
Proof. reflexivity. Qed.

Example contains_targz : contains "tar.gz" "logs.tar.gz" = true.
Proof. reflexivity. Qed.

Example contains_not : contains "deb" "logs.tar.gz" = false.
Proof. reflexivity. Qed.

Example expanduser_home :
  expanduser (fun n => if String.eqb n "" then Some "/home/u/" else None) "~/data/"
  = "/home/u/data/".
Proof. reflexivity. Qed.

End PathExamples.

(** ** Stable sorting *)

Module SortedFacts.
Import PyList.

Section Insertion.
Context {A : Type} (before : A -> A -> bool).
Hypothesis before_total : forall x y, before x y = false -> before y x = true.
Hypothesis before_trans :
  forall x y z, before x y = true -> before y z = true -> before x z = true.

Local Abbreviation ahead := (PyList.ahead before).
Local Abbreviation ordered_by := (PyList.ordered_by before).

Lemma insert_before_ahead x l : ahead x l -> insert_before before x l = x :: l.
Proof.
  destruct 1 as [|y l Hy _]; simpl; [reflexivity|]. now rewrite Hy.
Qed.

Lemma insert_before_elem x y l :
  In y (insert_before before x l) <-> y = x \/ In y l.
Proof.
  induction l as [|z l IH]; simpl.
  - intuition.
  - destruct (before x z); simpl; rewrite ?IH; intuition.
Qed.

Lemma insert_before_ordered x l :
  ordered_by l -> ordered_by (insert_before before x l).
Proof.
  induction 1 as [|y l Hy Hl IH]; simpl.
  - constructor; [constructor | constructor].
  - destruct (before x y) eqn:Hxy.
    + constructor; [|now constructor].
      constructor; [assumption|].
      eapply Forall_impl; [eassumption|]. intros z Hz. simpl in Hz. eauto.
    + constructor; [|assumption].
      apply List.Forall_forall. intros z Hz.
      apply insert_before_elem in Hz as [->|Hz]; [auto|].
      unfold ahead in Hy. rewrite List.Forall_forall in Hy. auto.
Qed.

Lemma ahead_filter f x l : ahead x l -> ahead x (List.filter f l).
Proof.
  unfold ahead. rewrite !List.Forall_forall. intros H y Hy.
  apply List.filter_In in Hy. apply H, Hy.
Qed.

(** Filtering commutes with insertion into an ordered list. *)
Lemma filter_insert_before f x l :
  ordered_by l ->
  List.filter f (insert_before before x l)
  = if f x then insert_before before x (List.filter f l) else List.filter f l.
Proof.
  induction 1 as [|y l Hy Hl IH]; simpl.
  - now destruct (f x).
  - destruct (before x y) eqn:Hxy.
    + simpl. destruct (f x); [|reflexivity].
      symmetry. apply (insert_before_ahead x (List.filter f (y :: l))).
      apply ahead_filter. constructor; [assumption|].
      eapply Forall_impl; [eassumption|]. simpl. eauto.
    + simpl. rewrite IH. destruct (f y), (f x); simpl; rewrite ?Hxy; reflexivity.
Qed.

End Insertion.

Section ByKey.
Context {A : Type} (key : A -> Z) (reverse : bool).

Local Abbreviation key_before := (PyList.key_before key reverse).

Lemma key_before_total x y : key_before x y = false -> key_before y x = true.
Proof. unfold PyList.key_before. destruct reverse; lia. Qed.

Lemma key_before_trans x y z :
  key_before x y = true -> key_before y z = true -> key_before x z = true.
Proof. unfold PyList.key_before. destruct reverse; lia. Qed.

Lemma sorted_cons x l :
  sorted key reverse (x :: l) = insert_before key_before x (sorted key reverse l).
Proof. reflexivity. Qed.

Lemma sorted_ordered l : PyList.ordered_by key_before (sorted key reverse l).
Proof.
  induction l as [|x l IH].
  - constructor.
  - rewrite sorted_cons.
    exact (insert_before_ordered key_before key_before_total key_before_trans
             x _ IH).
Qed.

Lemma sorted_elem x l : In x (sorted key reverse l) <-> In x l.
Proof.
  induction l as [|y l IH]; [reflexivity|].
  rewrite sorted_cons, insert_before_elem, IH. simpl. intuition.
Qed.

Lemma insert_before_length (b : A -> A -> bool) x l :
  length (insert_before b x l) = S (length l).
Proof.
  induction l as [|y l IH]; simpl; [reflexivity|].
  destruct (b x y); simpl; congruence.
Qed.

Lemma sorted_length l : length (sorted key reverse l) = length l.
Proof.
  induction l as [|x l IH]; [reflexivity|].
  rewrite sorted_cons, insert_before_length. simpl. congruence.
Qed.

(** Python's [sorted] is stable, so selecting before or after sorting gives
    the same list. *)
Lemma filter_sorted f l :
  List.filter f (sorted key reverse l) = sorted key reverse (List.filter f l).
Proof.
  induction l as [|x l IH]; [reflexivity|].
  rewrite sorted_cons.
  rewrite (filter_insert_before key_before key_before_trans f x _
             (sorted_ordered l)).
  rewrite IH. simpl. now destruct (f x).
Qed.

Lemma slice_from_nonneg (i : Z) (l : list A) :
  0 <= i -> slice_from i l = drop (Z.to_nat i) l.
Proof.
  intros Hi. unfold slice_from.
  destruct (i <? 0) eqn:E; [lia | reflexivity].
Qed.

End ByKey.

End SortedFacts.

(** ** What a run of the store's methods does to the world *)

Module StoreFacts.
Import Retention.

Lemma sorted_perm {A} (key : A -> Z) (reverse : bool) (l : list A) :
  Permutation (PyList.sorted key reverse l) l.
Proof.
  induction l as [|x l IH]; [constructor|].
  rewrite SortedFacts.sorted_cons.
  transitivity (x :: PyList.sorted key reverse l); [|now constructor].
  generalize (PyList.sorted key reverse l) as s. clear.
  induction s as [|y s IH]; simpl; [reflexivity|].
  destruct (PyList.key_before key reverse x y); [reflexivity|].
  rewrite IH. apply perm_swap.
Qed.

Lemma list_objects_run env self w :
  Store.list_objects env self w
  = (listed_world self w,
     match listing self w with
     | [] => if empty_listing_omits_contents env
             then inl (KeyError "Contents") else inr (Collection.mk [])
     | l => inr (Collection.mk l)
     end).
Proof.
  unfold Store.list_objects, S3.list_objects, listing, bind, log_event,
    listed_world, unless_none, ret, raise. simpl.
  destruct (S3.listed (_path self) (bucket w)) as [|o objs]; simpl.
  - now destruct (empty_listing_omits_contents env).
  - reflexivity.
Qed.

Lemma after_calls_fs calls w : fs (after_calls calls w) = fs w.
Proof.
  revert w. induction calls as [|k calls IH]; intros w; simpl; [reflexivity|].
  unfold after_calls in IH. now rewrite IH.
Qed.

Lemma after_calls_events calls w :
  events (after_calls calls w) = events w ++ map EvDeleteObjects calls.
Proof.
  revert w. induction calls as [|k calls IH]; intros w; simpl.
  - now rewrite app_nil_r.
  - unfold after_calls in IH. rewrite IH. simpl. now rewrite <- app_assoc.
Qed.

Lemma named_in_app ks1 ks2 o :
  S3.named_in (ks1 ++ ks2) o = S3.named_in ks1 o || S3.named_in ks2 o.
Proof. unfold S3.named_in. apply existsb_app. Qed.

Lemma without_without ks1 ks2 b : without ks2 (without ks1 b) = without (ks1 ++ ks2) b.
Proof.
  unfold without. induction b as [|o b IH]; simpl; [reflexivity|].
  rewrite named_in_app.
  destruct (S3.named_in ks1 o); simpl; rewrite IH; [reflexivity|].
  now destruct (S3.named_in ks2 o).
Qed.

Lemma without_nil b : without [] b = b.
Proof.
  unfold without. induction b as [|o b IH]; [reflexivity|].
  change (o :: List.filter (fun o => negb (S3.named_in [] o)) b = o :: b).
  now rewrite IH.
Qed.

Lemma after_calls_bucket calls w :
  bucket (after_calls calls w) = without (concat calls) (bucket w).
Proof.
  revert w. induction calls as [|k calls IH]; intros w; simpl.
  - now rewrite without_nil.
  - unfold after_calls in IH. rewrite IH. simpl.
    apply without_without.
Qed.

Lemma prune_loop_run self retain objects patterns w :
  for_each patterns (fun pattern =>
    let objects_by_pattern := List.filter (Store.matches pattern) objects in
    if Z.of_nat (length objects_by_pattern) >? retain
    then Store.delete self (Store.OfSequence
                              (PyList.slice_from retain objects_by_pattern))
    else ret tt) w
  = (after_calls (omap (loop_call retain objects) patterns) w, inr tt).
Proof.
  revert w. induction patterns as [|p patterns IH]; intros w; [reflexivity|].
  simpl. unfold bind at 1. unfold loop_call at 1. simpl.
  destruct (Z.of_nat (length (List.filter (Store.matches p) objects)) >? retain).
  - unfold Store.delete, S3.delete_objects at 1. simpl. rewrite IH. reflexivity.
  - unfold ret at 1. rewrite IH. reflexivity.
Qed.

(** [_prune_bucket] lists once, then issues the calls of [prune_calls]. *)
Lemma prune_bucket_run env self retain patterns w :
  Store._prune_bucket env self retain patterns w
  = (after_calls (prune_calls retain patterns (listing self w)) (listed_world self w),
     prune_outcome env (listing self w)).
Proof.
  unfold Store._prune_bucket, bind at 1.
  rewrite list_objects_run.
  destruct (listing self w) as [|o l] eqn:El.
  - simpl. destruct (empty_listing_omits_contents env); reflexivity.
  - unfold Collection.ordered, Collection.len. cbn [Collection.objects].
    rewrite SortedFacts.sorted_length. cbn [length Nat.ltb Nat.leb].
    rewrite prune_loop_run. reflexivity.
Qed.

Lemma prune_bucket_after env self retain patterns w :
  Run.after (Store._prune_bucket env self retain patterns) w
  = after_calls (prune_calls retain patterns (listing self w)) (listed_world self w).
Proof. unfold Run.after. now rewrite prune_bucket_run. Qed.

Lemma delete_calls_app evs1 evs2 :
  Run.delete_calls (evs1 ++ evs2) = Run.delete_calls evs1 ++ Run.delete_calls evs2.
Proof.
  induction evs1 as [|[] evs1 IH]; simpl; rewrite ?IH; reflexivity.
Qed.

Lemma delete_calls_map calls : Run.delete_calls (map EvDeleteObjects calls) = calls.
Proof. induction calls; simpl; congruence. Qed.

Lemma prune_bucket_new_events env self retain patterns w :
  Run.new_events (Store._prune_bucket env self retain patterns) w
  = EvListObjects (_path self)
      :: map EvDeleteObjects (prune_calls retain patterns (listing self w)).
Proof.
  unfold Run.new_events. rewrite prune_bucket_after, after_calls_events.
  unfold listed_world. simpl. rewrite <- app_assoc.
  rewrite drop_app_length. reflexivity.
Qed.

Lemma prune_bucket_delete_calls env self retain patterns w :
  Run.delete_calls (Run.new_events (Store._prune_bucket env self retain patterns) w)
  = prune_calls retain patterns (listing self w).
Proof. rewrite prune_bucket_new_events. simpl. apply delete_calls_map. Qed.

Lemma prune_bucket_bucket env self retain patterns w :
  bucket (Run.after (Store._prune_bucket env self retain patterns) w)
  = without (concat (prune_calls retain patterns (listing self w))) (bucket w).
Proof. rewrite prune_bucket_after, after_calls_bucket. reflexivity. Qed.

Lemma prune_bucket_fs env self retain patterns w :
  fs (Run.after (Store._prune_bucket env self retain patterns) w) = fs w.
Proof. rewrite prune_bucket_after, after_calls_fs. reflexivity. Qed.

(** For a count the loop computes the category's call. *)
Lemma loop_call_category (n : nat) l pattern :
  loop_call (Z.of_nat n) (PyList.sorted modified true l) pattern
  = category_call n l pattern.
Proof.
  unfold loop_call, category_call, overflow, category.
  rewrite SortedFacts.filter_sorted, SortedFacts.slice_from_nonneg by lia.
  rewrite Nat2Z.id.
  destruct (Z.gtb_spec (Z.of_nat (length (PyList.sorted modified true
              (List.filter (Store.matches pattern) l)))) (Z.of_nat n));
    case_decide; (reflexivity || lia).
Qed.

Lemma category_call_nil (n : nat) pattern : category_call n [] pattern = None.
Proof.
  unfold category_call. case_decide as H; [simpl in H; lia | reflexivity].
Qed.

Lemma omap_cons {A B} (f : A -> option B) (x : A) (l : list A) :
  omap f (x :: l) = match f x with Some y => y :: omap f l | None => omap f l end.
Proof. reflexivity. Qed.

Lemma omap_pointwise {A B} (f g : A -> option B) (l : list A) :
  (forall x, f x = g x) -> omap f l = omap g l.
Proof.
  intros H. induction l as [|x l IH]; [reflexivity|].
  now rewrite !omap_cons, H, IH.
Qed.

Lemma prune_calls_category (n : nat) patterns l :
  prune_calls (Z.of_nat n) patterns l = omap (category_call n l) patterns.
Proof.
  destruct l as [|o l].
  - simpl. induction patterns as [|p ps IH]; [reflexivity|].
    now rewrite omap_cons, category_call_nil.
  - unfold prune_calls. apply omap_pointwise. intros p.
    apply loop_call_category.
Qed.

End StoreFacts.

(** ** Retention *)

Module RetentionFacts.
Import Retention StoreFacts.

Lemma NoDup_map_filter {A B} (f : A -> B) (p : A -> bool) (l : list A) :
  NoDup (map f l) -> NoDup (map f (List.filter p l)).
Proof.
  induction l as [|x l IH]; simpl; [trivial|].
  rewrite !NoDup_cons. intros [Hx Hl].
  destruct (p x); simpl; [|auto].
  rewrite NoDup_cons. split; [|auto].
  rewrite list_elem_of_In in *. rewrite in_map_iff in *.
  intros (y & Hy & Hin). apply Hx. exists y. split; [assumption|].
  apply List.filter_In in Hin. tauto.
Qed.

Lemma listing_filenames self w :
  map filename (listing self w) = map Key (S3.listed (_path self) (bucket w)).
Proof. unfold listing. rewrite map_map. reflexivity. Qed.

Lemma listing_NoDup self w :
  NoDup (map Key (bucket w)) -> NoDup (map filename (listing self w)).
Proof. rewrite listing_filenames. apply NoDup_map_filter. Qed.

Lemma category_NoDup pattern l :
  NoDup (map filename l) -> NoDup (map filename (category pattern l)).
Proof.
  intros H. unfold category.
  rewrite sorted_perm. now apply NoDup_map_filter.
Qed.

(** With distinct filenames, no object kept is named in the overflow. *)
Lemma kept_not_in_overflow n pattern l o :
  NoDup (map filename l) ->
  In o (kept n pattern l) ->
  ~ In (filename o) (map filename (overflow n pattern l)).
Proof.
  intros Hnd Ho Hin. apply (category_NoDup pattern) in Hnd.
  rewrite <- (take_drop n (category pattern l)), map_app in Hnd.
  apply NoDup_app in Hnd as (_ & Hdisj & _).
  apply (Hdisj (filename o)); rewrite list_elem_of_In; [|exact Hin].
  now apply in_map.
Qed.

Lemma category_elem pattern l o :
  In o (category pattern l) <-> In o l /\ Store.matches pattern o = true.
Proof. unfold category. rewrite SortedFacts.sorted_elem. apply List.filter_In. Qed.

End RetentionFacts.

(** C3 (as stated, refuted).  The bucket holds [app.deb], [debian.tar.gz] and
    [site.tar.gz], from the most to the least recently modified, and the
    count is 1.  Among the objects whose filename contains [tar.gz], the
    most recent is [debian.tar.gz] and the overflow is [site.tar.gz]; yet
    [debian.tar.gz] also contains [deb] and is the overflow of that
    category, so the run deletes both and does not keep the most recent
    [tar.gz] object. *)
Lemma prune_drops_recent_of_overlapping_category :
  let w := Sample.remote_only Sample.overlapping in
  let l := Retention.listing Sample.plain_store w in
  let run := Store._prune_bucket Sample.env Sample.plain_store 1 Store.default_patterns in
  map filename (Retention.kept 1 "tar.gz" l) = ["debian.tar.gz"]
  /\ map filename (Retention.overflow 1 "tar.gz" l) = ["site.tar.gz"]
  /\ Run.deletion_set run w = ["debian.tar.gz"; "site.tar.gz"]
  /\ map Key (bucket (Run.after run w)) = ["app.deb"]
  /\ ~ In (Sample.archive "debian.tar.gz" 10) (bucket (Run.after run w)).
Proof.
  split; [vm_compute; reflexivity|]. split; [vm_compute; reflexivity|].
  split; [vm_compute; reflexivity|]. split; [vm_compute; reflexivity|].
  intros H. vm_compute in H. destruct H as [H | H]; [discriminate | exact H].
Qed.

(** C3 (amended).  For every listing, every count and every category pattern
    that [_prune_bucket] goes through: take the objects whose filename
    contains the pattern and sort them most recently modified first; if
    there are more of them than the count, the run issues for that category
    one delete call naming exactly the entries after the first [retain], and
    no call otherwise.  These calls, in the order of the patterns, are all
    the run deletes; the bucket loses exactly the objects they name; and
    (keys being distinct) none of the [retain] most recent of a category is
    named in that category's own call, so it stays unless the call of
    another category names it. *)
Theorem prune_deletes_category_overflow
  (env : Env) (self : BackupStore) (w : World) (retain : nat) (patterns : list string) :
  NoDup (map Key (bucket w)) ->
  let l := Retention.listing self w in
  let run := Store._prune_bucket env self (Z.of_nat retain) patterns in
  Run.delete_calls (Run.new_events run w)
    = omap (Retention.category_call retain l) patterns
  /\ bucket (Run.after run w)
     = Retention.without (concat (omap (Retention.category_call retain l) patterns))
                         (bucket w)
  /\ forall pattern o,
       In o (Retention.kept retain pattern l) ->
       ~ In (filename o) (map filename (Retention.overflow retain pattern l)).
Proof.
  intros Hnd l run. subst l run.
  rewrite StoreFacts.prune_bucket_delete_calls, StoreFacts.prune_bucket_bucket.
  rewrite StoreFacts.prune_calls_category.
  repeat split.
  intros pattern o. apply RetentionFacts.kept_not_in_overflow.
  now apply RetentionFacts.listing_NoDup.
Qed.

Lemma prune_deletes_category_overflow_witness :
  let w := Sample.remote_only Sample.ten_archives in
  let l := Retention.listing Sample.plain_store w in
  NoDup (map Key (bucket w))
  /\ Run.delete_calls
       (Run.new_events (Store._prune_bucket Sample.env Sample.plain_store 5
                          Store.default_patterns) w)
     = omap (Retention.category_call 5 l) Store.default_patterns
  /\ omap (Retention.category_call 5 l) Store.default_patterns
     = [["host-02.tar.gz"; "host-06.tar.gz"; "host-00.tar.gz";
         "host-03.tar.gz"; "host-01.tar.gz"]].
Proof.
  assert (H1 : NoDup (map Key (bucket (Sample.remote_only Sample.ten_archives)))).
  { by_evaluation. }
  split; [exact H1|]. split.
  - exact (proj1 (prune_deletes_category_overflow Sample.env Sample.plain_store
                    (Sample.remote_only Sample.ten_archives) 5%nat
                    Store.default_patterns H1)).
  - vm_compute. reflexivity.
Defined.

Module PruneFacts.
Import Retention StoreFacts.

Lemma slice_from_elem {A} (i : Z) (l : list A) (x : A) :
  In x (PyList.slice_from i l) -> In x l.
Proof.
  unfold PyList.slice_from. rewrite <- !list_elem_of_In.
  apply subseteq_drop.
Qed.

(** A key handed to [delete] by a turn of the loop is the filename of an
    object that matches the turn's pattern. *)
Lemma loop_call_elem retain objects pattern keys k :
  loop_call retain objects pattern = Some keys ->
  In k keys ->
  exists o, In o objects /\ Store.matches pattern o = true /\ filename o = k.
Proof.
  unfold loop_call.
  destruct (_ >? _); [|discriminate]. intros [= <-] Hk.
  apply in_map_iff in Hk as (o & <- & Ho).
  apply slice_from_elem, List.filter_In in Ho. exists o. tauto.
Qed.

Lemma omap_elem {A B} (f : A -> option B) (l : list A) (y : B) :
  In y (omap f l) <-> exists x, In x l /\ f x = Some y.
Proof.
  rewrite <- list_elem_of_In, list_elem_of_omap.
  split; intros (x & Hx & Hf); exists x; rewrite list_elem_of_In in *; auto.
Qed.

(** Every key a run deletes names a listed object that matches one of the
    run's patterns. *)
Lemma prune_calls_elem retain patterns l k :
  In k (concat (prune_calls retain patterns l)) ->
  exists p o, In p patterns /\ In o l /\ Store.matches p o = true /\ filename o = k.
Proof.
  intros Hk. apply in_concat in Hk as (keys & Hkeys & Hk).
  destruct l as [|o0 l]; [contradiction|].
  unfold prune_calls in Hkeys.
  apply omap_elem in Hkeys as (p & Hp & Hcall).
  destruct (loop_call_elem _ _ _ _ _ Hcall Hk) as (o & Ho & Hm & Hf).
  exists p, o. rewrite SortedFacts.sorted_elem in Ho. auto.
Qed.

Lemma prune_deletion_set env self retain patterns w :
  Run.deletion_set (Store._prune_bucket env self retain patterns) w
  = concat (prune_calls retain patterns (listing self w)).
Proof. unfold Run.deletion_set. now rewrite prune_bucket_delete_calls. Qed.

Lemma named_in_spec keys o : S3.named_in keys o = true <-> In (Key o) keys.
Proof.
  unfold S3.named_in. rewrite existsb_exists. split.
  - intros (k & Hk & E). apply String.eqb_eq in E. now subst.
  - intros H. exists (Key o). split; [assumption | apply String.eqb_refl].
Qed.

Lemma without_elem keys b o :
  In o (without keys b) <-> In o b /\ ~ In (Key o) keys.
Proof.
  unfold without. rewrite List.filter_In, negb_true_iff.
  rewrite <- named_in_spec. destruct (S3.named_in keys o); intuition congruence.
Qed.



End PruneFacts.



Module IdempotenceFacts.
Import Retention StoreFacts PruneFacts.

Lemma filter_filter_swap {A} (f g : A -> bool) (l : list A) :
  List.filter f (List.filter g l) = List.filter g (List.filter f l).
Proof.
  induction l as [|x l IH]; [reflexivity|]. simpl.
  destruct (f x) eqn:Ef, (g x) eqn:Eg; simpl; rewrite ?Ef, ?Eg, IH; reflexivity.
Qed.

Lemma listing_without self keys w b :
  bucket w = without keys b ->
  listing self w
  = List.filter (survives keys) (map BucketObject_init (S3.listed (_path self) b)).
Proof.
  intros E. unfold listing, S3.listed, without in *. rewrite E.
  rewrite filter_filter_swap.
  generalize (List.filter (fun o => PyStr.startswith (_path self) (Key o)) b) as l.
  induction l as [|o l IH]; [reflexivity|]. simpl.
  unfold survives at 1, S3.named_in at 1. simpl.
  destruct (existsb _ keys); simpl; now rewrite IH.
Qed.








End IdempotenceFacts.


(** The sample bucket: the first run deletes the five oldest archives, the
    second nothing. *)
Example prune_twice_on_ten_archives :
  let run := Store._prune_bucket Sample.env Sample.plain_store 5 Store.default_patterns in
  let w := Sample.remote_only Sample.ten_archives in
  Run.deletion_set run w
    = ["host-02.tar.gz"; "host-06.tar.gz"; "host-00.tar.gz";
       "host-03.tar.gz"; "host-01.tar.gz"]
  /\ Run.deletion_set run (Run.after run w) = [].
Proof. vm_compute. split; reflexivity. Qed.

(** A negative number is not a count: Python's [l[-1:]] is the last element,
    and each run then deletes the oldest object of every category. *)
Example prune_with_negative_number :
  let run := Store._prune_bucket Sample.env Sample.plain_store (-1) Store.default_patterns in
  let w := Sample.remote_only Sample.ten_archives in
  Run.deletion_set run w = ["tool.deb"; "host-01.tar.gz"]
  /\ Run.deletion_set run (Run.after run w) = ["host-03.tar.gz"].
Proof. vm_compute. split; reflexivity. Qed.

Module UploadFacts.
Import Retention StoreFacts PruneFacts.

Lemma bind_ret_tt (m : M unit) (w : World) : bind m (fun _ => ret tt) w = m w.
Proof. unfold bind, ret. destruct (m w) as [w1 [e|[]]]; reflexivity. Qed.

(** The transfer records itself, and only when it went through. *)
Lemma upload_file_new_events env path key w :
  Run.new_events (S3.upload_file env path key) w = []
  \/ Run.new_events (S3.upload_file env path key) w = [EvUploadFile path key].
Proof.
  unfold Run.new_events, Run.after, S3.upload_file, bind, fs_read, raise.
  destruct (Fs.read_file (fs w) path) as [e|c]; simpl.
  - left. apply drop_all.
  - destruct (upload_fails env); simpl.
    + left. apply drop_all.
    + right. now rewrite drop_app_length.
Qed.

(** Without a truthy count [upload] is the transfer alone. *)
Lemma upload_unpruned env self localpath target w :
  Store.retain_truthy (_retain self) = None ->
  Store.upload env self localpath target w
  = S3.upload_file env (OsPath.normpath localpath)
      (OsPath.join (_path self) (Retention.upload_target localpath target)) w.
Proof.
  intros H. unfold Store.upload. rewrite H. apply bind_ret_tt.
Qed.

(** With a count of zero every listed object that matches a pattern is named
    in a delete call. *)
Lemma prune_zero_names_matching patterns l p o :
  In p patterns -> In o l -> Store.matches p o = true ->
  In (filename o) (concat (prune_calls 0 patterns l)).
Proof.
  intros Hp Ho Hm. change 0 with (Z.of_nat 0). rewrite prune_calls_category.
  assert (HC : In o (category p l)) by now apply RetentionFacts.category_elem.
  apply in_concat. exists (map filename (category p l)). split.
  - apply omap_elem. exists p. split; [assumption|].
    unfold category_call, overflow. case_decide as Hlen.
    + reflexivity.
    + destruct (category p l); [contradiction | simpl in Hlen; lia].
  - now apply in_map.
Qed.

End UploadFacts.

(** C10.  For every store whose configured retain count is 0, [upload] does
    the transfer and nothing else: it lists nothing and deletes nothing, the
    pruning step being taken only for a truthy count.  A direct call of
    [_prune_bucket] with count 0, on the other hand, names in a delete call
    every listed object whose key contains one of the patterns, and none of
    them is left in the bucket. *)
Theorem upload_with_zero_retain_skips_pruning
  (env : Env) (self : BackupStore) (w : World) (localpath : string)
  (target : option string) :
  _retain self = Some 0 ->
  Store.upload env self localpath target w
    = S3.upload_file env (OsPath.normpath localpath)
        (OsPath.join (_path self) (Retention.upload_target localpath target)) w
  /\ Run.deletion_set (Store.upload env self localpath target) w = []
  /\ ~ In (EvListObjects (_path self))
          (Run.new_events (Store.upload env self localpath target) w)
  /\ forall patterns p o,
       In p patterns ->
       In o (S3.listed (_path self) (bucket w)) ->
       PyStr.contains p (Key o) = true ->
       In (Key o) (Run.deletion_set (Store._prune_bucket env self 0 patterns) w)
       /\ ~ In o (bucket (Run.after (Store._prune_bucket env self 0 patterns) w)).
Proof.
  intros Hretain.
  pose proof (UploadFacts.upload_unpruned env self localpath target w) as Hrun.
  unfold Store.retain_truthy in Hrun. rewrite Hretain in Hrun.
  specialize (Hrun eq_refl).
  assert (Hev : Run.new_events (Store.upload env self localpath target) w = []
                \/ exists path key,
                     Run.new_events (Store.upload env self localpath target) w
                     = [EvUploadFile path key]).
  { unfold Run.new_events, Run.after. rewrite Hrun.
    destruct (UploadFacts.upload_file_new_events env (OsPath.normpath localpath)
               (OsPath.join (_path self) (Retention.upload_target localpath target)) w)
      as [E | E]; unfold Run.new_events, Run.after in E; rewrite E; eauto. }
  split; [exact Hrun|]. split; [|split].
  - unfold Run.deletion_set. destruct Hev as [-> | (path & key & ->)]; reflexivity.
  - destruct Hev as [-> | (path & key & ->)]; simpl;
      [tauto | intros [H|H]; (discriminate || contradiction)].
  - intros patterns p o Hp Ho Hm.
    assert (Hin : In (Key o)
              (concat (Retention.prune_calls 0 patterns (Retention.listing self w)))).
    { apply (UploadFacts.prune_zero_names_matching patterns _ p (BucketObject_init o));
        [assumption | | exact Hm].
      unfold Retention.listing. now apply in_map. }
    rewrite PruneFacts.prune_deletion_set, StoreFacts.prune_bucket_bucket.
    split; [exact Hin|].
    rewrite PruneFacts.without_elem. tauto.
Qed.

Lemma upload_with_zero_retain_skips_pruning_witness :
  let w := mkWorld Sample.disk Sample.ten_archives [] in
  _retain Sample.zero_store = Some 0
  /\ Run.deletion_set
       (Store.upload Sample.env Sample.zero_store "/home/u/data/a.txt" None) w = []
  /\ length (bucket (Run.after
       (Store.upload Sample.env Sample.zero_store "/home/u/data/a.txt" None) w)) = 13%nat
  /\ length (bucket (Run.after
       (Store._prune_bucket Sample.env Sample.zero_store 0 Store.default_patterns) w))
     = 1%nat.
Proof.
  assert (H0 : _retain Sample.zero_store = Some 0) by reflexivity.
  split; [exact H0|]. split.
  - exact (proj1 (proj2 (upload_with_zero_retain_skips_pruning Sample.env
                           Sample.zero_store (mkWorld Sample.disk Sample.ten_archives [])
                           "/home/u/data/a.txt" None H0))).
  - split; vm_compute; reflexivity.
Defined.

(** ** Download *)

Module DownloadFacts.
Import Retention StoreFacts.

(** What ["backups.latest"] resolves to: the filename listed last. *)
Lemma download_latest_run env self localpath as_filename w :
  Store.download env self Store.LATEST localpath as_filename w
  = match last (map filename (listing self w)) with
    | None =>
        (listed_world self w,
         inl (if empty_listing_omits_contents env then KeyError "Contents"
              else EnvironmentError "Error: Bucket appears to be empty"))
    | Some name =>
        (S3.download_file name (OsPath.join localpath name) ;;;
         ret (OsPath.join localpath name)) (listed_world self w)
    end.
Proof.
  unfold Store.download. rewrite String.eqb_refl.
  unfold bind, try_except. rewrite list_objects_run.
  destruct (listing self w) as [|o l] eqn:El.
  - simpl. destruct (empty_listing_omits_contents env); reflexivity.
  - unfold Collection.filenames. cbn [Collection.objects].
    destruct (last (map filename (o :: l))) as [name|] eqn:Elast.
    + reflexivity.
    + apply last_None in Elast. discriminate.
Qed.

Lemma new_events_unchanged {A} (m : M A) (w : World) :
  events (Run.after m w) = events w -> Run.new_events m w = [].
Proof. intros E. unfold Run.new_events. rewrite E. apply drop_all. Qed.


End DownloadFacts.



(** When the response to the listing has no ["Contents"] entry, the lookup
    in [list_objects] raises [KeyError], which [download] does not handle;
    the disk is not written either. *)
Lemma download_latest_missing_contents
  (env : Env) (self : BackupStore) (w : World) (localpath : string)
  (as_filename : option string) :
  Retention.listing self w = [] ->
  empty_listing_omits_contents env = true ->
  Store.download env self Store.LATEST localpath as_filename w
  = (Retention.listed_world self w, inl (KeyError "Contents")).
Proof.
  intros El Hom. rewrite DownloadFacts.download_latest_run, El, Hom. reflexivity.
Qed.

(** C2 (the code at an input where the claim fails).  The bucket lists
    ["a.tar.gz"], modified at 20, before ["b.tar.gz"], modified at 10.  The
    most recently modified object is ["a.tar.gz"], yet [download] with the
    ["backups.latest"] sentinel takes the filename listed last: it fetches
    ["b.tar.gz"] into ["/tmp/b.tar.gz"] and leaves ["a.tar.gz"] alone. *)
Theorem download_latest_takes_last_listed :
  let w := mkWorld Sample.disk Sample.two_archives [] in
  let run := Store.download Sample.env Sample.plain_store Store.LATEST "/tmp" None in
  (filename <$> Retention.most_recent (Retention.listing Sample.plain_store w))
    = Some "a.tar.gz"
  /\ Run.outcome run w = inr "/tmp/b.tar.gz"
  /\ Run.new_events run w
     = [EvListObjects ""; EvDownloadFile "b.tar.gz" "/tmp/b.tar.gz"]
  /\ fs (Run.after run w) !! ["tmp"; "b.tar.gz"] = Some (File (TarGz []))
  /\ fs (Run.after run w) !! ["tmp"; "a.tar.gz"] = None.
Proof. vm_compute. repeat split. Qed.

(** ** The filesystem *)

Module FsFacts.
Import Fs.

Lemma mkdir_step_keeps m a k n : m !! k = Some n -> mkdir_step m a !! k = Some n.
Proof.
  intros H. unfold mkdir_step. destruct (m !! a) eqn:Ea; [assumption|].
  rewrite lookup_insert_ne; [assumption|]. congruence.
Qed.

Lemma mkdir_step_other m a k : a <> k -> mkdir_step m a !! k = m !! k.
Proof.
  intros H. unfold mkdir_step. destruct (m !! a); [reflexivity|].
  now rewrite lookup_insert_ne.
Qed.

Lemma mkdir_step_self m a : is_Some (mkdir_step m a !! a).
Proof.
  unfold mkdir_step. destruct (m !! a) eqn:Ea; [eauto|].
  rewrite lookup_insert_eq. eauto.
Qed.

Lemma mkdir_step_origin m a k n :
  mkdir_step m a !! k = Some n -> m !! k = Some n \/ (m !! k = None /\ n = Dir).
Proof.
  unfold mkdir_step. destruct (m !! a) eqn:Ea; [auto|].
  destruct (decide (a = k)) as [->|Hne].
  - rewrite lookup_insert_eq. intros [= <-]. auto.
  - rewrite lookup_insert_ne by assumption. auto.
Qed.

Lemma mkdirs_keeps l m k n :
  m !! k = Some n -> fold_left mkdir_step l m !! k = Some n.
Proof.
  revert m. induction l as [|a l IH]; intros m H; [assumption|].
  simpl. apply IH. now apply mkdir_step_keeps.
Qed.

Lemma mkdirs_other l m k :
  ~ In k l -> fold_left mkdir_step l m !! k = m !! k.
Proof.
  revert m. induction l as [|a l IH]; intros m H; [reflexivity|].
  simpl. rewrite IH by (intros Hin; apply H; now right).
  apply mkdir_step_other. intros ->. apply H. now left.
Qed.

Lemma mkdirs_origin l m k n :
  fold_left mkdir_step l m !! k = Some n ->
  m !! k = Some n \/ (m !! k = None /\ n = Dir).
Proof.
  revert m. induction l as [|a l IH]; intros m H; [auto|].
  simpl in H. apply IH in H as [H | [H ->]].
  - exact (mkdir_step_origin _ _ _ _ H).
  - right. split; [|reflexivity].
    destruct (m !! k) eqn:E; [|reflexivity].
    erewrite mkdir_step_keeps in H by eassumption. discriminate.
Qed.

Lemma mkdirs_present l m k : In k l -> is_Some (fold_left mkdir_step l m !! k).
Proof.
  revert m. induction l as [|a l IH]; intros m; [contradiction|].
  intros [-> | Hin]; simpl; [|auto].
  destruct (mkdir_step_self m k) as [n Hn].
  exists n. now apply mkdirs_keeps.
Qed.

Lemma prefixes_snoc k : k <> [] -> prefixes k = prefixes (parent k) ++ [k].
Proof.
  unfold parent. induction k as [|c k IH]; [congruence|]. intros _.
  destruct k as [|c' k]; [reflexivity|].
  change (removelast (c :: c' :: k)) with (c :: removelast (c' :: k)).
  change (prefixes (c :: c' :: k)) with ([c] :: map (cons c) (prefixes (c' :: k))).
  rewrite IH by congruence.
  rewrite map_app. reflexivity.
Qed.

Lemma prefixes_elem a k : In a (prefixes k) -> a `prefix_of` k /\ a <> [].
Proof.
  revert a. induction k as [|c k IH]; intros a; [contradiction|].
  simpl. intros [<- | Hin].
  - split; [|congruence]. now exists k.
  - apply in_map_iff in Hin as (a' & <- & Ha').
    destruct (IH _ Ha') as [Hp _]. split; [|congruence].
    now apply prefix_cons.
Qed.

Lemma parent_shorter k : k <> [] -> (length (parent k) < length k)%nat.
Proof.
  intros H. unfold parent.
  destruct (@exists_last _ k H) as (k' & x & ->).
  rewrite removelast_last, length_app. simpl. lia.
Qed.

Lemma self_not_above k : ~ In k (prefixes (parent k)).
Proof.
  destruct k as [|c k]; [tauto|].
  intros Hin. apply prefixes_elem in Hin as [Hp _].
  apply prefix_length in Hp.
  assert (Hne : c :: k <> []) by congruence.
  pose proof (parent_shorter _ Hne). lia.
Qed.

Lemma mkdir_p_keeps m k' k n : m !! k = Some n -> mkdir_p m k' !! k = Some n.
Proof. apply mkdirs_keeps. Qed.

(** A fresh path is a directory once [mkdir_p] has run. *)
Lemma mkdir_p_self m k : k <> [] -> m !! k = None -> mkdir_p m k !! k = Some Dir.
Proof.
  intros Hk Hnone. unfold mkdir_p.
  destruct (mkdirs_present (prefixes k) m k) as [n Hn].
  { rewrite prefixes_snoc by assumption. apply in_or_app. right. now left. }
  rewrite Hn. apply mkdirs_origin in Hn as [Hn | [_ ->]]; [congruence | reflexivity].
Qed.

(** With every directory above in place, [mkdir_p] adds the one node. *)
Lemma mkdir_p_leaf m k :
  k <> [] -> m !! k = None ->
  (forall a, In a (prefixes (parent k)) -> is_Some (m !! a)) ->
  mkdir_p m k = <[k := Dir]> m.
Proof.
  intros Hk Hnone Habove. unfold mkdir_p.
  rewrite prefixes_snoc, fold_left_app by assumption.
  assert (E : fold_left mkdir_step (prefixes (parent k)) m = m).
  { revert Habove. generalize (prefixes (parent k)) as l.
    induction l as [|a l IH]; intros H; [reflexivity|]. simpl.
    destruct (H a) as [n Hn]; [now left|].
    unfold mkdir_step at 2. rewrite Hn. apply IH. intros b Hb. apply H. now right. }
  rewrite E. simpl. unfold mkdir_step. now rewrite Hnone.
Qed.

(** Nothing is left at or below a removed tree. *)
Lemma rmtree_gone (m : gmap (list string) node) k k' :
  k `prefix_of` k' -> filter (outside k) m !! k' = None.
Proof.
  intros Hp. apply map_lookup_filter_None. right.
  intros n _ Hout. now apply Hout.
Qed.

Lemma rmtree_elsewhere (m : gmap (list string) node) k k' :
  ~ k `prefix_of` k' -> filter (outside k) m !! k' = m !! k'.
Proof.
  intros Hp. destruct (m !! k') as [n|] eqn:E.
  - apply map_lookup_filter_Some. split; [assumption | exact Hp].
  - apply map_lookup_filter_None. now left.
Qed.

Lemma subtree_nil m k k' :
  subtree m k = [] -> k `prefix_of` k' -> m !! k' = None.
Proof.
  intros Hs Hp. destruct (m !! k') as [n|] eqn:E; [exfalso | reflexivity].
  apply elem_of_map_to_list in E.
  assert (Hin : (drop (length k) k', n) ∈ subtree m k).
  { unfold subtree. apply list_elem_of_omap. exists (k', n). split; [assumption|].
    simpl. now rewrite decide_True. }
  rewrite Hs in Hin. now apply not_elem_of_nil in Hin.
Qed.

(** Making a fresh directory and removing it again leaves the disk as it
    was. *)
Lemma rmtree_after_mkdir (m : gmap (list string) node) k :
  subtree m k = [] -> filter (outside k) (<[k := Dir]> m) = m.
Proof.
  intros Hs. apply map_eq. intros i.
  destruct (decide (k `prefix_of` i)) as [Hp | Hp].
  - rewrite rmtree_gone by assumption. symmetry. now apply (subtree_nil m k).
  - rewrite rmtree_elsewhere by assumption.
    apply lookup_insert_ne. intros ->. now apply Hp.
Qed.

Lemma node_at_nonroot (m : gmap (list string) node) k :
  k <> [] -> node_at m k = m !! k.
Proof. destruct k; [congruence | reflexivity]. Qed.

Lemma rmtree_dir (m : gmap (list string) node) p :
  resolve p <> [] -> m !! resolve p = Some Dir ->
  rmtree m p = inr (filter (outside (resolve p)) m).
Proof.
  intros Hk Hd. unfold rmtree. cbv zeta.
  remember (resolve p) as k eqn:Ek.
  destruct k; [congruence|]. now rewrite Hd.
Qed.

End FsFacts.

(** ** The orchestrator's [prune] *)

Module HandlerPruneFacts.
Import Retention StoreFacts FsFacts.

Section Fresh.
Variables (env : Env) (w : World).
Local Abbreviation ws := (Staging.workspace env).
Hypothesis ws_named : Fs.resolve ws <> [].
Hypothesis ws_fresh : Fs.subtree (fs w) (Fs.resolve ws) = [].
Hypothesis ws_above :
  forall a, In a (Fs.prefixes (Fs.parent (Fs.resolve ws))) -> fs w !! a = Some Dir.

Lemma ws_absent : fs w !! Fs.resolve ws = None.
Proof. now apply (subtree_nil _ (Fs.resolve ws)). Qed.

Lemma no_file_above_ws : Fs.no_file_above (fs w) (Fs.resolve ws) = true.
Proof.
  unfold Fs.no_file_above. apply forallb_forall. intros a Ha.
  now rewrite (ws_above a Ha).
Qed.

(** The constructor makes the one directory. *)
Lemma init_run :
  Staging.init env Staging.default_tmpdir w
  = (mkWorld (<[Fs.resolve ws := Dir]> (fs w)) (bucket w) (events w ++ [EvMakedirs ws]),
     inr (Staging.mk ws None None None None)).
Proof.
  unfold Staging.init, Staging._initialize, bind, fs_op, ret, Fs.makedirs.
  fold (Staging.workspace env). fold ws.
  rewrite node_at_nonroot, ws_absent, no_file_above_ws by assumption.
  rewrite mkdir_p_leaf; [reflexivity | assumption | apply ws_absent |].
  intros a Ha. rewrite (ws_above a Ha). eauto.
Qed.

(** Leaving the block removes it; a disk that differs from the one at entry
    only in the workspace node is back where it was. *)
Lemma exit_run b evs :
  Staging.__exit__ (Staging.mk ws None None None None)
    (mkWorld (<[Fs.resolve ws := Dir]> (fs w)) b evs)
  = (mkWorld (fs w) b (evs ++ [EvRmtree ws]), inr tt).
Proof.
  unfold Staging.__exit__, fs_op. simpl.
  rewrite rmtree_dir by (assumption || apply lookup_insert_eq).
  now rewrite rmtree_after_mkdir.
Qed.

Lemma handler_prune_run self retain :
  Handler.prune env self retain w
  = (mkWorld (fs w)
       (without (concat (prune_calls retain Store.default_patterns
                           (listing (store self) w))) (bucket w))
       (events w
        ++ EvMakedirs ws :: EvListObjects (_path (store self))
           :: map EvDeleteObjects (prune_calls retain Store.default_patterns
                                     (listing (store self) w))
        ++ [EvRmtree ws]),
     prune_outcome env (listing (store self) w)).
Proof.
  unfold Handler.prune, with_. rewrite init_run, prune_bucket_run.
  set (w1 := mkWorld _ _ _).
  assert (El : listing (store self) w1 = listing (store self) w) by reflexivity.
  rewrite El.
  set (calls := prune_calls retain Store.default_patterns (listing (store self) w)).
  assert (Ew : after_calls calls (listed_world (store self) w1)
               = mkWorld (<[Fs.resolve ws := Dir]> (fs w))
                   (without (concat calls) (bucket w))
                   ((events w ++ [EvMakedirs ws; EvListObjects (_path (store self))])
                    ++ map EvDeleteObjects calls)).
  { pose proof (after_calls_fs calls (listed_world (store self) w1)) as Hf.
    pose proof (after_calls_bucket calls (listed_world (store self) w1)) as Hb.
    pose proof (after_calls_events calls (listed_world (store self) w1)) as He.
    destruct (after_calls calls (listed_world (store self) w1)) as [f b e].
    simpl in *. subst f b e. f_equal.
    now rewrite <- (app_assoc (events w)). }
  rewrite Ew, exit_run. f_equal. f_equal.
  rewrite <- !app_assoc. reflexivity.
Qed.

End Fresh.

Lemma fs_events_delete_calls calls :
  List.filter Run.is_fs_event (map EvDeleteObjects calls) = [].
Proof. induction calls as [|c calls IH]; [reflexivity | exact IH]. Qed.

End HandlerPruneFacts.

(** C9 (as stated, refuted).  On a disk with [/tmp] and a bucket of twelve
    objects, the orchestrator's [prune] does open a staging workspace: it
    makes the directory [/tmp/123456789] and removes it again, so its record
    of calls that change the local disk is not empty. *)
Lemma prune_creates_workspace_directory :
  let w := mkWorld Sample.disk Sample.ten_archives [] in
  Run.fs_events (Handler.prune Sample.env Sample.handler 5) w
    = [EvMakedirs "/tmp/123456789"; EvRmtree "/tmp/123456789"]
  /\ Run.fs_events (Handler.prune Sample.env Sample.handler 5) w <> [].
Proof. vm_compute. split; [reflexivity | discriminate]. Qed.

(** C9 (amended).  For every [prune] call on the orchestrator whose workspace
    path is free and sits under existing directories: the call creates the
    staging workspace directory, delegates to the store's pruning policy
    inside it, and removes the workspace on the way out.  These two are its
    only calls that change the local disk, the disk ends as it began, and the
    bucket, the deletion set and the outcome are those of the store's
    [_prune_bucket] with the same count and the default patterns. *)
Theorem prune_opens_and_releases_workspace
  (env : Env) (self : BackupHandler) (retain : Z) (w : World) :
  let ws := Staging.workspace env in
  Fs.resolve ws <> [] ->
  Fs.subtree (fs w) (Fs.resolve ws) = [] ->
  (forall a, In a (Fs.prefixes (Fs.parent (Fs.resolve ws))) -> fs w !! a = Some Dir) ->
  let run := Handler.prune env self retain in
  let delegate := Store._prune_bucket env (store self) retain Store.default_patterns in
  Run.fs_events run w = [EvMakedirs ws; EvRmtree ws]
  /\ fs (Run.after run w) = fs w
  /\ bucket (Run.after run w) = bucket (Run.after delegate w)
  /\ Run.deletion_set run w = Run.deletion_set delegate w
  /\ Run.outcome run w = Run.outcome delegate w.
Proof.
  intros ws Hname Hfresh Habove run delegate. subst run delegate.
  pose proof (HandlerPruneFacts.handler_prune_run env w Hname Hfresh Habove self retain)
    as Hrun.
  fold ws in Hrun.
  set (calls := Retention.prune_calls retain Store.default_patterns
                  (Retention.listing (store self) w)) in *.
  assert (Hnew : Run.new_events (Handler.prune env self retain) w
                 = EvMakedirs ws :: EvListObjects (_path (store self))
                     :: map EvDeleteObjects calls ++ [EvRmtree ws]).
  { unfold Run.new_events, Run.after. rewrite Hrun. simpl.
    now rewrite drop_app_length. }
  unfold Run.fs_events, Run.deletion_set. rewrite Hnew.
  rewrite StoreFacts.prune_bucket_delete_calls, StoreFacts.prune_bucket_bucket.
  unfold Run.outcome, Run.after.
  rewrite Hrun, StoreFacts.prune_bucket_run. simpl.
  rewrite List.filter_app, HandlerPruneFacts.fs_events_delete_calls.
  rewrite StoreFacts.delete_calls_app, StoreFacts.delete_calls_map. simpl.
  rewrite app_nil_r. repeat split.
Qed.

Lemma prune_opens_and_releases_workspace_witness :
  let w := mkWorld Sample.disk Sample.ten_archives [] in
  let ws := Staging.workspace Sample.env in
  let run := Handler.prune Sample.env Sample.handler 5 in
  Fs.resolve ws <> []
  /\ Fs.subtree (fs w) (Fs.resolve ws) = []
  /\ (forall a, In a (Fs.prefixes (Fs.parent (Fs.resolve ws))) -> fs w !! a = Some Dir)
  /\ Run.fs_events run w = [EvMakedirs ws; EvRmtree ws]
  /\ fs (Run.after run w) = fs w.
Proof.
  assert (H0 : Fs.resolve (Staging.workspace Sample.env) <> [])
    by (vm_compute; discriminate).
  assert (H1 : Fs.subtree Sample.disk (Fs.resolve (Staging.workspace Sample.env)) = [])
    by (vm_compute; reflexivity).
  assert (H2 : forall a,
             In a (Fs.prefixes (Fs.parent (Fs.resolve (Staging.workspace Sample.env)))) ->
             Sample.disk !! a = Some Dir).
  { intros a Ha. vm_compute in Ha. destruct Ha as [<- | []]. vm_compute. reflexivity. }
  split; [exact H0|]. split; [exact H1|]. split; [exact H2|].
  pose proof (prune_opens_and_releases_workspace Sample.env Sample.handler 5
                (mkWorld Sample.disk Sample.ten_archives []) H0 H1 H2) as H.
  split; [exact (proj1 H) | exact (proj1 (proj2 H))].
Defined.

(** ** Extraction *)

Module ExtractFacts.
Import Fs FsFacts.

Lemma put_node_keeps p m k n m' k' n' :
  put_node p m k n = inr m' -> k' <> k -> m !! k' = Some n' -> m' !! k' = Some n'.
Proof.
  unfold put_node. destruct (negb (no_file_above m k)); [discriminate|].
  intros H Hne Hk'.
  assert (Hins : forall c, <[k := File c]> (mkdir_p m (parent k)) !! k' = Some n').
  { intros c. rewrite lookup_insert_ne by congruence. now apply mkdir_p_keeps. }
  destruct n as [|c]; destruct (node_at m k) as [[|c']|]; try discriminate;
    injection H as <-; (apply Hins || now apply mkdir_p_keeps).
Qed.

Lemma put_node_file p m k c m' :
  put_node p m k (File c) = inr m' -> m' !! k = Some (File c).
Proof.
  unfold put_node. destruct (negb (no_file_above m k)); [discriminate|].
  destruct (node_at m k) as [[|c']|]; try discriminate;
    intros [= <-]; apply lookup_insert_eq.
Qed.

Lemma put_nodes_keeps p l : forall m base m' k n,
  put_nodes p m base l = inr m' ->
  m !! k = Some n ->
  (forall rel n', In (rel, n') l -> base ++ rel <> k) ->
  m' !! k = Some n.
Proof.
  induction l as [|[rel0 n0] l IH]; intros m base m' k n H Hk Hfree.
  - now injection H as <-.
  - simpl in H.
    destruct (put_node p m (base ++ rel0) n0) as [e|m1] eqn:E; [discriminate|].
    apply (IH m1 base m' k n H).
    + eapply put_node_keeps; [exact E | | exact Hk].
      intros ->. apply (Hfree rel0 n0); [now left | reflexivity].
    + intros rel n' Hin. apply (Hfree rel n'). now right.
Qed.

(** Every file of a list of distinctly named nodes is where it was put. *)
Lemma put_nodes_file p l : forall m base m' rel c,
  put_nodes p m base l = inr m' ->
  NoDup (map fst l) ->
  In (rel, File c) l ->
  m' !! (base ++ rel) = Some (File c).
Proof.
  induction l as [|[rel0 n0] l IH]; intros m base m' rel c H Hnd Hin;
    [contradiction|].
  simpl in H, Hnd. apply NoDup_cons in Hnd as [Hfresh Hnd].
  destruct (put_node p m (base ++ rel0) n0) as [e|m1] eqn:E; [discriminate|].
  destruct Hin as [[= -> ->] | Hin].
  - apply (put_nodes_keeps p l m1 base m' _ _ H (put_node_file _ _ _ _ _ E)).
    intros rel' n' Hin' Heq. apply app_inv_head in Heq. subst rel'.
    apply Hfresh. rewrite list_elem_of_In. apply in_map_iff.
    now exists (rel, n').
  - now apply (IH m1 base m' rel c H Hnd).
Qed.

Lemma extract_run tarpath directory w :
  Handler.extract tarpath directory w
  = (let d := Handler.extract_directory (fs w) directory in
     members <- Handler.tarfile_open tarpath ;;
     fs_op (EvExtractAll d)
       (fun m => put_nodes d m (resolve d)
                   (map (fun kv => (kv.1, Handler.as_node kv.2)) members))) w.
Proof. reflexivity. Qed.

Lemma tarfile_open_run tarpath w members :
  read_file (fs w) tarpath = inr (TarGz members) ->
  Handler.tarfile_open tarpath w = (w, inr members).
Proof.
  intros H. unfold Handler.tarfile_open, bind, fs_read. now rewrite H.
Qed.

Lemma as_node_names (members : list (list string * option content)) :
  map fst (map (fun kv => (kv.1, Handler.as_node kv.2)) members) = map fst members.
Proof. rewrite map_map. reflexivity. Qed.

End ExtractFacts.




(** ** Directories survive staging, compression and upload *)

Module KeepsDirs.
Import Run Fs FsFacts ExtractFacts.

Lemma keeps_ret {A} (a : A) : keeps_dirs (ret a).
Proof. intros w k H. exact H. Qed.

Lemma keeps_raise {A} (e : exn) : keeps_dirs (@raise A e).
Proof. intros w k H. exact H. Qed.

Lemma keeps_fs_get {A} (f : gmap (list string) node -> A) : keeps_dirs (fs_get f).
Proof. intros w k H. exact H. Qed.

Lemma keeps_pure {A} (f : World -> exn + A) : keeps_dirs (fun w => (w, f w)).
Proof. intros w k H. exact H. Qed.

Lemma keeps_unless_none {A} (o : option A) (e : exn) : keeps_dirs (unless_none o e).
Proof. destruct o; [apply keeps_ret | apply keeps_raise]. Qed.

Lemma keeps_bind {A B} (m : M A) (f : A -> M B) :
  keeps_dirs m -> (forall a, keeps_dirs (f a)) -> keeps_dirs (bind m f).
Proof.
  intros Hm Hf w k H. specialize (Hm w k H).
  unfold after, bind in *. destruct (m w) as [w1 [e|a]]; [exact Hm|].
  apply (Hf a w1 k Hm).
Qed.

Lemma keeps_try_except {A} (m : M A) handled (h : exn -> M A) :
  keeps_dirs m -> (forall e, keeps_dirs (h e)) -> keeps_dirs (try_except m handled h).
Proof.
  intros Hm Hh w k H. specialize (Hm w k H).
  unfold after, try_except in *. destruct (m w) as [w1 [e|a]]; [|exact Hm].
  destruct (handled e); [|exact Hm]. apply (Hh e w1 k Hm).
Qed.

Lemma keeps_for_each {A} (l : list A) (body : A -> M unit) :
  (forall x, keeps_dirs (body x)) -> keeps_dirs (for_each l body).
Proof.
  intros H. induction l as [|x l IH]; [apply keeps_ret|].
  simpl. apply keeps_bind; [apply H | intros _; exact IH].
Qed.

Lemma keeps_fs_op ev f : op_keeps_dirs f -> keeps_dirs (fs_op ev f).
Proof.
  intros Hf w k H. unfold after, fs_op.
  destruct (f (fs w)) as [e|m'] eqn:E; [exact H|]. simpl. exact (Hf _ _ _ E H).
Qed.

Lemma node_at_dir (m : gmap (list string) node) k :
  m !! k = Some Dir -> node_at m k = Some Dir.
Proof. destruct k; [reflexivity | trivial]. Qed.

Lemma makedirs_keeps p : op_keeps_dirs (fun m => makedirs m p).
Proof.
  intros m m' k H Hk. unfold makedirs in H.
  destruct (node_at m (resolve p)); [discriminate|].
  destruct (no_file_above m (resolve p)); [|discriminate].
  injection H as <-. now apply mkdir_p_keeps.
Qed.

Lemma write_file_keeps p c : op_keeps_dirs (fun m => write_file m p c).
Proof.
  intros m m' k H Hk. unfold write_file in H.
  destruct (decide (resolve p = k)) as [E|E].
  - rewrite E, (node_at_dir _ _ Hk) in H. discriminate.
  - destruct (node_at m (resolve p)) as [[|c']|];
      destruct (node_at m (parent (resolve p))) as [[|c'']|]; try discriminate;
      injection H as <-; now rewrite lookup_insert_ne.
Qed.

Lemma copy2_keeps src dst : op_keeps_dirs (fun m => copy2 m src dst).
Proof.
  intros m m' k H Hk. unfold copy2 in H.
  destruct (read_file m src) as [e|c]; [discriminate|].
  exact (write_file_keeps _ _ _ _ _ H Hk).
Qed.

Lemma put_node_keeps_dirs p m k n m' k' :
  put_node p m k n = inr m' -> m !! k' = Some Dir -> m' !! k' = Some Dir.
Proof.
  intros H Hk'. destruct (decide (k' = k)) as [->|Hne].
  - unfold put_node in H. rewrite (node_at_dir _ _ Hk') in H.
    destruct (negb (no_file_above m k)); [discriminate|].
    destruct n; [|discriminate]. injection H as <-. now apply mkdir_p_keeps.
  - exact (put_node_keeps _ _ _ _ _ _ _ H Hne Hk').
Qed.

Lemma put_nodes_keeps_dirs p l : forall m base m' k,
  put_nodes p m base l = inr m' -> m !! k = Some Dir -> m' !! k = Some Dir.
Proof.
  induction l as [|[rel n] l IH]; intros m base m' k H Hk.
  - now injection H as <-.
  - simpl in H.
    destruct (put_node p m (base ++ rel) n) as [e|m1] eqn:E; [discriminate|].
    apply (IH m1 base m' k H). exact (put_node_keeps_dirs _ _ _ _ _ _ E Hk).
Qed.

Lemma copy_tree_keeps src dst : op_keeps_dirs (fun m => copy_tree m src dst).
Proof.
  intros m m' k H Hk. unfold copy_tree in H.
  destruct (isdir m src); [|discriminate].
  exact (put_nodes_keeps_dirs _ _ _ _ _ _ H Hk).
Qed.

(** Neither the transfer nor the pruning touches the disk. *)
Lemma upload_fs env self localpath target w :
  fs (after (Store.upload env self localpath target) w) = fs w.
Proof.
  unfold after, Store.upload, bind, S3.upload_file, bind, fs_read, raise.
  destruct (read_file (fs w) _) as [e|c]; [reflexivity|].
  destruct (upload_fails env); [reflexivity|].
  destruct (Store.retain_truthy (_retain self)) as [r|]; [|reflexivity].
  rewrite StoreFacts.prune_bucket_run. cbn [fst].
  now rewrite StoreFacts.after_calls_fs.
Qed.

Lemma keeps_upload env self localpath target :
  keeps_dirs (Store.upload env self localpath target).
Proof. intros w k H. now rewrite upload_fs. Qed.

(** Peel a computation down to its filesystem operations. *)
Ltac keeps :=
  repeat first
    [ apply keeps_ret | apply keeps_raise | apply keeps_fs_get
    | apply keeps_unless_none | apply keeps_upload
    | apply keeps_for_each; intros ?
    | apply keeps_try_except; [|intros ?]
    | apply keeps_bind; [|intros ?]
    | apply keeps_fs_op;
      first [ apply makedirs_keeps | apply write_file_keeps
            | apply copy2_keeps | apply copy_tree_keeps ]
    | apply keeps_pure
    | match goal with
      | |- keeps_dirs (if ?b then _ else _) => destruct b
      | |- keeps_dirs (match ?x with _ => _ end) => destruct x
      end ].

Lemma keeps_stage env self target includes :
  keeps_dirs (Staging.stage env self target includes).
Proof. unfold Staging.stage, Staging.attr. keeps. Qed.

Lemma keeps_compress env self rename_to :
  keeps_dirs (Staging.compress env self rename_to).
Proof. unfold Staging.compress, Staging.attr. keeps. Qed.

Lemma keeps_backup_body env self backup_target rename_to stage :
  keeps_dirs
    (stage <- Staging.stage env stage backup_target (includes self) ;;
     stage <- Staging.compress env stage rename_to ;;
     final_path <- Staging.path stage ;;
     name <- Staging.name stage ;;
     Store.upload env (store self) final_path (Some name)).
Proof.
  apply keeps_bind; [apply keeps_stage | intros s1].
  apply keeps_bind; [apply keeps_compress | intros s2].
  unfold Staging.path, Staging.name, Staging.attr. keeps.
Qed.

End KeepsDirs.

(** ** The staging workspace is released *)

Module WorkspaceFacts.
Import Run Fs FsFacts KeepsDirs.

(** When the constructor returns, the workspace is a directory it made. *)
Lemma init_created env w ctx :
  outcome (Staging.init env Staging.default_tmpdir) w = inr ctx ->
  Staging.tmpdir ctx = Staging.workspace env
  /\ resolve (Staging.workspace env) <> []
  /\ fs w !! resolve (Staging.workspace env) = None
  /\ fs (after (Staging.init env Staging.default_tmpdir) w) !! resolve (Staging.workspace env) = Some Dir.
Proof.
  unfold outcome, after, Staging.init, Staging._initialize, bind, fs_op, makedirs, ret.
  fold (Staging.workspace env).
  destruct (node_at (fs w) (resolve (Staging.workspace env))) as [n|] eqn:En;
    [discriminate|].
  destruct (no_file_above (fs w) (resolve (Staging.workspace env))); [|discriminate].
  simpl. intros [= <-]. simpl.
  assert (Hk : resolve (Staging.workspace env) <> []).
  { intros E. rewrite E in En. discriminate. }
  rewrite node_at_nonroot in En by assumption.
  repeat split; try assumption. now apply mkdir_p_self.
Qed.

(** Whatever the block does and however it ends, the workspace is gone when
    the [with] statement is left, and removing it is the last thing done. *)
Lemma with_staging_released {A} env (body : Staging.t -> M A) w ctx :
  outcome (Staging.init env Staging.default_tmpdir) w = inr ctx ->
  (forall s, keeps_dirs (body s)) ->
  let run := with_ (Staging.init env Staging.default_tmpdir) Staging.__exit__ body in
  (forall k, resolve (Staging.tmpdir ctx) `prefix_of` k -> fs (after run w) !! k = None)
  /\ last (events (after run w)) = Some (EvRmtree (Staging.tmpdir ctx))
  /\ outcome run w = outcome (body ctx) (after (Staging.init env Staging.default_tmpdir) w).
Proof.
  intros Hinit Hbody run. subst run.
  destruct (init_created env w ctx Hinit) as (Htmp & Hk & _ & Hdir).
  unfold outcome, after in *. unfold with_.
  destruct (Staging.init env Staging.default_tmpdir w) as [w1 [e|ctx']];
    [discriminate|].
  simpl in Hinit, Hdir. injection Hinit as ->. cbn [fst snd].
  pose proof (Hbody ctx w1 _ Hdir) as Hkept. unfold after in Hkept.
  destruct (body ctx w1) as [w2 r]. simpl in Hkept.
  unfold Staging.__exit__, fs_op. rewrite Htmp in *.
  rewrite rmtree_dir by assumption. simpl.
  split; [|split].
  - intros k Hp. now apply rmtree_gone.
  - apply last_snoc.
  - reflexivity.
Qed.

End WorkspaceFacts.

(** C5.  For every [backup] call whose constructor has made the staging
    workspace, and on every way out of the call (normal return, an exception
    from staging, from compression or from the upload): when the call
    returns or raises, nothing exists at or below the workspace path, and the
    removal of the workspace is the last thing the call did.  The cleanup
    does not depend on how the block ended. *)
Theorem backup_releases_workspace
  (env : Env) (self : BackupHandler) (backup_target rename_to : option string)
  (w : World) (ctx : Staging.t) :
  Run.outcome (Staging.init env Staging.default_tmpdir) w = inr ctx ->
  let run := Handler.backup env self backup_target rename_to in
  let ws := Staging.tmpdir ctx in
  fs (Run.after (Staging.init env Staging.default_tmpdir) w) !! Fs.resolve ws
    = Some Dir
  /\ (forall k, Fs.resolve ws `prefix_of` k -> fs (Run.after run w) !! k = None)
  /\ Fs.isdir (fs (Run.after run w)) ws = false
  /\ last (events (Run.after run w)) = Some (EvRmtree ws).
Proof.
  intros Hinit run ws. subst run ws.
  destruct (WorkspaceFacts.init_created env w ctx Hinit) as (Htmp & Hk & _ & Hdir).
  assert (Hrel :
            (forall k, Fs.resolve (Staging.tmpdir ctx) `prefix_of` k ->
                       fs (Run.after (Handler.backup env self backup_target rename_to) w)
                         !! k = None)
            /\ last (events (Run.after
                               (Handler.backup env self backup_target rename_to) w))
               = Some (EvRmtree (Staging.tmpdir ctx))).
  { unfold Handler.backup.
    destruct (WorkspaceFacts.with_staging_released env
                (fun stage =>
                   stage <- Staging.stage env stage
                              (Handler._get_dirname env
                                 (Handler.py_format
                                    (Handler.py_or backup_target (backupdir self))))
                              (includes self) ;;
                   stage <- Staging.compress env stage rename_to ;;
                   final_path <- Staging.path stage ;;
                   name <- Staging.name stage ;;
                   Store.upload env (store self) final_path (Some name))
                w ctx Hinit) as (Hgone & Hlast & _).
    - intros s. apply KeepsDirs.keeps_backup_body.
    - split; assumption. }
  destruct Hrel as [Hgone Hlast].
  rewrite Htmp in *.
  split; [exact Hdir|]. split; [exact Hgone|]. split; [|exact Hlast].
  unfold Fs.isdir. rewrite FsFacts.node_at_nonroot by assumption.
  now rewrite (Hgone (Fs.resolve (Staging.workspace env))).
Qed.

Lemma backup_releases_workspace_witness :
  let ctx := Staging.mk "/tmp/123456789" None None None None in
  let run := Handler.backup Sample.env Sample.handler None None in
  Run.outcome (Staging.init Sample.env Staging.default_tmpdir) Sample.local_only
    = inr ctx
  /\ fs (Run.after (Staging.init Sample.env Staging.default_tmpdir) Sample.local_only)
       !! ["tmp"; "123456789"] = Some Dir
  /\ Fs.isdir (fs (Run.after run Sample.local_only)) "/tmp/123456789" = false
  /\ last (events (Run.after run Sample.local_only))
     = Some (EvRmtree "/tmp/123456789").
Proof.
  assert (H0 : Run.outcome (Staging.init Sample.env Staging.default_tmpdir)
                 Sample.local_only
               = inr (Staging.mk "/tmp/123456789" None None None None))
    by (vm_compute; reflexivity).
  destruct (backup_releases_workspace Sample.env Sample.handler None None
              Sample.local_only _ H0) as (Ha & _ & Hb & Hc).
  split; [exact H0|]. split; [exact Ha|]. split; [exact Hb | exact Hc].
Defined.

(** The four ways out of [backup], each leaving the disk without the
    workspace: a normal return, a target that cannot be staged, the disk
    filling up while the archive is written, and a failing transfer. *)
Lemma backup_exit_paths :
  let missing := mkBackupHandler Sample.plain_store (Some "/home/u/missing") None in
  let gone (r : World * (exn + unit)) := Fs.subtree (fs r.1) ["tmp"; "123456789"] in
  Run.outcome (Handler.backup Sample.env Sample.handler None None) Sample.local_only
    = inr tt
  /\ Run.outcome (Handler.backup Sample.env missing None None) Sample.local_only
     = inl (OSError "/home/u/missing")
  /\ Run.outcome (Handler.backup Sample.env_disk_full Sample.handler None None)
       Sample.local_only
     = inl (OSError "/tmp/123456789/data.tgz")
  /\ Run.outcome (Handler.backup Sample.env_upload_fails Sample.handler None None)
       Sample.local_only
     = inl (S3UploadFailedError "data.tgz")
  /\ gone (Handler.backup Sample.env Sample.handler None None Sample.local_only) = []
  /\ gone (Handler.backup Sample.env missing None None Sample.local_only) = []
  /\ gone (Handler.backup Sample.env_disk_full Sample.handler None None
             Sample.local_only) = []
  /\ gone (Handler.backup Sample.env_upload_fails Sample.handler None None
             Sample.local_only) = [].
Proof. vm_compute. repeat split. Qed.

(** ** Backup, then restore *)

(** C1 (the code at an input where the claim fails).  The directory
    [/home/u/data] with [a.txt] and [sub/b.txt] is backed up: the bucket then
    holds the archive [data.tgz].  Restoring from the latest backup towards
    [/srv/data] downloads that archive to [/tmp/data.tgz], not to the
    temporary file [/tmp/tmpab12cd] that [restore] goes on to open;
    [tarfile.open] finds the temporary file empty and raises [ReadError].
    Nothing is unpacked: no file reappears under [/srv], and the download is
    left behind in [/tmp]. *)
Theorem backup_then_restore_reads_empty_tempfile :
  let backup := Handler.backup Sample.env Sample.handler None None in
  let restore := Handler.restore Sample.env Sample.handler (Some "/srv/data") in
  let w1 := Run.after backup Sample.local_only in
  Run.outcome backup Sample.local_only = inr tt
  /\ map Key (bucket w1) = ["data.tgz"]
  /\ (exists members,
        map Body (bucket w1) = [TarGz members]
        /\ In (["data"; "a.txt"], Some (Sample.text "hello")) members
        /\ In (["data"; "sub"; "b.txt"], Some (Sample.text "world")) members)
  /\ Run.outcome restore w1 = inl (ReadError "/tmp/tmpab12cd")
  /\ Run.new_events restore w1
     = [ EvWrite "/tmp/tmpab12cd"; EvListObjects "";
         EvDownloadFile "data.tgz" "/tmp/data.tgz"; EvUnlink "/tmp/tmpab12cd" ]
  /\ Fs.subtree (fs (Run.after restore w1)) ["srv"] = []
  /\ Fs.isfile (fs (Run.after restore w1)) "/tmp/data.tgz" = true.
Proof.
  split; [vm_compute; reflexivity|]. split; [vm_compute; reflexivity|].
  split; [|vm_compute; repeat split].
  eexists. split; [vm_compute; reflexivity|]. simpl. tauto.
Qed.

Module RestoreFacts.
Import Run Fs FsFacts.

Lemma write_file_inv m p c m' :
  write_file m p c = inr m' -> m' = <[resolve p := File c]> m /\ resolve p <> [].
Proof.
  unfold write_file. intros H. split.
  - destruct (node_at m (resolve p)) as [[|c']|];
      destruct (node_at m (parent (resolve p))) as [[|c'']|]; try discriminate;
      now injection H as <-.
  - intros E. rewrite E in H. discriminate.
Qed.

Lemma last_listed (l : list BucketObject) name :
  last (map filename l) = Some name -> exists o, In o l /\ filename o = name.
Proof.
  intros H. apply last_Some in H as [l' E].
  assert (Hin : In name (map filename l)).
  { rewrite E. apply in_or_app. right. now left. }
  apply in_map_iff in Hin as (o & Ho & Hin). eauto.
Qed.

(** Whatever the temporary file is opened after the download, it is still
    the empty file [NamedTemporaryFile] made, unless a listed key happens to
    resolve to it: the block of [restore] raises. *)
Lemma restore_block_raises env self directory w m1 :
  write_file (fs w) (tempfile_name env) (Raw []) = inr m1 ->
  (forall o, In o (Retention.listing self w) ->
     resolve (OsPath.join (OsPath.dirname (tempfile_name env)) (filename o))
     <> resolve (tempfile_name env)) ->
  exists e,
    outcome (Store.download env self Store.LATEST
               (OsPath.dirname (tempfile_name env))
               (Some (PyStr.last_piece (PyStr.split_sep (tempfile_name env)))) ;;;
             Handler.extract (tempfile_name env) directory)
            (mkWorld m1 (bucket w) (events w ++ [EvWrite (tempfile_name env)]))
    = inl e.
Proof.
  intros Hw Hother. apply write_file_inv in Hw as [-> Hk].
  set (tmp := tempfile_name env) in *.
  set (w1 := mkWorld _ _ _).
  unfold outcome, bind at 1. rewrite DownloadFacts.download_latest_run.
  change (Retention.listing self w1) with (Retention.listing self w).
  destruct (last (map filename (Retention.listing self w))) as [name|] eqn:El;
    [|eauto].
  destruct (last_listed _ _ El) as (o & Ho & <-).
  specialize (Hother o Ho).
  unfold bind, S3.download_file, ret.
  cbn [bucket Retention.listed_world].
  destruct (List.find _ (bucket w1)) as [obj|]; [|eauto].
  unfold fs_op. cbn [fs Retention.listed_world].
  destruct (write_file _ _ (Body obj)) as [e|m2] eqn:Ew2; [eauto|].
  apply write_file_inv in Ew2 as [-> _].
  rewrite ExtractFacts.extract_run. cbv zeta.
  unfold bind, Handler.tarfile_open, bind, fs_read, read_file. cbn [fs].
  rewrite node_at_nonroot by assumption.
  rewrite lookup_insert_ne by assumption. unfold w1. cbn [fs].
  rewrite lookup_insert_eq. unfold raise. eauto.
Qed.

(** [restore] does not return normally: the archive never reaches the file
    it unpacks. *)
Lemma restore_raises env self directory w :
  (forall o, In o (Retention.listing (store self) w) ->
     resolve (OsPath.join (OsPath.dirname (tempfile_name env)) (filename o))
     <> resolve (tempfile_name env)) ->
  exists e, outcome (Handler.restore env self directory) w = inl e.
Proof.
  intros Hother. unfold outcome, Handler.restore, with_.
  unfold Handler.NamedTemporaryFile at 1, bind at 1, fs_op at 1.
  destruct (write_file (fs w) (tempfile_name env) (Raw [])) as [e|m1] eqn:Ew;
    [eauto|].
  unfold ret at 1.
  destruct (restore_block_raises env (store self)
              (Handler._get_dirname env
                 (Handler.py_format (Handler.py_or directory (backupdir self))))
              w m1 Ew Hother) as [e He].
  unfold outcome in He.
  destruct ((_ ;;; _) _) as [w2 r]. simpl in He. subst r.
  destruct (Handler.tempfile_close _ w2) as [w3 [e'|[]]]; eauto.
Qed.

End RestoreFacts.

(** * Further properties of the code *)

(** ** [Collection] *)

Module CollectionFacts.
Import PyList SortedFacts.



End CollectionFacts.


(** X2.  [Collection.get] (by filename) returns the first object of the
    collection that has the filename, and [None] exactly when no object has
    it. *)
Theorem get_returns_first_match (c : Collection.t) (value : string) :
  (Collection.get c value = None <-> ~ In value (Collection.filenames c))
  /\ forall o,
       Collection.get c value = Some o ->
       filename o = value
       /\ exists l1 l2,
            Collection.objects c = l1 ++ o :: l2
            /\ ~ In value (map filename l1).
Proof.
  destruct c as [l]. unfold Collection.get, Collection.filenames.
  cbn [Collection.objects]. split.
  - induction l as [|x l IH]; simpl; [tauto|].
    destruct (String.eqb_spec (filename x) value) as [E|E].
    + split; [discriminate | tauto].
    + rewrite IH. tauto.
  - induction l as [|x l IH]; simpl; [discriminate|].
    intros o. destruct (String.eqb_spec (filename x) value) as [E|E].
    + intros [= <-]. split; [exact E|]. exists [], l. simpl. tauto.
    + intros H. destruct (IH o H) as (Hf & l1 & l2 & -> & Hl1).
      split; [exact Hf|]. exists (x :: l1), l2. simpl. tauto.
Qed.

(** ** What the operations keep *)

Module KeepsFacts.
Import Run Keeps.

Section Generic.
Context (P : World -> Prop).

Lemma inv_ret {A} (a : A) : invariant P (ret a).
Proof. intros w H. exact H. Qed.

Lemma inv_raise {A} (e : exn) : invariant P (@raise A e).
Proof. intros w H. exact H. Qed.

Lemma inv_pure {A} (f : World -> exn + A) : invariant P (fun w => (w, f w)).
Proof. intros w H. exact H. Qed.

Lemma inv_fs_get {A} (f : gmap (list string) node -> A) : invariant P (fs_get f).
Proof. intros w H. exact H. Qed.

Lemma inv_unless_none {A} (o : option A) (e : exn) : invariant P (unless_none o e).
Proof. destruct o; [apply inv_ret | apply inv_raise]. Qed.

Lemma inv_bind {A B} (m : M A) (f : A -> M B) :
  invariant P m -> (forall a, invariant P (f a)) -> invariant P (bind m f).
Proof.
  intros Hm Hf w H. specialize (Hm w H).
  unfold after, bind in *. destruct (m w) as [w1 [e|a]]; [exact Hm|].
  apply (Hf a w1 Hm).
Qed.

Lemma inv_try_except {A} (m : M A) handled (h : exn -> M A) :
  invariant P m -> (forall e, invariant P (h e)) -> invariant P (try_except m handled h).
Proof.
  intros Hm Hh w H. specialize (Hm w H).
  unfold after, try_except in *. destruct (m w) as [w1 [e|a]]; [|exact Hm].
  destruct (handled e); [|exact Hm]. apply (Hh e w1 Hm).
Qed.

Lemma inv_for_each {A} (l : list A) (body : A -> M unit) :
  (forall x, invariant P (body x)) -> invariant P (for_each l body).
Proof.
  intros H. induction l as [|x l IH]; [apply inv_ret|].
  simpl. apply inv_bind; [apply H | intros _; exact IH].
Qed.

Lemma inv_with {A B} (enter : M A) (leave : A -> M unit) (body : A -> M B) :
  invariant P enter -> (forall a, invariant P (leave a)) ->
  (forall a, invariant P (body a)) -> invariant P (with_ enter leave body).
Proof.
  intros He Hl Hb w H. specialize (He w H).
  unfold after, with_ in *. destruct (enter w) as [w1 [e|a]]; [exact He|].
  simpl in He. pose proof (Hb a w1 He) as H2. unfold after in H2.
  destruct (body a w1) as [w2 r]. simpl in H2.
  pose proof (Hl a w2 H2) as H3. unfold after in H3.
  destruct (leave a w2) as [w3 [e|u]]; exact H3.
Qed.

End Generic.

Section BucketOnly.
Context (P : World -> Prop) (P_bucket : bucket_only P).

Lemma inv_fs_op ev f : invariant P (fs_op ev f).
Proof.
  intros w H. unfold after, fs_op. destruct (f (fs w)); [exact H|].
  now apply (P_bucket w).
Qed.

Lemma inv_log_event ev : invariant P (log_event ev).
Proof. intros w H. now apply (P_bucket w). Qed.

Lemma inv_s3_list env prefix : invariant P (S3.list_objects env prefix).
Proof.
  intros w H. unfold after, S3.list_objects, bind, log_event. simpl.
  destruct (S3.listed prefix (bucket w)); now apply (P_bucket w).
Qed.

Lemma inv_s3_download key path : invariant P (S3.download_file key path).
Proof.
  intros w H. unfold after, S3.download_file.
  destruct (List.find _ (bucket w)); [|exact H].
  now apply (inv_fs_op _ _ w).
Qed.

Lemma inv_list_objects env self : invariant P (Store.list_objects env self).
Proof.
  unfold Store.list_objects.
  apply inv_bind; [apply inv_s3_list | intros raw].
  apply inv_bind; [apply inv_unless_none | intros c; apply inv_ret].
Qed.

Lemma inv_download env self target localpath as_filename :
  invariant P (Store.download env self target localpath as_filename).
Proof.
  unfold Store.download. apply inv_bind.
  - destruct (String.eqb target Store.LATEST).
    + apply inv_try_except; [|intros e; apply inv_raise].
      apply inv_bind; [apply inv_list_objects | intros c; apply inv_unless_none].
    + destruct as_filename as [[|c f]|]; (apply inv_ret || apply inv_raise).
  - intros name. apply inv_bind; [apply inv_s3_download | intros _; apply inv_ret].
Qed.

Lemma inv_extract tarpath directory : invariant P (Handler.extract tarpath directory).
Proof.
  unfold Handler.extract, Handler.tarfile_open, fs_read.
  apply inv_bind; [apply inv_fs_get | intros d].
  apply inv_bind; [|intros members; apply inv_fs_op].
  apply inv_bind; [apply inv_pure | intros [b|m]; (apply inv_ret || apply inv_raise)].
Qed.

Lemma inv_restore env self directory : invariant P (Handler.restore env self directory).
Proof.
  unfold Handler.restore, Handler.NamedTemporaryFile, Handler.tempfile_close.
  apply inv_with.
  - apply inv_bind; [apply inv_fs_op | intros _; apply inv_ret].
  - intros f. apply inv_fs_op.
  - intros f. apply inv_bind; [apply inv_download | intros _; apply inv_extract].
Qed.

(** Peel a staging computation down to its steps. *)
Ltac peel :=
  repeat first
    [ apply inv_ret | apply inv_raise | apply inv_fs_get | apply inv_unless_none
    | apply inv_fs_op | apply inv_pure
    | apply inv_for_each; intros ?
    | apply inv_try_except; [|intros ?]
    | apply inv_bind; [|intros ?]
    | match goal with
      | |- invariant _ (if ?b then _ else _) => destruct b
      | |- invariant _ (match ?x with _ => _ end) => destruct x
      end ].

Lemma inv_stage env self target includes :
  invariant P (Staging.stage env self target includes).
Proof. unfold Staging.stage, Staging.attr. peel. Qed.

Lemma inv_compress env self rename_to :
  invariant P (Staging.compress env self rename_to).
Proof. unfold Staging.compress, Staging.attr. peel. Qed.

Lemma inv_init env tmpdir : invariant P (Staging.init env tmpdir).
Proof. unfold Staging.init, Staging._initialize. peel. Qed.

Lemma inv_exit self : invariant P (Staging.__exit__ self).
Proof. apply inv_fs_op. Qed.

End BucketOnly.

Lemma bucket_is_bucket_only b : bucket_only (bucket_is b).
Proof. intros w w' E H. unfold bucket_is in *. congruence. Qed.

Lemma keys_distinct_bucket_only : bucket_only keys_distinct.
Proof. intros w w' E H. unfold keys_distinct in *. now rewrite <- E. Qed.

(** Storing an object keeps the keys distinct. *)
Lemma insert_by_key_perm o l : Permutation (S3.insert_by_key o l) (o :: l).
Proof.
  induction l as [|x l IH]; simpl; [reflexivity|].
  destruct (String.leb (Key o) (Key x)); [reflexivity|].
  rewrite IH. apply perm_swap.
Qed.

Lemma put_object_keys o l :
  NoDup (map Key l) -> NoDup (map Key (S3.put_object o l)).
Proof.
  intros H. unfold S3.put_object.
  rewrite insert_by_key_perm. simpl. apply NoDup_cons. split.
  - rewrite list_elem_of_In, in_map_iff. intros (x & E & Hx).
    apply List.filter_In in Hx as [_ Hx]. unfold S3.has_key in Hx.
    rewrite E, String.eqb_refl in Hx. discriminate.
  - now apply RetentionFacts.NoDup_map_filter.
Qed.

Lemma inv_keys_upload_file env path key :
  invariant keys_distinct (S3.upload_file env path key).
Proof.
  intros w H. unfold after, S3.upload_file, bind, fs_read, raise.
  destruct (Fs.read_file (fs w) path); [exact H|].
  destruct (upload_fails env); [exact H|].
  unfold keys_distinct. simpl. now apply put_object_keys.
Qed.

Lemma inv_keys_prune env self retain patterns :
  invariant keys_distinct (Store._prune_bucket env self retain patterns).
Proof.
  intros w H. unfold keys_distinct.
  rewrite StoreFacts.prune_bucket_bucket.
  now apply RetentionFacts.NoDup_map_filter.
Qed.

Lemma inv_keys_upload env self localpath target :
  invariant keys_distinct (Store.upload env self localpath target).
Proof.
  unfold Store.upload.
  apply inv_bind; [apply inv_keys_upload_file | intros _].
  destruct (Store.retain_truthy (_retain self));
    [apply inv_keys_prune | apply inv_ret].
Qed.

End KeepsFacts.

(** X3.  Nothing the module does to the bucket makes two objects share a
    key: [upload] (with its pruning), [delete], [_prune_bucket], [download],
    and the orchestrator's [backup], [prune] and [restore] all end, however
    they end, with distinct keys if they started with distinct keys. *)
Theorem operations_keep_keys_distinct
  (env : Env) (self : BackupStore) (handler : BackupHandler) :
  (forall localpath target,
      Keeps.invariant Keeps.keys_distinct (Store.upload env self localpath target))
  /\ (forall collection,
         Keeps.invariant Keeps.keys_distinct (Store.delete self collection))
  /\ (forall retain patterns,
         Keeps.invariant Keeps.keys_distinct
           (Store._prune_bucket env self retain patterns))
  /\ (forall target localpath as_filename,
         Keeps.invariant Keeps.keys_distinct
           (Store.download env self target localpath as_filename))
  /\ (forall backup_target rename_to,
         Keeps.invariant Keeps.keys_distinct
           (Handler.backup env handler backup_target rename_to))
  /\ (forall retain,
         Keeps.invariant Keeps.keys_distinct (Handler.prune env handler retain))
  /\ (forall directory,
         Keeps.invariant Keeps.keys_distinct (Handler.restore env handler directory)).
Proof.
  pose proof KeepsFacts.keys_distinct_bucket_only as Hb.
  repeat split.
  - intros. apply KeepsFacts.inv_keys_upload.
  - intros collection w H. unfold Keeps.keys_distinct, Run.after, Store.delete.
    simpl. now apply RetentionFacts.NoDup_map_filter.
  - intros. apply KeepsFacts.inv_keys_prune.
  - intros. now apply KeepsFacts.inv_download.
  - intros. unfold Handler.backup. apply KeepsFacts.inv_with.
    + now apply KeepsFacts.inv_init.
    + intros a. now apply KeepsFacts.inv_exit.
    + intros a.
      apply KeepsFacts.inv_bind; [now apply KeepsFacts.inv_stage | intros s1].
      apply KeepsFacts.inv_bind; [now apply KeepsFacts.inv_compress | intros s2].
      unfold Staging.path, Staging.name, Staging.attr.
      apply KeepsFacts.inv_bind; [apply KeepsFacts.inv_unless_none | intros p].
      apply KeepsFacts.inv_bind; [|intros n; apply KeepsFacts.inv_keys_upload].
      apply KeepsFacts.inv_bind;
        [apply KeepsFacts.inv_unless_none | intros q; apply KeepsFacts.inv_ret].
  - intros. unfold Handler.prune. apply KeepsFacts.inv_with.
    + now apply KeepsFacts.inv_init.
    + intros a. now apply KeepsFacts.inv_exit.
    + intros a. apply KeepsFacts.inv_keys_prune.
  - intros. now apply KeepsFacts.inv_restore.
Qed.

(** X4.  [download] and [restore] only read the bucket: whatever they are
    given and however they end, the bucket afterwards is the bucket before,
    object for object. *)
Theorem download_and_restore_leave_bucket
  (env : Env) (self : BackupStore) (handler : BackupHandler) (w : World) :
  (forall target localpath as_filename,
      bucket (Run.after (Store.download env self target localpath as_filename) w)
      = bucket w)
  /\ (forall directory,
         bucket (Run.after (Handler.restore env handler directory) w) = bucket w).
Proof.
  pose proof (KeepsFacts.bucket_is_bucket_only (bucket w)) as Hb.
  split; intros.
  - now apply (KeepsFacts.inv_download _ Hb env self target localpath as_filename w).
  - now apply (KeepsFacts.inv_restore _ Hb env handler directory w).
Qed.

Lemma operations_keep_keys_distinct_witness :
  let w := mkWorld Sample.disk Sample.ten_archives [] in
  let run := Store.upload Sample.env Sample.plain_store "/home/u/data/a.txt"
               (Some "host-03.tar.gz") in
  Keeps.keys_distinct w
  /\ Keeps.keys_distinct (Run.after run w)
  /\ length (bucket (Run.after run w)) = 12%nat.
Proof.
  assert (H0 : Keeps.keys_distinct (mkWorld Sample.disk Sample.ten_archives []))
    by (unfold Keeps.keys_distinct; by_evaluation).
  split; [exact H0|]. split; [|vm_compute; reflexivity].
  exact (proj1 (operations_keep_keys_distinct Sample.env Sample.plain_store
                  Sample.handler) "/home/u/data/a.txt" (Some "host-03.tar.gz") _ H0).
Defined.

(** ** [upload] and [download] by name *)

Module TransferFacts.
Import Run Retention StoreFacts.

Lemma upload_run env self localpath target w :
  Store.upload env self localpath target w
  = match Fs.read_file (fs w) (OsPath.normpath localpath) with
    | inl e => (w, inl e)
    | inr c =>
        if upload_fails env
        then (w, inl (S3UploadFailedError
                        (OsPath.join (_path self) (upload_target localpath target))))
        else match Store.retain_truthy (_retain self) with
             | Some retain =>
                 Store._prune_bucket env self retain Store.default_patterns
                   (uploaded_world env self localpath target c w)
             | None => (uploaded_world env self localpath target c w, inr tt)
             end
    end.
Proof.
  unfold Store.upload, bind, S3.upload_file, bind, fs_read, raise.
  fold (upload_target localpath target).
  destruct (Fs.read_file (fs w) (OsPath.normpath localpath)) as [e|c]; [reflexivity|].
  destruct (upload_fails env); [reflexivity|].
  destruct (Store.retain_truthy (_retain self)); reflexivity.
Qed.

Lemma find_insert_by_key o l :
  (forall x, In x l -> S3.has_key (Key o) x = false) ->
  List.find (S3.has_key (Key o)) (S3.insert_by_key o l) = Some o.
Proof.
  assert (Ho : S3.has_key (Key o) o = true) by apply String.eqb_refl.
  induction l as [|x l IH]; intros H; simpl; [now rewrite Ho|].
  destruct (String.leb (Key o) (Key x)); simpl; [now rewrite Ho|].
  rewrite (H x) by now left. apply IH. intros y Hy. apply H. now right.
Qed.

(** The object just stored is the one its key finds. *)
Lemma find_put_object o l :
  List.find (S3.has_key (Key o)) (S3.put_object o l) = Some o.
Proof.
  unfold S3.put_object. apply find_insert_by_key.
  intros x Hx. apply List.filter_In in Hx as [_ Hx].
  now apply negb_true_iff in Hx.
Qed.

Lemma find_absent key l :
  (forall o, In o l -> Key o <> key) -> List.find (S3.has_key key) l = None.
Proof.
  intros H. destruct (List.find (S3.has_key key) l) as [o|] eqn:E; [|reflexivity].
  apply List.find_some in E as [Hin Hk]. apply String.eqb_eq in Hk.
  now destruct (H o Hin).
Qed.

Lemma find_distinct o l :
  NoDup (map Key l) -> In o l -> List.find (S3.has_key (Key o)) l = Some o.
Proof.
  induction l as [|x l IH]; simpl; [contradiction|].
  rewrite NoDup_cons. intros [Hx Hl] [-> | Hin].
  - unfold S3.has_key. now rewrite String.eqb_refl.
  - unfold S3.has_key at 1. destruct (String.eqb_spec (Key x) (Key o)) as [E|E].
    + exfalso. apply Hx. rewrite E, list_elem_of_In. now apply in_map.
    + now apply IH.
Qed.

(** [download] of a name other than the sentinel: the key fetched is
    [as_filename]. *)
Lemma download_named_run env self target localpath c name w :
  target <> Store.LATEST ->
  Store.download env self target localpath (Some (String c name)) w
  = (S3.download_file (String c name) (OsPath.join localpath (String c name)) ;;;
     ret (OsPath.join localpath (String c name))) w.
Proof.
  intros Ht. unfold Store.download.
  apply String.eqb_neq in Ht. rewrite Ht. reflexivity.
Qed.

Lemma read_after_write m p c m' :
  Fs.write_file m p c = inr m' -> Fs.read_file m' p = inr c.
Proof.
  intros H. apply RestoreFacts.write_file_inv in H as [-> Hk].
  unfold Fs.read_file. rewrite FsFacts.node_at_nonroot by assumption.
  now rewrite lookup_insert_eq.
Qed.

End TransferFacts.

(** X5.  [download] of a target other than ["backups.latest"] fails without
    touching anything when it cannot go ahead: with no [as_filename] (or an
    empty one) it raises [ValueError], and with a name that is no key of the
    bucket it raises [ClientError]; in both cases the disk, the bucket and
    the record of calls are as before, and the bucket is not even listed. *)
Theorem download_by_name_failures
  (env : Env) (self : BackupStore) (target localpath : string) (w : World) :
  target <> Store.LATEST ->
  Store.download env self target localpath None w
    = (w, inl (ValueError
                 "Target is not latest and filepath not given; cannot continue"))
  /\ Store.download env self target localpath (Some "") w
     = (w, inl (ValueError
                  "Target is not latest and filepath not given; cannot continue"))
  /\ forall name,
       name <> "" ->
       (forall o, In o (bucket w) -> Key o <> name) ->
       Store.download env self target localpath (Some name) w
       = (w, inl (ClientError name)).
Proof.
  intros Ht. pose proof Ht as Hneq. apply String.eqb_neq in Hneq.
  split; [|split].
  - unfold Store.download. now rewrite Hneq.
  - unfold Store.download. now rewrite Hneq.
  - intros [|c name] Hname Habsent; [congruence|].
    rewrite TransferFacts.download_named_run by assumption.
    unfold bind, S3.download_file.
    now rewrite TransferFacts.find_absent.
Qed.

Lemma download_by_name_failures_witness :
  let w := mkWorld Sample.disk Sample.two_archives [] in
  "c.tar.gz" <> Store.LATEST
  /\ Store.download Sample.env Sample.plain_store "c.tar.gz" "/tmp" None w
     = (w, inl (ValueError
                  "Target is not latest and filepath not given; cannot continue")).
Proof.
  assert (H0 : "c.tar.gz" <> Store.LATEST) by discriminate.
  split; [exact H0|].
  exact (proj1 (download_by_name_failures Sample.env Sample.plain_store
                  "c.tar.gz" "/tmp" (mkWorld Sample.disk Sample.two_archives []) H0)).
Defined.

(** X6.  [download] of a target other than ["backups.latest"] fetches the
    object whose key is [as_filename], taken as it is: neither [target] nor
    the store's prefix enters the key.  With distinct keys, when the
    destination can be written, the file [localpath/as_filename] holds that
    object's body afterwards, the call returns that path, and the download is
    the only call made. *)
Theorem download_by_name_fetches_as_filename
  (env : Env) (self : BackupStore) (target localpath name : string) (w : World)
  (o : S3Object) (m' : gmap (list string) node) :
  target <> Store.LATEST ->
  name <> "" ->
  NoDup (map Key (bucket w)) ->
  In o (bucket w) ->
  Key o = name ->
  Fs.write_file (fs w) (OsPath.join localpath name) (Body o) = inr m' ->
  let run := Store.download env self target localpath (Some name) in
  Run.outcome run w = inr (OsPath.join localpath name)
  /\ Fs.read_file (fs (Run.after run w)) (OsPath.join localpath name) = inr (Body o)
  /\ Run.new_events run w = [EvDownloadFile name (OsPath.join localpath name)].
Proof.
  intros Ht Hname Hnd Hin Hkey Hw run. subst run.
  destruct name as [|c name]; [congruence|].
  assert (Hrun : Store.download env self target localpath (Some (String c name)) w
                 = (mkWorld m' (bucket w)
                      (events w ++ [EvDownloadFile (String c name)
                                      (OsPath.join localpath (String c name))]),
                    inr (OsPath.join localpath (String c name)))).
  { rewrite TransferFacts.download_named_run by assumption.
    unfold bind, S3.download_file, ret.
    pose proof (TransferFacts.find_distinct o _ Hnd Hin) as Hf.
    rewrite Hkey in Hf. rewrite Hf. unfold fs_op. now rewrite Hw. }
  unfold Run.outcome, Run.new_events, Run.after. rewrite Hrun. simpl.
  split; [reflexivity|]. split.
  - exact (TransferFacts.read_after_write _ _ _ _ Hw).
  - now rewrite drop_app_length.
Qed.

Lemma download_by_name_fetches_as_filename_witness :
  let w := mkWorld Sample.disk Sample.two_archives [] in
  let o := mkS3Object "a.tar.gz" 20 "etag-a" 3 (TarGz [(["data"], None)]) in
  let run := Store.download Sample.env Sample.plain_store "anything" "/tmp"
               (Some "a.tar.gz") in
  "anything" <> Store.LATEST
  /\ "a.tar.gz" <> ""
  /\ NoDup (map Key (bucket w))
  /\ In o (bucket w)
  /\ Key o = "a.tar.gz"
  /\ Fs.write_file (fs w) (OsPath.join "/tmp" "a.tar.gz") (Body o)
     = inr (<[ ["tmp"; "a.tar.gz"] := File (Body o) ]> Sample.disk)
  /\ Run.outcome run w = inr "/tmp/a.tar.gz"
  /\ Fs.read_file (fs (Run.after run w)) "/tmp/a.tar.gz" = inr (Body o).
Proof.
  assert (H0 : "anything" <> Store.LATEST) by discriminate.
  assert (H1 : "a.tar.gz" <> "") by discriminate.
  assert (H2 : NoDup (map Key Sample.two_archives)) by by_evaluation.
  assert (H3 : In (mkS3Object "a.tar.gz" 20 "etag-a" 3 (TarGz [(["data"], None)]))
                  Sample.two_archives) by (now left).
  assert (H5 : Fs.write_file Sample.disk (OsPath.join "/tmp" "a.tar.gz")
                 (TarGz [(["data"], None)])
               = inr (<[ ["tmp"; "a.tar.gz"] := File (TarGz [(["data"], None)]) ]>
                        Sample.disk)) by (vm_compute; reflexivity).
  destruct (download_by_name_fetches_as_filename Sample.env Sample.plain_store
              "anything" "/tmp" "a.tar.gz"
              (mkWorld Sample.disk Sample.two_archives []) _ _
              H0 H1 H2 H3 eq_refl H5) as (Ha & Hb & _).
  repeat (split; [assumption || reflexivity|]). exact Hb.
Defined.

(** X7.  For a store without a retain count, a file stored by [upload] comes
    back byte for byte through [download] by name, the name being the key
    [upload] wrote: the store's prefix joined with the target (or with the
    file's base name when no target is given). *)
Theorem upload_then_download_returns_file
  (env : Env) (self : BackupStore) (localpath dir t : string)
  (target : option string) (w : World) (c : content)
  (m' : gmap (list string) node) :
  Store.retain_truthy (_retain self) = None ->
  upload_fails env = false ->
  Fs.read_file (fs w) (OsPath.normpath localpath) = inr c ->
  let key := OsPath.join (_path self) (Retention.upload_target localpath target) in
  key <> "" ->
  t <> Store.LATEST ->
  Fs.write_file (fs w) (OsPath.join dir key) c = inr m' ->
  let w1 := Run.after (Store.upload env self localpath target) w in
  let fetch := Store.download env self t dir (Some key) in
  Run.outcome (Store.upload env self localpath target) w = inr tt
  /\ Run.outcome fetch w1 = inr (OsPath.join dir key)
  /\ Fs.read_file (fs (Run.after fetch w1)) (OsPath.join dir key) = inr c.
Proof.
  intros Hret Hup Hread key Hkey Ht Hw w1 fetch. subst w1 fetch.
  unfold Run.outcome, Run.after.
  rewrite TransferFacts.upload_run, Hread, Hup, Hret. cbn [fst snd].
  split; [reflexivity|].
  destruct key as [|a key'] eqn:Ek; [congruence|].
  rewrite TransferFacts.download_named_run by assumption.
  unfold bind, S3.download_file, ret.
  cbn [bucket fs Retention.uploaded_world].
  pose proof (TransferFacts.find_put_object
                (Retention.uploaded_object env self localpath target c) (bucket w))
    as Hf.
  cbn [Key Retention.uploaded_object] in Hf. subst key. rewrite Ek in Hf.
  rewrite Hf. unfold fs_op. cbn [fs Body Retention.uploaded_object Retention.uploaded_world].
  rewrite Hw. cbn [fst snd fs].
  split; [reflexivity|].
  exact (TransferFacts.read_after_write _ _ _ _ Hw).
Qed.

Lemma upload_then_download_returns_file_witness :
  let w := Sample.local_only in
  let up := Store.upload Sample.env Sample.plain_store "/home/u/data/a.txt" None in
  let fetch := Store.download Sample.env Sample.plain_store "any" "/tmp" (Some "a.txt") in
  Store.retain_truthy (_retain Sample.plain_store) = None
  /\ upload_fails Sample.env = false
  /\ Fs.read_file (fs w) (OsPath.normpath "/home/u/data/a.txt")
     = inr (Sample.text "hello")
  /\ Fs.write_file (fs w) (OsPath.join "/tmp" "a.txt") (Sample.text "hello")
     = inr (<[ ["tmp"; "a.txt"] := File (Sample.text "hello") ]> Sample.disk)
  /\ Run.outcome up w = inr tt
  /\ Run.outcome fetch (Run.after up w) = inr "/tmp/a.txt"
  /\ Fs.read_file (fs (Run.after fetch (Run.after up w))) "/tmp/a.txt"
     = inr (Sample.text "hello").
Proof.
  assert (H0 : Store.retain_truthy (_retain Sample.plain_store) = None) by reflexivity.
  assert (H1 : upload_fails Sample.env = false) by reflexivity.
  assert (H2 : Fs.read_file Sample.disk (OsPath.normpath "/home/u/data/a.txt")
               = inr (Sample.text "hello")) by (vm_compute; reflexivity).
  assert (H3 : OsPath.join (_path Sample.plain_store)
                 (Retention.upload_target "/home/u/data/a.txt" None) <> "")
    by (vm_compute; discriminate).
  assert (H4 : "any" <> Store.LATEST) by discriminate.
  assert (H5 : Fs.write_file Sample.disk (OsPath.join "/tmp" "a.txt")
                 (Sample.text "hello")
               = inr (<[ ["tmp"; "a.txt"] := File (Sample.text "hello") ]> Sample.disk))
    by (vm_compute; reflexivity).
  pose proof (upload_then_download_returns_file Sample.env Sample.plain_store
                "/home/u/data/a.txt" "/tmp" "any" None Sample.local_only
                (Sample.text "hello") _ H0 H1 H2 H3 H4 H5) as H.
  split; [exact H0|]. split; [exact H1|]. split; [exact H2|]. split; [exact H5|].
  exact H.
Defined.

(** ** What pruning guarantees *)

Module BoundFacts.
Import Run Retention StoreFacts IdempotenceFacts.


Lemma omap_length {A B} (f : A -> option B) (l : list A) :
  (length (omap f l) <= length l)%nat.
Proof.
  induction l as [|x l IH]; [reflexivity|].
  rewrite StoreFacts.omap_cons. destruct (f x); simpl; lia.
Qed.

Lemma drop_nonempty {A} (n : nat) (l : list A) : (n < length l)%nat -> drop n l <> [].
Proof.
  intros H E. apply (f_equal length) in E. rewrite length_drop in E. simpl in E. lia.
Qed.

End BoundFacts.





(** X10.  Whatever the store's retain count, [upload] never prunes away the
    object it has just stored when that object's key contains neither [deb]
    nor [tar.gz]: once the transfer has gone through the object is in the
    bucket, under the prefix joined with the target, with the file's
    contents. *)
Theorem upload_keeps_unmatched_object
  (env : Env) (self : BackupStore) (localpath : string) (target : option string)
  (c : content) (w : World) :
  Fs.read_file (fs w) (OsPath.normpath localpath) = inr c ->
  upload_fails env = false ->
  (forall p, In p Store.default_patterns ->
     PyStr.contains p (OsPath.join (_path self)
                         (Retention.upload_target localpath target)) = false) ->
  In (Retention.uploaded_object env self localpath target c)
     (bucket (Run.after (Store.upload env self localpath target) w)).
Proof.
  intros Hread Hup Hnone. unfold Run.after.
  rewrite TransferFacts.upload_run, Hread, Hup.
  assert (Hin : In (Retention.uploaded_object env self localpath target c)
                  (bucket (Retention.uploaded_world env self localpath target c w))).
  { cbn [bucket Retention.uploaded_world]. unfold S3.put_object.
    eapply Permutation_in; [symmetry; apply KeepsFacts.insert_by_key_perm|].
    now left. }
  destruct (Store.retain_truthy (_retain self)) as [r|]; [|exact Hin].
  fold (Run.after (Store._prune_bucket env self r Store.default_patterns)
          (Retention.uploaded_world env self localpath target c w)).
  rewrite StoreFacts.prune_bucket_bucket.
  apply PruneFacts.without_elem. split; [exact Hin|].
  intros Hk. apply PruneFacts.prune_calls_elem in Hk as (p & o & Hp & _ & Hm & Hf).
  unfold Store.matches in Hm. rewrite Hf in Hm.
  cbn [Key Retention.uploaded_object] in Hm. rewrite (Hnone p Hp) in Hm.
  discriminate.
Qed.

Lemma upload_keeps_unmatched_object_witness :
  let self := Store.init "backups" None None (Some 1) in
  let w := mkWorld Sample.disk Sample.ten_archives [] in
  Fs.read_file (fs w) (OsPath.normpath "/home/u/data/a.txt") = inr (Sample.text "hello")
  /\ upload_fails Sample.env = false
  /\ (forall p, In p Store.default_patterns ->
        PyStr.contains p (OsPath.join (_path self)
                            (Retention.upload_target "/home/u/data/a.txt"
                               (Some "data.tgz"))) = false)
  /\ In (Retention.uploaded_object Sample.env self "/home/u/data/a.txt"
           (Some "data.tgz") (Sample.text "hello"))
        (bucket (Run.after (Store.upload Sample.env self "/home/u/data/a.txt"
                              (Some "data.tgz")) w)).
Proof.
  assert (H0 : Fs.read_file Sample.disk (OsPath.normpath "/home/u/data/a.txt")
               = inr (Sample.text "hello")) by (vm_compute; reflexivity).
  assert (H1 : upload_fails Sample.env = false) by reflexivity.
  assert (H2 : forall p, In p Store.default_patterns ->
                 PyStr.contains p
                   (OsPath.join (_path (Store.init "backups" None None (Some 1)))
                      (Retention.upload_target "/home/u/data/a.txt"
                         (Some "data.tgz"))) = false).
  { intros p [<- | [<- | []]]; reflexivity. }
  split; [exact H0|]. split; [exact H1|]. split; [exact H2|].
  exact (upload_keeps_unmatched_object Sample.env _ "/home/u/data/a.txt"
           (Some "data.tgz") _ (mkWorld Sample.disk Sample.ten_archives [])
           H0 H1 H2).
Defined.

(** X11.  A run of [_prune_bucket] with a count [n] makes one listing call
    and then only delete calls, at most one per pattern; no delete call is
    empty, every key it names is the filename of a listed object, and the
    local disk is not touched. *)
Theorem prune_makes_wellformed_calls
  (env : Env) (self : BackupStore) (n : nat) (patterns : list string) (w : World) :
  let run := Store._prune_bucket env self (Z.of_nat n) patterns in
  exists calls,
    Run.new_events run w = EvListObjects (_path self) :: map EvDeleteObjects calls
    /\ (length calls <= length patterns)%nat
    /\ (forall keys, In keys calls ->
          keys <> []
          /\ forall k, In k keys -> In k (map filename (Retention.listing self w)))
    /\ fs (Run.after run w) = fs w.
Proof.
  intros run. subst run.
  exists (Retention.prune_calls (Z.of_nat n) patterns (Retention.listing self w)).
  split; [apply StoreFacts.prune_bucket_new_events|].
  split; [|split; [|apply StoreFacts.prune_bucket_fs]].
  - rewrite StoreFacts.prune_calls_category. apply BoundFacts.omap_length.
  - intros keys Hin. split.
    + rewrite StoreFacts.prune_calls_category in Hin.
      apply PruneFacts.omap_elem in Hin as (p & _ & Hcall).
      unfold Retention.category_call in Hcall.
      case_decide as Hlen; [|discriminate]. injection Hcall as <-.
      unfold Retention.overflow. intros E. apply map_eq_nil in E.
      now apply (BoundFacts.drop_nonempty n (Retention.category p
                                               (Retention.listing self w))).
    + intros k Hk.
      destruct (PruneFacts.prune_calls_elem (Z.of_nat n) patterns
                  (Retention.listing self w) k) as (p & o & _ & Ho & _ & <-).
      * apply in_concat. eauto.
      * now apply in_map.
Qed.

(** ** The workspace path is taken, or the target is no directory *)

Module StagingEdgeFacts.
Import Run Fs FsFacts.

Lemma init_taken env w n :
  node_at (fs w) (resolve (Staging.workspace env)) = Some n ->
  Staging.init env Staging.default_tmpdir w
  = (w, inl (OSError (Staging.workspace env))).
Proof.
  intros H. unfold Staging.init, Staging._initialize, bind, fs_op, makedirs.
  fold (Staging.workspace env). now rewrite H.
Qed.

Lemma node_at_insert_other (m : gmap (list string) node) k n k' :
  k' <> k -> node_at (<[k := n]> m) k' = node_at m k'.
Proof.
  intros H. destruct k'; [reflexivity|]. simpl. now rewrite lookup_insert_ne.
Qed.

End StagingEdgeFacts.

(** X12.  When the path of the staging workspace, [/tmp/] joined with the
    number drawn, already exists, [backup] and the orchestrator's [prune]
    both raise [OSError] from the constructor and do nothing else: nothing is
    staged, uploaded, listed or deleted, and the world is as before. *)
Theorem taken_workspace_stops_backup_and_prune
  (env : Env) (handler : BackupHandler) (w : World) (n : node) :
  Fs.node_at (fs w) (Fs.resolve (Staging.workspace env)) = Some n ->
  (forall backup_target rename_to,
      Handler.backup env handler backup_target rename_to w
      = (w, inl (OSError (Staging.workspace env))))
  /\ (forall retain,
         Handler.prune env handler retain w
         = (w, inl (OSError (Staging.workspace env)))).
Proof.
  intros H. split; intros; unfold Handler.backup, Handler.prune, with_;
    now rewrite (StagingEdgeFacts.init_taken env w n H).
Qed.

Lemma taken_workspace_stops_backup_and_prune_witness :
  let w := mkWorld (<[ ["tmp"; "123456789"] := Dir ]> Sample.disk)
                   Sample.ten_archives [] in
  Fs.node_at (fs w) (Fs.resolve (Staging.workspace Sample.env)) = Some Dir
  /\ Handler.prune Sample.env Sample.handler 5 w
     = (w, inl (OSError (Staging.workspace Sample.env))).
Proof.
  assert (H0 : Fs.node_at (<[ ["tmp"; "123456789"] := Dir ]> Sample.disk)
                 (Fs.resolve (Staging.workspace Sample.env)) = Some Dir)
    by (vm_compute; reflexivity).
  split; [exact H0|].
  exact (proj2 (taken_workspace_stops_backup_and_prune Sample.env Sample.handler
                  (mkWorld (<[ ["tmp"; "123456789"] := Dir ]> Sample.disk)
                     Sample.ten_archives []) Dir H0) 5).
Defined.

(** X13.  A [backup] configured with include patterns whose target is not a
    directory raises [Exception("Includes can only be used with with a
    directory.")]: with a free workspace path, the workspace is made and
    removed again, nothing is copied or uploaded, and disk and bucket end as
    they began. *)
Theorem backup_rejects_includes_without_directory
  (env : Env) (handler : BackupHandler) (backup_target rename_to : option string)
  (i : string) (rest : list string) (w : World) :
  let ws := Staging.workspace env in
  let target := Handler._get_dirname env
                  (Handler.py_format (Handler.py_or backup_target (backupdir handler))) in
  Fs.resolve ws <> [] ->
  Fs.subtree (fs w) (Fs.resolve ws) = [] ->
  (forall a, In a (Fs.prefixes (Fs.parent (Fs.resolve ws))) -> fs w !! a = Some Dir) ->
  includes handler = Some (i :: rest) ->
  Fs.isdir (fs w) target = false ->
  Fs.resolve target <> Fs.resolve ws ->
  Handler.backup env handler backup_target rename_to w
  = (mkWorld (fs w) (bucket w) (events w ++ [EvMakedirs ws; EvRmtree ws]),
     inl (Exception "Includes can only be used with with a directory.")).
Proof.
  intros ws target Hname Hfresh Habove Hinc Hdir Hne.
  unfold Handler.backup, with_.
  rewrite (HandlerPruneFacts.init_run env w Hname Hfresh Habove).
  fold target. unfold bind at 1, Staging.stage, bind at 1, fs_get.
  cbn [fs]. unfold Fs.isdir.
  rewrite StagingEdgeFacts.node_at_insert_other by assumption.
  unfold Fs.isdir in Hdir. rewrite Hdir, Hinc. simpl. unfold raise.
  rewrite (HandlerPruneFacts.exit_run env w Hname Hfresh).
  now rewrite <- app_assoc.
Qed.

Lemma backup_rejects_includes_without_directory_witness :
  let handler := mkBackupHandler Sample.plain_store (Some "/home/u/data/a.txt")
                   (Some ["*.txt"]) in
  let w := Sample.local_only in
  let ws := Staging.workspace Sample.env in
  Fs.resolve ws <> []
  /\ Fs.subtree (fs w) (Fs.resolve ws) = []
  /\ (forall a, In a (Fs.prefixes (Fs.parent (Fs.resolve ws))) -> fs w !! a = Some Dir)
  /\ includes handler = Some ["*.txt"]
  /\ Fs.isdir (fs w) "/home/u/data/a.txt" = false
  /\ Handler.backup Sample.env handler None None w
     = (mkWorld (fs w) (bucket w) (events w ++ [EvMakedirs ws; EvRmtree ws]),
        inl (Exception "Includes can only be used with with a directory.")).
Proof.
  assert (H0 : Fs.resolve (Staging.workspace Sample.env) <> [])
    by (vm_compute; discriminate).
  assert (H1 : Fs.subtree Sample.disk (Fs.resolve (Staging.workspace Sample.env)) = [])
    by (vm_compute; reflexivity).
  assert (H2 : forall a,
             In a (Fs.prefixes (Fs.parent (Fs.resolve (Staging.workspace Sample.env)))) ->
             Sample.disk !! a = Some Dir).
  { intros a Ha. vm_compute in Ha. destruct Ha as [<- | []]. vm_compute. reflexivity. }
  assert (H4 : Fs.isdir Sample.disk "/home/u/data/a.txt" = false)
    by (vm_compute; reflexivity).
  split; [exact H0|]. split; [exact H1|]. split; [exact H2|].
  split; [reflexivity|]. split; [exact H4|].
  apply (backup_rejects_includes_without_directory Sample.env
           (mkBackupHandler Sample.plain_store (Some "/home/u/data/a.txt")
              (Some ["*.txt"]))
           None None "*.txt" [] Sample.local_only H0 H1 H2 eq_refl H4).
  vm_compute. discriminate.
Defined.

(** ** What [restore] leaves on the disk *)

Module RestoreDiskFacts.
Import Run Keeps Fs FsFacts KeepsFacts.

Lemma is_file_insert (m : gmap (list string) node) k k' c :
  is_file_node (m !! k) = true -> is_file_node (<[k' := File c]> m !! k) = true.
Proof.
  intros H. destruct (decide (k' = k)) as [->|Hne].
  - now rewrite lookup_insert_eq.
  - now rewrite lookup_insert_ne.
Qed.

Lemma is_file_mkdir_p (m : gmap (list string) node) k k' :
  is_file_node (m !! k) = true -> is_file_node (mkdir_p m k' !! k) = true.
Proof.
  intros H. destruct (m !! k) as [n|] eqn:E; [|discriminate].
  now rewrite (mkdir_p_keeps m k' k n E).
Qed.

Lemma write_file_keeps_file k p c m m' :
  write_file m p c = inr m' ->
  is_file_node (m !! k) = true -> is_file_node (m' !! k) = true.
Proof.
  intros H Hk. apply RestoreFacts.write_file_inv in H as [-> _].
  now apply is_file_insert.
Qed.

Lemma put_node_keeps_file k p m k' n m' :
  put_node p m k' n = inr m' ->
  is_file_node (m !! k) = true -> is_file_node (m' !! k) = true.
Proof.
  unfold put_node. destruct (negb (no_file_above m k')); [discriminate|].
  intros H Hk.
  destruct n as [|c]; destruct (node_at m k') as [[|c']|]; try discriminate;
    injection H as <-;
    first [now apply is_file_mkdir_p | now apply is_file_insert, is_file_mkdir_p].
Qed.

Lemma put_nodes_keeps_file k p l : forall m base m',
  put_nodes p m base l = inr m' ->
  is_file_node (m !! k) = true -> is_file_node (m' !! k) = true.
Proof.
  induction l as [|[rel n] l IH]; intros m base m' H Hk.
  - now injection H as <-.
  - simpl in H.
    destruct (put_node p m (base ++ rel) n) as [e|m1] eqn:E; [discriminate|].
    apply (IH m1 base m' H). exact (put_node_keeps_file _ _ _ _ _ _ E Hk).
Qed.

Lemma disk_op_keeps_file k ev f :
  (forall m m', f m = inr m' ->
     is_file_node (m !! k) = true -> is_file_node (m' !! k) = true) ->
  invariant (file_at k) (fs_op ev f).
Proof.
  intros Hf w H. unfold after, fs_op, file_at in *.
  destruct (f (fs w)) as [e|m'] eqn:E; [exact H|]. simpl. exact (Hf _ _ E H).
Qed.

Lemma file_at_events k w evs :
  file_at k w -> file_at k (mkWorld (fs w) (bucket w) evs).
Proof. intros H. exact H. Qed.

(** The block of [restore] keeps a regular file where one is. *)
Lemma restore_block_keeps_file k env self f_name directory :
  invariant (file_at k)
    (Store.download env self Store.LATEST (OsPath.dirname f_name)
       (Some (PyStr.last_piece (PyStr.split_sep f_name))) ;;;
     Handler.extract f_name directory).
Proof.
  apply inv_bind; [|intros _].
  - unfold Store.download. rewrite String.eqb_refl.
    apply inv_bind; [|intros name].
    + apply inv_try_except; [|intros e; apply inv_raise].
      apply inv_bind; [|intros c; apply inv_unless_none].
      unfold Store.list_objects.
      apply inv_bind; [|intros raw].
      * intros w H. unfold after, S3.list_objects, bind, log_event. simpl.
        destruct (S3.listed _ _); exact H.
      * apply inv_bind; [apply inv_unless_none | intros c; apply inv_ret].
    + apply inv_bind; [|intros _; apply inv_ret].
      intros w H. unfold after, S3.download_file.
      destruct (List.find _ (bucket w)) as [o|]; [|exact H].
      apply (disk_op_keeps_file k _ _ (write_file_keeps_file k _ _) w H).
  - unfold Handler.extract, Handler.tarfile_open, fs_read.
    apply inv_bind; [apply inv_fs_get | intros d].
    apply inv_bind; [|intros members].
    + apply inv_bind; [apply inv_pure | intros [b|m]; (apply inv_ret || apply inv_raise)].
    + apply disk_op_keeps_file. intros m m' Hput.
      exact (put_nodes_keeps_file _ _ _ _ _ _ Hput).
Qed.

End RestoreDiskFacts.

(** X14.  [restore] never leaves its temporary file behind: once
    [NamedTemporaryFile] has made the file, whatever the download and the
    extraction do and however the call ends, nothing exists at the temporary
    file's path when [restore] is over. *)
Theorem restore_removes_its_tempfile
  (env : Env) (handler : BackupHandler) (directory : option string) (w : World)
  (m1 : gmap (list string) node) :
  Fs.write_file (fs w) (tempfile_name env) (Raw []) = inr m1 ->
  fs (Run.after (Handler.restore env handler directory) w)
    !! Fs.resolve (tempfile_name env) = None.
Proof.
  intros Hw. unfold Run.after, Handler.restore, with_.
  unfold Handler.NamedTemporaryFile at 1, bind at 1, fs_op at 1. rewrite Hw.
  unfold ret at 1.
  destruct (RestoreFacts.write_file_inv _ _ _ _ Hw) as [-> Hk].
  set (w1 := mkWorld _ _ _).
  pose proof (RestoreDiskFacts.restore_block_keeps_file
                (Fs.resolve (tempfile_name env)) env (store handler)
                (tempfile_name env)
                (Handler._get_dirname env
                   (Handler.py_format (Handler.py_or directory (backupdir handler))))
                w1) as Hkeep.
  unfold Keeps.invariant, Keeps.file_at, Run.after in Hkeep.
  destruct ((_ ;;; _) w1) as [w2 r]. cbn [fst] in Hkeep.
  assert (Hfile : Fs.is_file_node (fs w2 !! Fs.resolve (tempfile_name env)) = true).
  { apply Hkeep. unfold w1. cbn [fs]. now rewrite lookup_insert_eq. }
  unfold Handler.tempfile_close, fs_op, Fs.unlink.
  rewrite FsFacts.node_at_nonroot by assumption.
  destruct (fs w2 !! Fs.resolve (tempfile_name env)) as [[|c]|] eqn:E;
    try discriminate.
  cbn [fst fs]. apply lookup_delete_eq.
Qed.

Lemma restore_removes_its_tempfile_witness :
  let w := mkWorld Sample.disk Sample.two_archives [] in
  Fs.write_file (fs w) (tempfile_name Sample.env) (Raw [])
    = inr (<[ ["tmp"; "tmpab12cd"] := File (Raw []) ]> Sample.disk)
  /\ fs (Run.after (Handler.restore Sample.env Sample.handler None) w)
       !! Fs.resolve (tempfile_name Sample.env) = None.
Proof.
  assert (H0 : Fs.write_file Sample.disk (tempfile_name Sample.env) (Raw [])
               = inr (<[ ["tmp"; "tmpab12cd"] := File (Raw []) ]> Sample.disk))
    by (vm_compute; reflexivity).
  split; [exact H0|].
  exact (restore_removes_its_tempfile Sample.env Sample.handler None
           (mkWorld Sample.disk Sample.two_archives []) _ H0).
Defined.

(** X15.  What [restore] does when the key listed last does not resolve to
    the temporary file: it downloads the object of that key into the
    temporary file's directory under the key's own name, raises [ReadError]
    on opening the still empty temporary file, and removes the temporary
    file.  The disk ends as it began except for the downloaded file, which
    is left behind; the bucket is unchanged. *)
Theorem restore_leaves_download_behind
  (env : Env) (handler : BackupHandler) (directory : option string) (w : World)
  (o : S3Object) (m1 m2 : gmap (list string) node) :
  let tmp := tempfile_name env in
  let local := OsPath.join (OsPath.dirname tmp) (Key o) in
  fs w !! Fs.resolve tmp = None ->
  Fs.write_file (fs w) tmp (Raw []) = inr m1 ->
  NoDup (map Key (bucket w)) ->
  In o (bucket w) ->
  last (map filename (Retention.listing (store handler) w)) = Some (Key o) ->
  Fs.resolve local <> Fs.resolve tmp ->
  Fs.write_file m1 local (Body o) = inr m2 ->
  Handler.restore env handler directory w
  = (mkWorld (<[Fs.resolve local := File (Body o)]> (fs w)) (bucket w)
       (events w ++ [ EvWrite tmp; EvListObjects (_path (store handler));
                      EvDownloadFile (Key o) local; EvUnlink tmp ]),
     inl (ReadError tmp)).
Proof.
  intros tmp local Hfree Hw Hnd Hin Hlast Hother Hw2.
  unfold Handler.restore, with_.
  unfold Handler.NamedTemporaryFile at 1, bind at 1, fs_op at 1.
  fold tmp. rewrite Hw. unfold ret at 1.
  destruct (RestoreFacts.write_file_inv _ _ _ _ Hw) as [-> Hk].
  destruct (RestoreFacts.write_file_inv _ _ _ _ Hw2) as [E2 _].
  set (w1 := mkWorld _ _ _).
  unfold bind at 1. rewrite DownloadFacts.download_latest_run.
  change (Retention.listing (store handler) w1)
    with (Retention.listing (store handler) w).
  rewrite Hlast. unfold bind at 1, S3.download_file, ret.
  cbn [bucket Retention.listed_world w1].
  rewrite (TransferFacts.find_distinct o) by assumption.
  unfold fs_op at 1. cbn [fs Retention.listed_world w1]. fold local. rewrite Hw2.
  rewrite ExtractFacts.extract_run. cbv zeta.
  unfold bind, Handler.tarfile_open, bind, fs_read, Fs.read_file. cbn [fs].
  rewrite FsFacts.node_at_nonroot by assumption.
  rewrite E2, lookup_insert_ne by assumption. rewrite lookup_insert_eq.
  unfold raise, Handler.tempfile_close, fs_op, Fs.unlink. cbn [fs].
  rewrite FsFacts.node_at_nonroot by assumption.
  rewrite lookup_insert_ne by assumption. rewrite lookup_insert_eq.
  cbn [bucket events]. f_equal. f_equal.
  - rewrite delete_insert_ne by (intros E; now apply Hother).
    rewrite delete_insert_eq. now rewrite delete_id.
  - unfold Retention.listed_world, w1. cbn [events].
    rewrite <- !app_assoc. reflexivity.
Qed.

Lemma restore_leaves_download_behind_witness :
  let w := mkWorld Sample.disk Sample.two_archives [] in
  let o := mkS3Object "b.tar.gz" 10 "etag-b" 3 (TarGz []) in
  Handler.restore Sample.env Sample.handler None w
  = (mkWorld (<[ ["tmp"; "b.tar.gz"] := File (TarGz []) ]> Sample.disk)
       Sample.two_archives
       [ EvWrite "/tmp/tmpab12cd"; EvListObjects "";
         EvDownloadFile "b.tar.gz" "/tmp/b.tar.gz"; EvUnlink "/tmp/tmpab12cd" ],
     inl (ReadError "/tmp/tmpab12cd")).
Proof.
  assert (H0 : Sample.disk !! Fs.resolve (tempfile_name Sample.env) = None)
    by (vm_compute; reflexivity).
  assert (H1 : Fs.write_file Sample.disk (tempfile_name Sample.env) (Raw [])
               = inr (<[ ["tmp"; "tmpab12cd"] := File (Raw []) ]> Sample.disk))
    by (vm_compute; reflexivity).
  assert (H2 : NoDup (map Key Sample.two_archives)) by by_evaluation.
  assert (H3 : In (mkS3Object "b.tar.gz" 10 "etag-b" 3 (TarGz []))
                 Sample.two_archives) by (right; left; reflexivity).
  assert (H4 : last (map filename
                       (Retention.listing (store Sample.handler)
                          (mkWorld Sample.disk Sample.two_archives [])))
               = Some "b.tar.gz") by (vm_compute; reflexivity).
  assert (H5 : Fs.resolve "/tmp/b.tar.gz" <> Fs.resolve "/tmp/tmpab12cd")
    by (vm_compute; discriminate).
  assert (H6 : Fs.write_file (<[ ["tmp"; "tmpab12cd"] := File (Raw []) ]> Sample.disk)
                 "/tmp/b.tar.gz" (TarGz [])
               = inr (<[ ["tmp"; "b.tar.gz"] := File (TarGz []) ]>
                        (<[ ["tmp"; "tmpab12cd"] := File (Raw []) ]> Sample.disk)))
    by (vm_compute; reflexivity).
  exact (restore_leaves_download_behind Sample.env Sample.handler None
           (mkWorld Sample.disk Sample.two_archives [])
           (mkS3Object "b.tar.gz" 10 "etag-b" 3 (TarGz [])) _ _
           H0 H1 H2 H3 H4 H5 H6).
Defined.

(** ** The directory name the orchestrator works with *)

Module DirnameFacts.
Import PyStr OsPath.

Ltac step_append c p :=
  change (String c p +:+ "/") with (String c (p +:+ "/")).

Lemma append_sep_nonempty p : p +:+ "/" <> "".
Proof. destruct p; discriminate. Qed.

Lemma head_to_last_sep_trailing p : head_to_last_sep (p +:+ "/") = p +:+ "/".
Proof.
  induction p as [|c p IH]; [reflexivity|].
  step_append c p. cbn [head_to_last_sep]. rewrite IH.
  destruct (p +:+ "/") eqn:E; [now apply append_sep_nonempty in E | reflexivity].
Qed.

Lemma rstrip_sep_trailing p : rstrip_sep (p +:+ "/") = rstrip_sep p.
Proof.
  induction p as [|c p IH]; [reflexivity|].
  step_append c p. cbn [rstrip_sep]. now rewrite IH.
Qed.

Lemma lstrip_sep_trailing p : lstrip_sep p = "" -> lstrip_sep (p +:+ "/") = "".
Proof.
  induction p as [|c p IH]; [reflexivity|].
  step_append c p. cbn [lstrip_sep]. destruct (is_sep c); [exact IH | discriminate].
Qed.

Lemma lstrip_sep_trailing_rest p : lstrip_sep p <> "" -> lstrip_sep (p +:+ "/") <> "".
Proof.
  induction p as [|c p IH]; [intros H; now contradiction H|].
  step_append c p. cbn [lstrip_sep]. destruct (is_sep c); [exact IH | discriminate].
Qed.

(** [dirname] of a path with a slash appended. *)
Lemma dirname_trailing_sep p :
  dirname (p +:+ "/")
  = match lstrip_sep p with "" => p +:+ "/" | _ => rstrip_sep p end.
Proof.
  unfold dirname. cbv zeta. rewrite head_to_last_sep_trailing.
  destruct (lstrip_sep p) eqn:E.
  - now rewrite (lstrip_sep_trailing p E).
  - assert (H : lstrip_sep (p +:+ "/") <> "")
      by (apply lstrip_sep_trailing_rest; congruence).
    destruct (lstrip_sep (p +:+ "/")); [congruence|].
    apply rstrip_sep_trailing.
Qed.

Lemma expanduser_plain home_of p : startswith "~" p = false -> expanduser home_of p = p.
Proof.
  destruct p as [|c p]; [reflexivity|].
  unfold startswith. cbn [String.prefix].
  destruct (ascii_dec "~" c) as [<-|Hne].
  - destruct p; discriminate.
  - intros _. destruct c as [[] [] [] [] [] [] [] []]; try reflexivity.
    now contradiction Hne.
Qed.

Lemma startswith_tilde_trailing p :
  startswith "~" p = false -> startswith "~" (p +:+ "/") = false.
Proof.
  destruct p as [|c p]; [reflexivity|].
  step_append c p. unfold startswith. cbn [String.prefix].
  destruct (ascii_dec "~" c); [|reflexivity].
  destruct p; discriminate.
Qed.

(** Stripping leaves the first character of a path that is not all slashes,
    and nothing to strip. *)
Lemma rstrip_sep_nonempty p : lstrip_sep p <> "" -> rstrip_sep p <> "".
Proof.
  induction p as [|c p IH]; [intros H; now contradiction H|].
  cbn [lstrip_sep rstrip_sep]. destruct (is_sep c) eqn:Ec.
  - intros H. specialize (IH H). destruct (rstrip_sep p); [congruence | discriminate].
  - intros _. destruct (rstrip_sep p); discriminate.
Qed.

Lemma rstrip_sep_head c p :
  rstrip_sep (String c p) <> "" -> exists r, rstrip_sep (String c p) = String c r.
Proof.
  cbn [rstrip_sep]. destruct (rstrip_sep p) as [|c' r].
  - destruct (is_sep c); [congruence | eauto].
  - eauto.
Qed.

Lemma rstrip_sep_idem p : rstrip_sep (rstrip_sep p) = rstrip_sep p.
Proof.
  induction p as [|c p IH]; [reflexivity|].
  cbn [rstrip_sep]. destruct (rstrip_sep p) as [|c' r] eqn:E.
  - destruct (is_sep c) eqn:Ec; [reflexivity|].
    cbn [rstrip_sep]. now rewrite Ec.
  - change (rstrip_sep (String c (String c' r)))
      with (match rstrip_sep (String c' r) with
            | "" => if is_sep c then "" else String c ""
            | r' => String c r'
            end).
    now rewrite IH.
Qed.

Lemma lstrip_rstrip_nonempty p : lstrip_sep p <> "" -> lstrip_sep (rstrip_sep p) <> "".
Proof.
  induction p as [|c p IH]; [intros H; now contradiction H|].
  cbn [lstrip_sep rstrip_sep]. destruct (is_sep c) eqn:Ec.
  - intros H. specialize (IH H).
    destruct (rstrip_sep p) as [|c' r] eqn:E; [now cbn in IH|].
    cbn [lstrip_sep]. now rewrite Ec.
  - intros _. destruct (rstrip_sep p); cbn [lstrip_sep]; rewrite Ec; discriminate.
Qed.

Lemma startswith_tilde_rstrip p :
  startswith "~" p = false -> startswith "~" (rstrip_sep p) = false.
Proof.
  destruct p as [|c p]; [reflexivity|].
  destruct (rstrip_sep (String c p)) as [|c1 r] eqn:E; [reflexivity|].
  destruct (rstrip_sep_head c p) as [r' E']; [congruence|].
  rewrite E in E'. injection E' as -> ->.
  unfold startswith. cbn [String.prefix].
  destruct (ascii_dec "~" c); [|reflexivity].
  destruct p; discriminate.
Qed.

End DirnameFacts.

(** X16.  [_get_dirname] of a path that does not start with a tilde: when
    the path has a character other than a slash, the result is the path
    without its trailing slashes, and applying [_get_dirname] again changes
    nothing; when the path is empty or made of slashes only, the result is
    the path with one more slash, so the empty path gives the root. *)
Theorem get_dirname_strips_trailing_slashes (env : Env) (path : string) :
  PyStr.startswith "~" path = false ->
  (PyStr.lstrip_sep path <> "" ->
     Handler._get_dirname env path = PyStr.rstrip_sep path
     /\ Handler._get_dirname env (Handler._get_dirname env path)
        = Handler._get_dirname env path)
  /\ (PyStr.lstrip_sep path = "" -> Handler._get_dirname env path = path +:+ "/").
Proof.
  intros Ht.
  assert (Hd : forall p, PyStr.startswith "~" p = false ->
                 Handler._get_dirname env p
                 = match PyStr.lstrip_sep p with
                   | "" => p +:+ "/"
                   | _ => PyStr.rstrip_sep p
                   end).
  { intros p Hp. unfold Handler._get_dirname. cbv zeta.
    rewrite DirnameFacts.expanduser_plain
      by now apply DirnameFacts.startswith_tilde_trailing.
    apply DirnameFacts.dirname_trailing_sep. }
  split.
  - intros Hne.
    assert (H1 : Handler._get_dirname env path = PyStr.rstrip_sep path).
    { rewrite (Hd path Ht). destruct (PyStr.lstrip_sep path); congruence. }
    split; [exact H1|]. rewrite H1.
    rewrite (Hd _ (DirnameFacts.startswith_tilde_rstrip _ Ht)).
    pose proof (DirnameFacts.lstrip_rstrip_nonempty path Hne) as H2.
    destruct (PyStr.lstrip_sep (PyStr.rstrip_sep path)); [congruence|].
    apply DirnameFacts.rstrip_sep_idem.
  - intros He. rewrite (Hd path Ht). now rewrite He.
Qed.

Lemma get_dirname_strips_trailing_slashes_witness :
  PyStr.startswith "~" "/home/u/data//" = false
  /\ PyStr.lstrip_sep "/home/u/data//" <> ""
  /\ Handler._get_dirname Sample.env "/home/u/data//" = "/home/u/data"
  /\ Handler._get_dirname Sample.env
       (Handler._get_dirname Sample.env "/home/u/data//")
     = Handler._get_dirname Sample.env "/home/u/data//".
Proof.
  assert (H0 : PyStr.startswith "~" "/home/u/data//" = false) by reflexivity.
  assert (H1 : PyStr.lstrip_sep "/home/u/data//" <> "") by (vm_compute; discriminate).
  split; [exact H0|]. split; [exact H1|].
  exact (proj1 (get_dirname_strips_trailing_slashes Sample.env "/home/u/data//" H0) H1).
Defined.

(** ** What [compress] archives, [extract] restores *)

Module ArchiveFacts.
Import Fs.

(** Renaming the entries of a list with distinct names keeps the names
    distinct when the renaming is one to one on what it keeps. *)
Lemma NoDup_omap_fst {A B} (f : list string * A -> option (list string * B))
  (l : list (list string * A)) :
  (forall x y x' y', In x l -> In y l -> f x = Some x' -> f y = Some y' ->
     x'.1 = y'.1 -> x.1 = y.1) ->
  NoDup (map fst l) -> NoDup (map fst (omap f l)).
Proof.
  induction l as [|a l IH]; intros Hinj Hnd; [constructor|].
  rewrite StoreFacts.omap_cons. simpl in Hnd. apply NoDup_cons in Hnd as [Ha Hnd].
  assert (IH' : NoDup (map fst (omap f l))).
  { apply IH; [|exact Hnd]. intros x y x' y' Hx Hy.
    apply Hinj; now right. }
  destruct (f a) as [a'|] eqn:Ea; [|exact IH'].
  simpl. apply NoDup_cons. split; [|exact IH'].
  rewrite list_elem_of_In, in_map_iff. intros (y' & Ey & Hy').
  apply PruneFacts.omap_elem in Hy' as (y & Hy & Efy).
  apply Ha. rewrite list_elem_of_In, in_map_iff. exists y. split; [|exact Hy].
  symmetry. apply (Hinj a y a' y'); [now left | now right | exact Ea | exact Efy |].
  now symmetry.
Qed.

Lemma prefix_drop (k a b : list string) :
  k `prefix_of` a -> k `prefix_of` b ->
  drop (length k) a = drop (length k) b -> a = b.
Proof.
  intros [ra ->] [rb ->]. rewrite !drop_app_length. now intros ->.
Qed.

Lemma subtree_elem (m : gmap (list string) node) k rel n :
  In (rel, n) (subtree m k) <-> m !! (k ++ rel) = Some n.
Proof.
  unfold subtree. rewrite PruneFacts.omap_elem. split.
  - intros ([a n'] & Hin & Hf). cbn [fst snd] in Hf.
    destruct (decide (k `prefix_of` a)) as [[r ->]|]; [|discriminate].
    rewrite drop_app_length in Hf. injection Hf as <- <-.
    now apply list_elem_of_In, elem_of_map_to_list in Hin.
  - intros H. exists (k ++ rel, n). split.
    + now apply list_elem_of_In, elem_of_map_to_list.
    + cbn [fst snd]. rewrite decide_True by now exists rel.
      now rewrite drop_app_length.
Qed.

Lemma subtree_names (m : gmap (list string) node) k :
  NoDup (map fst (subtree m k)).
Proof.
  unfold subtree. apply NoDup_omap_fst; [|apply NoDup_fst_map_to_list].
  intros [a n] [b n'] x' y' _ _. cbn [fst snd].
  destruct (decide (k `prefix_of` a)) as [Ha|]; [|discriminate].
  destruct (decide (k `prefix_of` b)) as [Hb|]; [|discriminate].
  intros [= <-] [= <-]. cbn [fst]. now apply prefix_drop.
Qed.

(** The members [tar.add] writes have distinct names, and every node below
    the name added, the archive itself apart, is among them. *)
Lemma tar_add_names m name arcname tar_path members :
  Staging.tar_add m name arcname tar_path = inr members ->
  NoDup (map fst members).
Proof.
  unfold Staging.tar_add. destruct (node_at m (resolve name)); [|discriminate].
  intros [= <-]. apply NoDup_omap_fst; [|apply subtree_names].
  intros [a na] [b nb] x' y' _ _. cbn [fst snd].
  destruct (decide (resolve name ++ a = resolve tar_path)); [discriminate|].
  destruct (decide (resolve name ++ b = resolve tar_path)); [discriminate|].
  intros [= <-] [= <-]. cbn [fst]. now intros ?%app_inv_head.
Qed.

Lemma tar_add_elem m name arcname tar_path members rel n :
  Staging.tar_add m name arcname tar_path = inr members ->
  m !! (resolve name ++ rel) = Some n ->
  resolve name ++ rel <> resolve tar_path ->
  In (resolve arcname ++ rel, Staging.as_member n) members.
Proof.
  unfold Staging.tar_add. destruct (node_at m (resolve name)); [|discriminate].
  intros [= <-] Hn Hne. apply PruneFacts.omap_elem. exists (rel, n). split.
  - now apply subtree_elem.
  - cbn [fst snd]. now rewrite decide_False.
Qed.

(** Unpacking what [tar.add] wrote puts every file it archived under the
    archive name, below the directory unpacked into. *)
Lemma tar_add_put_nodes m name arcname tar_path members d m0 m' rel c :
  Staging.tar_add m name arcname tar_path = inr members ->
  put_nodes d m0 (resolve d)
    (map (fun kv => (kv.1, Handler.as_node kv.2)) members) = inr m' ->
  m !! (resolve name ++ rel) = Some (File c) ->
  resolve name ++ rel <> resolve tar_path ->
  m' !! (resolve d ++ resolve arcname ++ rel) = Some (File c).
Proof.
  intros Hadd Hput Hn Hne.
  apply (ExtractFacts.put_nodes_file _ _ _ _ _ (resolve arcname ++ rel) c Hput).
  - rewrite ExtractFacts.as_node_names. exact (tar_add_names _ _ _ _ _ Hadd).
  - apply in_map_iff. exists (resolve arcname ++ rel, Some c). split; [reflexivity|].
    exact (tar_add_elem _ _ _ _ _ _ _ Hadd Hn Hne).
Qed.

(** A [compress] that returns has written the members of its target into
    the archive at the path it returns. *)
Lemma compress_inv env self rename_to w w1 stage' :
  Staging.compress env self rename_to w = (w1, inr stage') ->
  exists tar_path src arcname members,
    Staging.targetpath self = Some src
    /\ Staging.target_name self = Some arcname
    /\ Staging.targetpath stage' = Some tar_path
    /\ resolve tar_path <> []
    /\ Staging.tar_add (<[resolve tar_path := File (Raw [])]> (fs w))
         src arcname tar_path = inr members
    /\ fs w1 = <[resolve tar_path := File (TarGz members)]>
                 (<[resolve tar_path := File (Raw [])]> (fs w)).
Proof.
  unfold Staging.compress. intros H.
  set (tar_name := match rename_to with
                   | Some (String c r) => ret (String c r)
                   | _ => n <- Staging.attr "target_name" (Staging.target_name self) ;;
                          ret (n +:+ ".tgz")
                   end) in H.
  unfold bind at 1 in H.
  destruct (tar_name w) as [w0 [e|name]] eqn:En; [discriminate|].
  assert (Ew0 : w0 = w).
  { unfold tar_name, Staging.attr, unless_none, bind, ret, raise in En.
    destruct rename_to as [[|c r]|]; destruct (Staging.target_name self);
      congruence. }
  subst w0. cbv zeta in H.
  unfold bind at 1, fs_op at 1 in H.
  destruct (write_file (fs w) _ (Raw [])) as [e|m1] eqn:Ew; [discriminate|].
  destruct (RestoreFacts.write_file_inv _ _ _ _ Ew) as [-> Hk].
  unfold Staging.attr, unless_none in H.
  destruct (Staging.targetpath self) as [src|]; [|discriminate].
  destruct (Staging.target_name self) as [arcname|]; [|discriminate].
  unfold bind, ret, raise in H. cbn [fs] in H.
  destruct (Staging.tar_add _ src arcname _) as [e|members] eqn:Ea; [discriminate|].
  destruct (disk_full env); [discriminate|].
  unfold fs_op in H. cbn [fs] in H.
  destruct (write_file _ _ (TarGz members)) as [e|m2] eqn:Ew2; [discriminate|].
  destruct (RestoreFacts.write_file_inv _ _ _ _ Ew2) as [-> _].
  injection H as <- <-.
  exists (OsPath.join (Staging.tmpdir self) name), src, arcname, members.
  repeat split; try reflexivity; assumption.
Qed.

End ArchiveFacts.

(** X17.  What [compress] archives, [extract] restores.  When [compress]
    has returned and [extract] is then given the archive path the stage
    reports, and returns, every regular file that was at or below the staged
    target (the archive itself apart) is found, with the same contents,
    below the directory unpacked into, under the archive name followed by
    the file's path relative to the target. *)
Theorem compress_then_extract_restores_files
  (env : Env) (stage stage' : Staging.t) (rename_to : option string)
  (directory src arcname tar_path : string) (w w1 w2 : World) :
  Staging.targetpath stage = Some src ->
  Staging.target_name stage = Some arcname ->
  Staging.compress env stage rename_to w = (w1, inr stage') ->
  Staging.path stage' w1 = (w1, inr tar_path) ->
  Handler.extract tar_path directory w1 = (w2, inr tt) ->
  forall rel c,
    fs w !! (Fs.resolve src ++ rel) = Some (File c) ->
    Fs.resolve src ++ rel <> Fs.resolve tar_path ->
    fs w2 !! (Fs.resolve (Handler.extract_directory (fs w1) directory)
                ++ Fs.resolve arcname ++ rel) = Some (File c).
Proof.
  intros Hsrc Hname Hc Hp He rel c Hrel Hne.
  destruct (ArchiveFacts.compress_inv _ _ _ _ _ _ Hc)
    as (tp & src' & arc' & members & Hs' & Hn' & Htp & Hk & Hadd & Hfs).
  rewrite Hsrc in Hs'. injection Hs' as <-.
  rewrite Hname in Hn'. injection Hn' as <-.
  unfold Staging.path, Staging.attr in Hp. rewrite Htp in Hp.
  cbv [unless_none ret] in Hp. injection Hp as <-.
  rewrite ExtractFacts.extract_run in He. cbv zeta in He. unfold bind in He.
  rewrite (ExtractFacts.tarfile_open_run tp w1 members) in He.
  2: { unfold Fs.read_file. rewrite FsFacts.node_at_nonroot by assumption.
       now rewrite Hfs, lookup_insert_eq. }
  unfold fs_op in He.
  destruct (Fs.put_nodes _ (fs w1) _ _) as [e|m'] eqn:Eput; [discriminate|].
  injection He as <-. cbn [fs].
  apply (ArchiveFacts.tar_add_put_nodes _ _ _ _ _ _ _ _ _ _ Hadd Eput);
    [|exact Hne].
  rewrite lookup_insert_ne by congruence. exact Hrel.
Qed.

Lemma compress_then_extract_restores_files_witness :
  let w1 := (Staging.compress Sample.env Staged.stage None Staged.world).1 in
  let w2 := (Handler.extract "/tmp/123456789/data.tgz" "/srv/x" w1).1 in
  Staging.compress Sample.env Staged.stage None Staged.world
    = (w1, inr Staged.compressed)
  /\ Handler.extract "/tmp/123456789/data.tgz" "/srv/x" w1 = (w2, inr tt)
  /\ fs w2 !! (Fs.resolve (Handler.extract_directory (fs w1) "/srv/x")
                 ++ Fs.resolve "data" ++ ["sub"; "b.txt"])
     = Some (File (Sample.text "world")).
Proof.
  intros w1 w2.
  assert (Hc : Staging.compress Sample.env Staged.stage None Staged.world
               = (w1, inr Staged.compressed)) by (vm_compute; reflexivity).
  assert (Hp : Staging.path Staged.compressed w1
               = (w1, inr "/tmp/123456789/data.tgz")) by reflexivity.
  assert (He : Handler.extract "/tmp/123456789/data.tgz" "/srv/x" w1 = (w2, inr tt))
    by (vm_compute; reflexivity).
  split; [exact Hc|]. split; [exact He|].
  apply (compress_then_extract_restores_files Sample.env Staged.stage
           Staged.compressed None "/srv/x" "/tmp/123456789/data" "data"
           "/tmp/123456789/data.tgz" Staged.world w1 w2
           eq_refl eq_refl Hc Hp He ["sub"; "b.txt"] (Sample.text "world")).
  - vm_compute. reflexivity.
  - vm_compute. discriminate.
Defined.

(** ** Deleting *)

(** X18.  [delete], given a [Collection], a list or a single object, makes
    one [delete_objects] call naming the filenames and returns.  Afterwards
    the bucket holds exactly the objects it held whose key is not among
    those filenames, whether or not they are under the store's prefix; the
    listing is the old listing without them, in the old order; a download by
    name of a deleted filename raises [ClientError]; the disk is not
    touched. *)
Theorem delete_removes_exactly_named
  (env : Env) (self : BackupStore) (collection : Store.deletable) (w : World) :
  let names := match collection with
               | Store.OfCollection c => Collection.filenames c
               | Store.OfSequence l => map filename l
               | Store.OfObject o => [filename o]
               end in
  let run := Store.delete self collection in
  let w1 := Run.after run w in
  Run.outcome run w = inr tt
  /\ fs w1 = fs w
  /\ Run.new_events run w = [EvDeleteObjects names]
  /\ (forall o, In o (bucket w1) <-> In o (bucket w) /\ ~ In (Key o) names)
  /\ Retention.listing self w1
     = List.filter (Retention.survives names) (Retention.listing self w)
  /\ forall t dir name,
       t <> Store.LATEST -> name <> "" -> In name names ->
       Store.download env self t dir (Some name) w1 = (w1, inl (ClientError name)).
Proof.
  intros names run w1.
  assert (Hrun : run w = (mkWorld (fs w) (Retention.without names (bucket w))
                            (events w ++ [EvDeleteObjects names]), inr tt)).
  { subst run names. destruct collection as [[l]|l|o]; reflexivity. }
  assert (Hb : bucket w1 = Retention.without names (bucket w)).
  { subst w1. unfold Run.after. now rewrite Hrun. }
  split; [unfold Run.outcome; now rewrite Hrun|].
  split; [subst w1; unfold Run.after; now rewrite Hrun|].
  split.
  { unfold Run.new_events, Run.after. rewrite Hrun. cbn [fst events].
    now rewrite drop_app_length. }
  split; [intros o; rewrite Hb; apply PruneFacts.without_elem|].
  split.
  { rewrite (IdempotenceFacts.listing_without self names w1 (bucket w) Hb).
    reflexivity. }
  intros t dir name Ht Hne Hin.
  destruct name as [|c name]; [congruence|].
  rewrite (TransferFacts.download_named_run env self t dir c name w1 Ht).
  unfold bind, S3.download_file.
  rewrite TransferFacts.find_absent; [reflexivity|].
  intros o Ho E. rewrite Hb in Ho. apply PruneFacts.without_elem in Ho as [_ Ho].
  apply Ho. now rewrite E.
Qed.

(** ** The name an archive is uploaded under *)

Module NameFacts.
Import PyStr OsPath.

Lemma split_sep_nonempty s : split_sep s <> [].
Proof.
  destruct s as [|c s]; [discriminate|]. cbn [split_sep].
  destruct (is_sep c); [discriminate|]. destruct (split_sep s); discriminate.
Qed.

(** [(a + "/" + b).split("/")] is [a.split("/") + b.split("/")]. *)
Lemma split_sep_app a b :
  split_sep (a +:+ String sep b) = split_sep a ++ split_sep b.
Proof.
  induction a as [|c a IH]; [reflexivity|].
  change (String c a +:+ String sep b) with (String c (a +:+ String sep b)).
  cbn [split_sep]. rewrite IH. destruct (is_sep c); [reflexivity|].
  pose proof (split_sep_nonempty a) as Hne.
  destruct (split_sep a); [congruence | reflexivity].
Qed.

(** A string without a slash splits into itself. *)
Lemma split_sep_plain_cons c s :
  split_sep (String c s) = [String c s] -> is_sep c = false /\ split_sep s = [s].
Proof.
  cbn [split_sep]. destruct (is_sep c).
  - intros H. injection H as H _. discriminate.
  - pose proof (split_sep_nonempty s) as Hne.
    destruct (split_sep s) as [|x l]; [congruence|].
    intros [= -> ->]. auto.
Qed.

Lemma split_sep_plain_app a b :
  split_sep a = [a] -> split_sep b = [b] -> split_sep (a +:+ b) = [a +:+ b].
Proof.
  induction a as [|c a IH]; intros Ha Hb; [exact Hb|].
  apply split_sep_plain_cons in Ha as [Hc Ha].
  change (String c a +:+ b) with (String c (a +:+ b)).
  cbn [split_sep]. now rewrite Hc, (IH Ha Hb).
Qed.

(** The pieces of a split have no slash. *)
Lemma split_sep_pieces s x : In x (split_sep s) -> split_sep x = [x].
Proof.
  revert x. induction s as [|c s IH]; intros x.
  - intros [<- | []]. reflexivity.
  - cbn [split_sep]. destruct (is_sep c) eqn:Ec.
    + intros [<- | Hin]; [reflexivity | now apply IH].
    + pose proof (split_sep_nonempty s) as Hne.
      destruct (split_sep s) as [|y l] eqn:Es; [congruence|].
      intros [<- | Hin].
      * cbn [split_sep]. rewrite Ec. now rewrite (IH y (or_introl eq_refl)).
      * apply IH. now right.
Qed.

Lemma last_piece_in l : l <> [] -> In (last_piece l) l.
Proof.
  unfold last_piece. induction l as [|x l IH]; [congruence|]. intros _.
  destruct l as [|y l]; [now left|]. right. apply IH. discriminate.
Qed.

Lemma last_piece_snoc l x : last_piece (l ++ [x]) = x.
Proof. unfold last_piece. apply last_last. Qed.

Lemma last_piece_plain s : split_sep (last_piece (split_sep s)) = [last_piece (split_sep s)].
Proof. apply (split_sep_pieces s), last_piece_in, split_sep_nonempty. Qed.

Lemma append_assoc (a b c : string) : (a +:+ b) +:+ c = a +:+ b +:+ c.
Proof.
  induction a as [|x a IH]; [reflexivity|].
  change (String x a +:+ b) with (String x (a +:+ b)).
  change (String x (a +:+ b) +:+ c) with (String x ((a +:+ b) +:+ c)).
  now rewrite IH.
Qed.

Lemma append_nonempty (a b : string) : b <> "" -> a +:+ b <> "".
Proof. destruct a; [trivial | discriminate]. Qed.

(** After a prefix that is empty or ends in a slash, a name without a slash
    is the last piece. *)
Lemma split_sep_after z x :
  z = "" \/ (exists q, z = q +:+ "/") -> split_sep x = [x] ->
  exists l, split_sep (z +:+ x) = l ++ [x].
Proof.
  intros [-> | [q ->]] Hx.
  - exists []. exact Hx.
  - exists (split_sep q). rewrite append_assoc.
    change ("/" +:+ x) with (String sep x). now rewrite split_sep_app, Hx.
Qed.

Lemma last_split_after z x :
  z = "" \/ (exists q, z = q +:+ "/") -> split_sep x = [x] ->
  last_piece (split_sep (z +:+ x)) = x.
Proof.
  intros Hz Hx. destruct (split_sep_after z x Hz Hx) as [l ->].
  apply last_piece_snoc.
Qed.

(** The component loop, run over a list in two parts. *)
Lemma norm_comps_app absolute l : forall acc,
  exists acc', forall r,
    norm_comps absolute acc (l ++ r) = norm_comps absolute acc' r.
Proof.
  induction l as [|a l IH]; intros acc; [now exists acc|].
  cbn [app norm_comps].
  destruct (String.eqb a "" || String.eqb a "."); [apply IH|].
  destruct (negb (String.eqb a "..")); [apply IH|].
  destruct acc as [|top below]; [destruct absolute; apply IH|].
  destruct (String.eqb top ".."); apply IH.
Qed.

Lemma norm_comps_name absolute acc x :
  x <> "" -> x <> "." -> x <> ".." ->
  norm_comps absolute acc [x; ""] = rev acc ++ [x].
Proof.
  intros H0 H1 H2. cbn [norm_comps].
  apply String.eqb_neq in H0, H1, H2. rewrite H0, H1, H2. reflexivity.
Qed.

Lemma join_sep_snoc ys x :
  exists z, (z = "" \/ exists q, z = q +:+ "/") /\ join_sep (ys ++ [x]) = z +:+ x.
Proof.
  induction ys as [|y ys (z & Hz & E)]; [exists ""; auto|].
  assert (Hj : join_sep ((y :: ys) ++ [x]) = y +:+ String sep (join_sep (ys ++ [x]))).
  { cbn [app join_sep]. destruct (ys ++ [x]) eqn:El; [|reflexivity].
    now destruct ys. }
  rewrite Hj, E. destruct Hz as [-> | [q ->]].
  - exists (y +:+ "/"). split; [eauto|]. now rewrite append_assoc.
  - exists ((y +:+ String sep q) +:+ "/"). split; [eauto|].
    now rewrite !append_assoc.
Qed.

(** The last component of a normalised path that ends in a plain name,
    with or without a slash after it. *)
Lemma normpath_name z x :
  z = "" \/ (exists q, z = q +:+ "/") -> split_sep x = [x] ->
  x <> "" -> x <> "." -> x <> ".." ->
  last_piece (split_sep (normpath ((z +:+ x) +:+ "/"))) = x.
Proof.
  intros Hz Hx H0 H1 H2.
  destruct (split_sep_after z x Hz Hx) as [l El].
  assert (Es : split_sep ((z +:+ x) +:+ "/") = l ++ [x; ""]).
  { change "/" with (String sep ""). rewrite split_sep_app, El.
    now rewrite <- app_assoc. }
  unfold normpath.
  destruct ((z +:+ x) +:+ "/") as [|c p] eqn:Ep.
  { exfalso. revert Ep. apply append_nonempty. discriminate. }
  cbv zeta. rewrite Es.
  destruct (norm_comps_app (startswith "/" (String c p)) l []) as [acc' ->].
  rewrite (norm_comps_name _ _ _ H0 H1 H2).
  destruct (join_sep_snoc (rev acc') x) as (z2 & Hz2 & ->).
  set (initial := if startswith "/" (String c p)
                  then if startswith "//" (String c p)
                          && negb (startswith "///" (String c p))
                       then "//" else "/"
                  else "").
  assert (Hi : initial +:+ z2 = "" \/ exists q, initial +:+ z2 = q +:+ "/").
  { destruct Hz2 as [-> | [q ->]].
    - subst initial. destruct (startswith "/" (String c p)); [|now left].
      right. destruct (_ && _); [now exists "/" | now exists ""].
    - right. exists (initial +:+ q). now rewrite append_assoc. }
  rewrite <- append_assoc.
  destruct ((initial +:+ z2) +:+ x) as [|c' r] eqn:Er.
  { exfalso. revert Er. now apply append_nonempty. }
  rewrite <- Er. now apply last_split_after.
Qed.

(** A path that [rstrip] shortens ends in a slash. *)
Lemma rstrip_sep_ends t : rstrip_sep t <> t -> exists q, t = q +:+ "/".
Proof.
  induction t as [|c t IH]; [intros H; now contradiction H|].
  cbn [rstrip_sep]. destruct (string_dec (rstrip_sep t) t) as [E|E].
  - rewrite E. destruct t as [|c' t].
    + destruct (is_sep c) eqn:Ec; [|intros H; now contradiction H]. intros _.
      apply Ascii.eqb_eq in Ec. subst c. now exists "".
    + intros H. now contradiction H.
  - intros _. destruct (IH E) as [q ->]. now exists (String c q).
Qed.

(** [join] puts a name that does not start with a slash after a prefix that
    is empty or ends in a slash. *)
Lemma join_name t x :
  startswith "/" x = false ->
  exists z, (z = "" \/ exists q, z = q +:+ "/") /\ join t x = z +:+ x.
Proof.
  intros Hx. unfold join. rewrite Hx.
  destruct t as [|c t]; [exists ""; auto|].
  destruct (String.eqb_spec (rstrip_sep (String c t)) (String c t)) as [E|E].
  - exists (String c t +:+ "/"). split; [eauto|]. now rewrite append_assoc.
  - destruct (rstrip_sep_ends _ E) as [q ->]. eauto.
Qed.

Lemma plain_not_absolute x : split_sep x = [x] -> startswith "/" x = false.
Proof.
  destruct x as [|c x]; [reflexivity|].
  intros [Hc _]%split_sep_plain_cons.
  unfold startswith. cbn [String.prefix].
  destruct (ascii_dec "/" c) as [<-|]; [discriminate | reflexivity].
Qed.

(** The name of the archive [compress] writes when it is not told one. *)
Lemma tgz_plain n : split_sep n = [n] -> split_sep (n +:+ ".tgz") = [n +:+ ".tgz"].
Proof. intros H. now apply split_sep_plain_app. Qed.

Lemma length_append (a b : string) :
  String.length (a +:+ b) = (String.length a + String.length b)%nat.
Proof.
  induction a as [|c a IH]; [reflexivity|].
  change (String c a +:+ b) with (String c (a +:+ b)). simpl. now rewrite IH.
Qed.

Lemma tgz_name n : n +:+ ".tgz" <> "" /\ n +:+ ".tgz" <> "." /\ n +:+ ".tgz" <> "..".
Proof.
  assert (H : forall s, String.length (n +:+ ".tgz") = String.length s ->
                (4 <= String.length s)%nat).
  { intros s <-. rewrite length_append. simpl. lia. }
  repeat split; intros E; specialize (H _ (f_equal String.length E));
    simpl in H; lia.
Qed.

Ltac split_prefix s :=
  let c := fresh "c" in
  destruct s as [|c s];
  [ vm_compute; reflexivity
  | change (String c s +:+ ".tgz") with (String c (s +:+ ".tgz"));
    cbn [String.prefix];
    destruct (ascii_dec _ c); [|reflexivity] ].

Lemma prefix_deb_tgz s : String.prefix "deb" (s +:+ ".tgz") = String.prefix "deb" s.
Proof. do 3 (split_prefix s). now destruct s. Qed.

Lemma prefix_targz_tgz s :
  String.prefix "tar.gz" (s +:+ ".tgz") = String.prefix "tar.gz" s.
Proof. do 6 (split_prefix s). now destruct s. Qed.

(** The ending [.tgz] adds no match of a category pattern. *)
Lemma contains_tgz p s :
  In p Store.default_patterns -> contains p (s +:+ ".tgz") = contains p s.
Proof.
  intros Hp.
  assert (Hpre : forall s, String.prefix p (s +:+ ".tgz") = String.prefix p s).
  { destruct Hp as [<- | [<- | []]]; [apply prefix_deb_tgz | apply prefix_targz_tgz]. }
  induction s as [|c s IH].
  - destruct Hp as [<- | [<- | []]]; reflexivity.
  - change (String c s +:+ ".tgz") with (String c (s +:+ ".tgz")).
    cbn [contains]. rewrite IH. f_equal.
    exact (Hpre (String c s)).
Qed.

End NameFacts.

Module BackupRunFacts.
Import PyStr OsPath.

Lemma bind_inv {A B} (m : M A) (k : A -> M B) w w' v :
  bind m k w = (w', inr v) -> exists w1 a, m w = (w1, inr a) /\ k a w1 = (w', inr v).
Proof.
  unfold bind. destruct (m w) as [w1 [e|a]]; [discriminate|]. eauto.
Qed.

Lemma with_inv {A B} (enter : M A) (leave : A -> M unit) (body : A -> M B) w w' v :
  with_ enter leave body w = (w', inr v) ->
  exists w1 a w2,
    enter w = (w1, inr a) /\ body a w1 = (w2, inr v) /\ leave a w2 = (w', inr tt).
Proof.
  unfold with_. destruct (enter w) as [w1 [e|a]]; [discriminate|].
  destruct (body a w1) as [w2 r] eqn:Eb.
  destruct (leave a w2) as [w3 [e|[]]] eqn:El; [discriminate|].
  intros [= <- ->]. exists w1, a, w2. auto.
Qed.

(** What [stage] has set when it returns. *)
Lemma stage_result env self target includes w w1 s1 :
  Staging.stage env self target includes w = (w1, inr s1) ->
  Staging.tmpdir s1 = Staging.tmpdir self
  /\ Staging.target_name s1
     = Some (last_piece (split_sep (normpath (target +:+ "/")))).
Proof.
  unfold Staging.stage. intros H.
  apply bind_inv in H as (w0 & d & _ & H).
  destruct (negb d && _); [discriminate|].
  apply bind_inv in H as (w2 & u & _ & H).
  injection H as _ <-. split; reflexivity.
Qed.

(** What [compress] has set when it returns without a name to rename to. *)
Lemma compress_result env self n w w1 s1 :
  Staging.target_name self = Some n ->
  Staging.compress env self None w = (w1, inr s1) ->
  Staging.targetpath s1 = Some (join (Staging.tmpdir self) (n +:+ ".tgz"))
  /\ bucket w1 = bucket w.
Proof.
  intros Hn H.
  assert (Hb : bucket w1 = bucket w).
  { pose proof (KeepsFacts.inv_compress (Keeps.bucket_is (bucket w))
                  (KeepsFacts.bucket_is_bucket_only _) env self None w eq_refl) as Hk.
    unfold Run.after in Hk. now rewrite H in Hk. }
  split; [|exact Hb].
  unfold Staging.compress in H. rewrite Hn in H.
  apply bind_inv in H as (w0 & name & En & H).
  unfold Staging.attr, unless_none, bind, ret in En. injection En as _ <-.
  cbv zeta in H.
  repeat (apply bind_inv in H as (? & ? & _ & H)).
  now injection H as _ <-.
Qed.

(** An [upload] that returns has stored the object, and keeps it when its
    key is in no category. *)
Lemma upload_returns_keeps env self localpath target w w' :
  Store.upload env self localpath target w = (w', inr tt) ->
  (forall p, In p Store.default_patterns ->
     contains p (join (_path self) (Retention.upload_target localpath target)) = false) ->
  exists c, In (Retention.uploaded_object env self localpath target c) (bucket w').
Proof.
  intros H Hnone. rewrite TransferFacts.upload_run in H.
  destruct (Fs.read_file (fs w) (normpath localpath)) as [e|c]; [discriminate|].
  destruct (upload_fails env); [discriminate|].
  exists c.
  assert (Hin : In (Retention.uploaded_object env self localpath target c)
                  (bucket (Retention.uploaded_world env self localpath target c w))).
  { cbn [bucket Retention.uploaded_world]. unfold S3.put_object.
    eapply Permutation_in; [symmetry; apply KeepsFacts.insert_by_key_perm|].
    now left. }
  destruct (Store.retain_truthy (_retain self)) as [r|];
    [|now injection H as <-].
  assert (Ew : w' = Run.after (Store._prune_bucket env self r Store.default_patterns)
                     (Retention.uploaded_world env self localpath target c w)).
  { unfold Run.after. now rewrite H. }
  rewrite Ew, StoreFacts.prune_bucket_bucket.
  apply PruneFacts.without_elem. split; [exact Hin|].
  intros Hk. apply PruneFacts.prune_calls_elem in Hk as (p & o & Hp & _ & Hm & Hf).
  unfold Store.matches in Hm. rewrite Hf in Hm.
  cbn [Key Retention.uploaded_object] in Hm. rewrite (Hnone p Hp) in Hm.
  discriminate.
Qed.

Lemma join_append a n s :
  startswith "/" n = false -> startswith "/" (n +:+ s) = false ->
  join a (n +:+ s) = join a n +:+ s.
Proof.
  intros Hn Hs. unfold join. rewrite Hn, Hs.
  destruct a as [|c a]; [reflexivity|].
  destruct (String.eqb _ _); now rewrite !NameFacts.append_assoc.
Qed.

End BackupRunFacts.

(** X19.  The archive of a [backup] without [rename_to] is uploaded under
    the store's prefix joined with the target's last component followed by
    [.tgz], and that ending adds no match of [deb] or [tar.gz].  So when the
    prefix joined with the component contains neither, a [backup] that
    returns leaves its archive in the bucket whatever the store's retain
    count: the pruning [upload] runs never applies to it. *)
Theorem backup_archive_escapes_retention
  (env : Env) (handler : BackupHandler) (backup_target : option string)
  (w w' : World) :
  let target := Handler._get_dirname env
                  (Handler.py_format (Handler.py_or backup_target (backupdir handler))) in
  let n := PyStr.last_piece (PyStr.split_sep (OsPath.normpath (target +:+ "/"))) in
  let key := OsPath.join (_path (store handler)) (n +:+ ".tgz") in
  Handler.backup env handler backup_target None w = (w', inr tt) ->
  (forall p, In p Store.default_patterns ->
     PyStr.contains p (OsPath.join (_path (store handler)) n) = false) ->
  (forall p, In p Store.default_patterns -> PyStr.contains p key = false)
  /\ exists c,
       In (mkS3Object key (upload_time env) (upload_etag env) (upload_size env) c)
          (bucket w').
Proof.
  intros target n key Hrun Hnone.
  assert (Hplain : PyStr.split_sep n = [n]) by apply NameFacts.last_piece_plain.
  assert (Htgz : PyStr.split_sep (n +:+ ".tgz") = [n +:+ ".tgz"])
    by now apply NameFacts.tgz_plain.
  destruct (NameFacts.tgz_name n) as (N0 & N1 & N2).
  assert (Hkey : forall p, In p Store.default_patterns -> PyStr.contains p key = false).
  { intros p Hp. subst key.
    rewrite BackupRunFacts.join_append by now apply NameFacts.plain_not_absolute.
    rewrite NameFacts.contains_tgz by exact Hp. now apply Hnone. }
  split; [exact Hkey|].
  unfold Handler.backup in Hrun. cbv zeta in Hrun. fold target in Hrun.
  apply BackupRunFacts.with_inv in Hrun as (w0 & s0 & w4 & _ & Hbody & Hexit).
  assert (Hb : bucket w' = bucket w4).
  { pose proof (KeepsFacts.inv_exit (Keeps.bucket_is (bucket w4))
                  (KeepsFacts.bucket_is_bucket_only _) s0 w4 eq_refl) as Hk.
    unfold Run.after in Hk. now rewrite Hexit in Hk. }
  apply BackupRunFacts.bind_inv in Hbody as (w1 & s1 & Hstage & Hbody).
  apply BackupRunFacts.bind_inv in Hbody as (w2 & s2 & Hcompress & Hbody).
  apply BackupRunFacts.bind_inv in Hbody as (w3 & final_path & Hpath & Hbody).
  apply BackupRunFacts.bind_inv in Hbody as (w3' & name & Hname & Hupload).
  destruct (BackupRunFacts.stage_result _ _ _ _ _ _ _ Hstage) as [_ Hn].
  fold n in Hn.
  destruct (BackupRunFacts.compress_result _ _ _ _ _ _ Hn Hcompress) as [Htp _].
  unfold Staging.path, Staging.attr in Hpath. rewrite Htp in Hpath.
  cbv [unless_none ret] in Hpath. injection Hpath as <- <-.
  unfold Staging.name, Staging.attr in Hname. rewrite Htp in Hname.
  cbv [unless_none ret bind] in Hname. injection Hname as <- <-.
  destruct (NameFacts.join_name (Staging.tmpdir s1) (n +:+ ".tgz")) as (z & Hz & Ej);
    [now apply NameFacts.plain_not_absolute|].
  rewrite Ej in Hupload.
  rewrite (NameFacts.normpath_name z (n +:+ ".tgz") Hz Htgz N0 N1 N2) in Hupload.
  assert (Hut : forall p, Retention.upload_target p (Some (n +:+ ".tgz"))
                          = n +:+ ".tgz").
  { intros p. unfold Retention.upload_target.
    destruct (n +:+ ".tgz") eqn:E; [first [congruence | now destruct N0] | reflexivity]. }
  destruct (BackupRunFacts.upload_returns_keeps _ _ _ _ _ _ Hupload) as [c Hc].
  - intros p Hp. rewrite Hut. now apply Hkey.
  - exists c. rewrite Hb. unfold Retention.uploaded_object in Hc.
    now rewrite Hut in Hc.
Qed.
